(** * Expense tracker (app/page.tsx): a shallow embedding and its properties

    The page keeps one list of expense records in React state, mirrors it
    to [localStorage] and derives monthly views from it.  This file embeds
    the event handlers, the two effects and the derived values of
    [Home] together with the parts of the ECMAScript library they call, and
    proves the properties of the specification against that embedding.

    Conventions of the embedding.
    - A JavaScript [number] is a binary64 float: Rocq's primitive [float],
      whose operations are specified by [SpecFloat].
    - A JavaScript string is a [string]; each character stands for the code
      unit of the same value (code units above 255 are not represented).
    - The host supplies what the program reads from its environment: the
      local time zone, the clock and [crypto.randomUUID]; the browser
      validates the controls of the form before it submits it. *)

From Stdlib Require Import ZArith List String Ascii Bool Lia Floats.
From Stdlib Require Import DecimalString DecimalN DecimalPos Permutation Sorted.
Import ListNotations.

Local Open Scope string_scope.
Local Open Scope Z_scope.

(* 86.2 is read as the nearest binary64 number, as the program's literal is *)
Set Warnings "-inexact-float,-register-all".

(** ** Strings *)

(** [WhiteSpace] and [LineTerminator] code units below 256: TAB, LF, VT, FF,
    CR, SP and NBSP. *)
Definition isWhiteSpace (c : ascii) : bool :=
  let n := nat_of_ascii c in
  ((9 <=? n) && (n <=? 13) || (n =? 32) || (n =? 160))%nat.

Fixpoint trimStart (s : string) : string :=
  match s with
  | String c s' => if isWhiteSpace c then trimStart s' else s
  | EmptyString => EmptyString
  end.

(** [trimEnd s]: a white-space character is dropped when everything after
    it has been dropped. *)
Fixpoint trimEnd (s : string) : string :=
  match s with
  | EmptyString => EmptyString
  | String c s' =>
      match trimEnd s' with
      | EmptyString => if isWhiteSpace c then EmptyString else String c EmptyString
      | r => String c r
      end
  end.

(** [String.prototype.trim]. *)
Definition trim (s : string) : string := trimEnd (trimStart s).

(** A string is truthy when it is not empty. *)
Definition truthy_string (s : string) : bool :=
  match s with EmptyString => false | _ => true end.

(** [s.split(sep)] for a one-character separator: the pieces between the
    occurrences of [sep], always at least one piece. *)
Fixpoint split (sep : ascii) (s : string) : list string :=
  match s with
  | EmptyString => [EmptyString]
  | String c s' =>
      if Ascii.eqb c sep then EmptyString :: split sep s'
      else match split sep s' with
           | p :: ps => String c p :: ps
           | [] => [String c EmptyString]
           end
  end.

(** Decimal digits of a natural number, as [String(n)] prints an integer. *)
Definition digitsOfN (n : N) : string := NilZero.string_of_uint (N.to_uint n).

Fixpoint zeros (n : nat) : string :=
  match n with
  | O => EmptyString
  | S n' => String "0" (zeros n')
  end.

(** [s.padStart(n, "0")]. *)
Definition padStart (n : nat) (s : string) : string :=
  (zeros (n - String.length s) ++ s)%string.

(** ** Numbers *)

Definition number := float.

Definition binary64 (x : spec_float) : number := SF2Prim x.

(** The Number value of an integer: the integer rounded to nearest, ties to
    even; exact up to 2^53. *)
Definition ofZ (z : Z) : number := binary64 (binary_normalize prec emax z 0 false).

(** [ToIntegerOrInfinity] restricted to finite numbers: truncation towards
    zero; [None] for NaN and the infinities. *)
Definition truncate (x : number) : option Z :=
  match Prim2SF x with
  | S754_zero _ => Some 0
  | S754_finite s m e =>
      let a := match e with
               | Zneg k => Z.shiftr (Zpos m) (Zpos k)
               | _ => Z.shiftl (Zpos m) e
               end in
      Some (if s then - a else a)
  | _ => None
  end.

(** Truthiness of a number: false for NaN, +0 and -0. *)
Definition truthy (x : number) : bool := negb (is_nan x || is_zero x).

Definition isFinite (x : number) : bool := negb (is_nan x || is_infinity x).

(** The Number value of the decimal [m * 10^e10] with sign [neg]: the exact
    quotient rounded to nearest even by the reference division. The two
    early exits only avoid huge powers: a decimal of at least 10^400 rounds
    to infinity and one below 10^-400 rounds to zero. *)
Definition ofDecimal (neg : bool) (m : N) (e10 : Z) : number :=
  match m with
  | N0 => binary64 (S754_zero neg)
  | Npos p =>
      if 400 <? e10 then binary64 (S754_infinity neg)
      else if e10 + Z.log2 (Zpos p) <? -401 then binary64 (S754_zero neg)
      else if 0 <=? e10 then
        binary64 (binary_normalize prec emax
                    (cond_Zopp neg (Zpos p * 10 ^ e10)) 0 false)
      else
        let '(q, e, l) :=
          SFdiv_core_binary prec emax (Zpos p) 0 (10 ^ (- e10)) 0 in
        binary64 (binary_round_aux prec emax neg q e l)
  end.

Definition isDigit (c : ascii) : bool :=
  let n := nat_of_ascii c in ((48 <=? n) && (n <=? 57))%nat.

Definition digitVal (c : ascii) : N := N.of_nat (nat_of_ascii c - 48).

(** Splits off the longest prefix of decimal digits. *)
Fixpoint spanDigits (s : string) : string * string :=
  match s with
  | String c s' =>
      if isDigit c then let '(d, r) := spanDigits s' in (String c d, r)
      else (EmptyString, s)
  | EmptyString => (EmptyString, EmptyString)
  end.

Fixpoint digitsValueFrom (acc : N) (s : string) : N :=
  match s with
  | String c s' => digitsValueFrom (10 * acc + digitVal c)%N s'
  | EmptyString => acc
  end.

(** The mathematical value of a string of decimal digits. *)
Definition digitsValue (s : string) : N := digitsValueFrom 0 s.

(** [ExponentPart]: [e] or [E], an optional sign, at least one digit, and
    nothing after. *)
Definition exponentPart (s : string) : option Z :=
  match s with
  | EmptyString => Some 0
  | String c r =>
      if (Ascii.eqb c "e" || Ascii.eqb c "E")%bool then
        let '(neg, r') :=
          match r with
          | String "-" t => (true, t)
          | String "+" t => (false, t)
          | _ => (false, r)
          end in
        match spanDigits r' with
        | (EmptyString, _) => None
        | (d, EmptyString) =>
            let v := Z.of_N (digitsValue d) in Some (if neg then - v else v)
        | _ => None
        end
      else None
  end.

(** [StrUnsignedDecimalLiteral] other than [Infinity]: digits, an optional
    fraction and an optional exponent, with a digit on at least one side of
    the point. *)
Definition unsignedDecimal (neg : bool) (s : string) : option number :=
  let '(ip, r) := spanDigits s in
  let '(fp, r') :=
    match r with
    | String "." t => spanDigits t
    | _ => (EmptyString, r)
    end in
  match ip, fp with
  | EmptyString, EmptyString => None
  | _, _ =>
      match exponentPart r' with
      | Some ex =>
          Some (ofDecimal neg (digitsValue (ip ++ fp)%string)
                          (ex - Z.of_nat (String.length fp)))
      | None => None
      end
  end.

Definition strDecimalLiteral (s : string) : option number :=
  let '(neg, u) :=
    match s with
    | String "-" t => (true, t)
    | String "+" t => (false, t)
    | _ => (false, s)
    end in
  if String.eqb u "Infinity" then Some (binary64 (S754_infinity neg))
  else unsignedDecimal neg u.

(** Digits of a [NonDecimalIntegerLiteral] in base 2, 8 or 16. *)
Definition radixDigit (base : N) (c : ascii) : option N :=
  let n := N.of_nat (nat_of_ascii c) in
  let v := if ((48 <=? n) && (n <=? 57))%N then Some (n - 48)%N
           else if ((97 <=? n) && (n <=? 102))%N then Some (n - 87)%N
           else if ((65 <=? n) && (n <=? 70))%N then Some (n - 55)%N
           else None in
  match v with
  | Some d => if (d <? base)%N then Some d else None
  | None => None
  end.

Fixpoint radixValueFrom (base acc : N) (s : string) : option N :=
  match s with
  | EmptyString => Some acc
  | String c s' =>
      match radixDigit base c with
      | Some d => radixValueFrom base (base * acc + d)%N s'
      | None => None
      end
  end.

Definition nonDecimalIntegerLiteral (s : string) : option number :=
  match s with
  | String "0" (String c (String d r)) =>
      let base :=
        if (Ascii.eqb c "x" || Ascii.eqb c "X")%bool then Some 16%N
        else if (Ascii.eqb c "o" || Ascii.eqb c "O")%bool then Some 8%N
        else if (Ascii.eqb c "b" || Ascii.eqb c "B")%bool then Some 2%N
        else None in
      match base with
      | Some b =>
          match radixValueFrom b 0 (String d r) with
          | Some v => Some (ofZ (Z.of_N v))
          | None => None
          end
      | None => None
      end
  | _ => None
  end.

(** [Number(s)] on a string ([StringToNumber]): white space around the
    literal is ignored, the empty literal is +0, and a string that is not a
    numeric literal is NaN. *)
Definition StringToNumber (s : string) : number :=
  let t := trim s in
  match t with
  | EmptyString => zero
  | _ =>
      match nonDecimalIntegerLiteral t with
      | Some x => x
      | None =>
          match strDecimalLiteral t with
          | Some x => x
          | None => nan
          end
      end
  end.

(** Integers print as their decimal digits ([Number::toString] on an
    integral Number below 10^21). *)
Definition digitsOfZ (z : Z) : string :=
  match z with
  | Zneg p => String "-" (digitsOfN (Npos p))
  | _ => digitsOfN (Z.to_N z)
  end.

(** [String(x)] for the numbers the program prints: the fields of a date,
    which are integers or NaN. *)
Definition integerToString (x : number) : string :=
  match truncate x with
  | Some z => digitsOfZ z
  | None => if is_nan x then "NaN"
            else if get_sign x then "-Infinity" else "Infinity"
  end.

(** ** Dates (ECMA-262, 21.4.1)

    A time value is a number of milliseconds since the epoch, in UTC, kept
    here as an integer; an invalid date has no time value. *)

Definition msPerDay : Z := 86400000.
Definition msPerMinute : Z := 60000.

Definition Day (t : Z) : Z := t / msPerDay.
Definition TimeWithinDay (t : Z) : Z := t mod msPerDay.

Definition isLeapYear (y : Z) : bool :=
  (y mod 4 =? 0) && (negb (y mod 100 =? 0) || (y mod 400 =? 0)).

Definition DaysInYear (y : Z) : Z := if isLeapYear y then 366 else 365.

Definition DayFromYear (y : Z) : Z :=
  365 * (y - 1970) + (y - 1969) / 4 - (y - 1901) / 100 + (y - 1601) / 400.

Definition TimeFromYear (y : Z) : Z := msPerDay * DayFromYear y.

(** The year of a day number: the largest [y] with [DayFromYear y <= d],
    found from the mean year length and one step of correction. *)
Definition YearFromDay (d : Z) : Z :=
  let y := 1970 + (d * 400) / 146097 in
  if DayFromYear (y + 1) <=? d then y + 1
  else if d <? DayFromYear y then y - 1
  else y.

Definition YearFromTime (t : Z) : Z := YearFromDay (Day t).

Definition InLeapYear (t : Z) : Z := if isLeapYear (YearFromTime t) then 1 else 0.

Definition DayWithinYear (t : Z) : Z := Day t - DayFromYear (YearFromTime t).

(** The day within the year on which month [m] (0 to 11) starts; [m = 12]
    gives the length of the year. *)
Definition monthStart (leap : Z) (m : Z) : Z :=
  match m with
  | 0 => 0 | 1 => 31 | 2 => 59 + leap | 3 => 90 + leap | 4 => 120 + leap
  | 5 => 151 + leap | 6 => 181 + leap | 7 => 212 + leap | 8 => 243 + leap
  | 9 => 273 + leap | 10 => 304 + leap | 11 => 334 + leap | _ => 365 + leap
  end.

Definition MonthFromTime (t : Z) : Z :=
  let d := DayWithinYear t in
  let l := InLeapYear t in
  if d <? 31 then 0 else if d <? 59 + l then 1 else if d <? 90 + l then 2
  else if d <? 120 + l then 3 else if d <? 151 + l then 4
  else if d <? 181 + l then 5 else if d <? 212 + l then 6
  else if d <? 243 + l then 7 else if d <? 273 + l then 8
  else if d <? 304 + l then 9 else if d <? 334 + l then 10 else 11.

Definition DateFromTime (t : Z) : Z :=
  DayWithinYear t - monthStart (InLeapYear t) (MonthFromTime t) + 1.

(** [MakeDay(year, month, date)] on integers. *)
Definition MakeDay (year month date : Z) : Z :=
  let ym := year + month / 12 in
  let mn := month mod 12 in
  DayFromYear ym + monthStart (if isLeapYear ym then 1 else 0) mn + date - 1.

Definition MakeDate (day time : Z) : Z := day * msPerDay + time.

(** A date object: its time value, or [None] for an invalid date. *)
Definition Date := option Z.

Definition TimeClip (t : Z) : Date :=
  if Z.abs t <=? 8640000000000000 then Some t else None.

(** The number of days of month [m] (1 to 12) of year [y]. *)
Definition daysInMonth (y m : Z) : Z :=
  match m with
  | 2 => if isLeapYear y then 29 else 28
  | 4 | 6 | 9 | 11 => 30
  | _ => 31
  end.

(** Two decimal digits. *)
Definition twoDigits (s : string) : option Z :=
  match s with
  | String a (String b EmptyString) =>
      if isDigit a && isDigit b then Some (Z.of_N (digitsValue s)) else None
  | _ => None
  end.

(** The date-only form [YYYY-MM-DD] of the date-time string format, which
    denotes midnight UTC of that day. *)
Definition parseDateOnly (s : string) : option Z :=
  match s with
  | String y1 (String y2 (String y3 (String y4 (String "-" (String m1 (String m2
      (String "-" (String d1 (String d2 EmptyString))))))))) =>
      if isDigit y1 && isDigit y2 && isDigit y3 && isDigit y4 then
        let y := Z.of_N (digitsValue (String y1 (String y2 (String y3 (String y4 EmptyString))))) in
        match twoDigits (String m1 (String m2 EmptyString)),
              twoDigits (String d1 (String d2 EmptyString)) with
        | Some m, Some d =>
            if (1 <=? m) && (m <=? 12) && (1 <=? d) && (d <=? daysInMonth y m)
            then Some (MakeDate (MakeDay y (m - 1) d) 0)
            else None
        | _, _ => None
        end
      else None
  | _ => None
  end.

(** What the program reads from its host. The local time zone is a constant
    offset from UTC: [LocalTZA] milliseconds are added to a UTC time to get
    the local time. [parseOther] is what [Date.parse] makes of a string
    that is not in the date-only form, which the standard leaves to the
    implementation for most strings. *)
Record Host := {
  LocalTZA : Z;
  parseOther : string -> option Z
}.

Section Dates.
Variable h : Host.

Definition LocalTime (t : Z) : Z := t + LocalTZA h.
Definition UTC (t : Z) : Z := t - LocalTZA h.

(** [new Date(s)] for a string. *)
Definition DateOfString (s : string) : Date :=
  match parseDateOnly s with
  | Some t => TimeClip t
  | None => match parseOther h s with
            | Some t => TimeClip t
            | None => None
            end
  end.

(** [new Date(year, month, date)]: years 0 to 99 stand for 1900 to 1999,
    and the fields are read in local time. *)
Definition DateOfFields (year month date : number) : Date :=
  match truncate year, truncate month, truncate date with
  | Some y, Some m, Some dt =>
      let yr := if (0 <=? y) && (y <=? 99) then 1900 + y else y in
      TimeClip (UTC (MakeDate (MakeDay yr m dt) 0))
  | _, _, _ => None
  end.

(** [new Date(value)] for a number. *)
Definition DateOfNumber (v : number) : Date :=
  match truncate v with
  | Some t => TimeClip t
  | None => None
  end.

Definition getTime (d : Date) : number :=
  match d with Some t => ofZ t | None => nan end.

Definition getFullYear (d : Date) : number :=
  match d with Some t => ofZ (YearFromTime (LocalTime t)) | None => nan end.

Definition getMonth (d : Date) : number :=
  match d with Some t => ofZ (MonthFromTime (LocalTime t)) | None => nan end.

Definition getDate (d : Date) : number :=
  match d with Some t => ofZ (DateFromTime (LocalTime t)) | None => nan end.

Definition getTimezoneOffset (d : Date) : number :=
  match d with
  | Some t => (ofZ (t - LocalTime t) / ofZ msPerMinute)%float
  | None => nan
  end.

(** The date part of [toISOString()], which is all the program keeps of
    it: [YYYY-MM-DD] in UTC, with a sign and six digits for years outside
    0 to 9999. An invalid date makes [toISOString] throw ([None]). *)
Definition toISOStringDate (d : Date) : option string :=
  match d with
  | None => None
  | Some t =>
      let y := YearFromTime t in
      let sign := if y <? 0 then "-" else "+" in
      let ys := if (0 <=? y) && (y <=? 9999) then padStart 4 (digitsOfZ y)
                else (sign ++ padStart 6 (digitsOfZ (Z.abs y)))%string in
      Some (ys ++ "-" ++ padStart 2 (digitsOfZ (MonthFromTime t + 1))
               ++ "-" ++ padStart 2 (digitsOfZ (DateFromTime t)))%string
  end.
End Dates.

(** ** Number formatting *)

(** The integer nearest to [100 * x] for a positive finite [x], the larger
    one on a tie: the [n] of [Number.prototype.toFixed] for two digits. *)
Definition hundredths (m : positive) (e : Z) : Z :=
  match e with
  | Zneg k => (Zpos m * 200 + 2 ^ Zpos k) / 2 ^ (Zpos k + 1)
  | _ => Zpos m * 2 ^ e * 100
  end.

(** The shortest decimal [s * 10^(n-k)] with [k] digits that reads back as
    the positive integer-valued number [x], trying [k] from [k0] on. *)
Fixpoint shortestDigits (fuel : nat) (x : number) (X : Z) (n : Z) (k : Z)
  : Z * Z :=
  let p := 10 ^ (n - k) in
  let s := (2 * X + p) / (2 * p) in
  match fuel with
  | O => (s, k)
  | S fuel' =>
      if PrimFloat.eqb (ofDecimal false (Z.to_N s) (n - k)) x then (s, k)
      else shortestDigits fuel' x X n (k + 1)
  end.

Fixpoint dropTrailingZeros (s : string) : string :=
  match s with
  | EmptyString => EmptyString
  | String c s' =>
      match dropTrailingZeros s' with
      | EmptyString => if Ascii.eqb c "0" then EmptyString else String c EmptyString
      | r => String c r
      end
  end.

(** [Number::toString] for a finite number of at least 10^21 (an integer):
    the shortest digits that read back as the number, in exponential
    notation. *)
Definition largeToString (x : number) (X : Z) : string :=
  let n := Z.of_nat (String.length (digitsOfZ X)) in
  let '(s, k) := shortestDigits 16 x X n 1 in
  let ds := digitsOfZ s in
  (* rounding up to a power of ten adds a digit and moves the exponent *)
  let n' := if Z.of_nat (String.length ds) <=? k then n else n + 1 in
  match dropTrailingZeros ds with
  | String d EmptyString => (String d "e+" ++ digitsOfZ (n' - 1))%string
  | String d r => (String d (String "." r) ++ "e+" ++ digitsOfZ (n' - 1))%string
  | EmptyString => "0"
  end.

(** [x.toFixed(2)]. *)
Definition toFixed2 (x : number) : string :=
  match Prim2SF x with
  | S754_nan => "NaN"
  | S754_infinity s => if s then "-Infinity" else "Infinity"
  | S754_zero _ => "0.00"
  | S754_finite s m e =>
      let sign := if s then "-" else "" in
      if PrimFloat.leb 1e21%float (abs x) then
        (sign ++ largeToString (abs x) (Zpos m * 2 ^ e))%string
      else
        let ds := padStart 3 (digitsOfZ (hundredths m e)) in
        let k := (String.length ds - 2)%nat in
        (sign ++ substring 0 k ds ++ "." ++ substring k 2 ds)%string
  end.

(** ** Arrays *)

Section Sort.
Context {A : Type}.
Variable comparefn : A -> A -> number.

(** [x] is to come after [y] when [comparefn(x, y) > 0]; a comparator
    result of NaN counts as 0. *)
Definition sortsAfter (x y : A) : bool := PrimFloat.ltb 0%float (comparefn x y).

Fixpoint insertSorted (x : A) (l : list A) : list A :=
  match l with
  | [] => [x]
  | y :: l' => if sortsAfter x y then y :: insertSorted x l' else x :: l
  end.

(** [Array.prototype.sort(comparefn)] for a comparator that is consistent
    on the list: the stable sort, here by insertion from the right, so
    that an element stays before the later elements it compares equal
    to. Where the comparator is not consistent (it returns NaN for some
    pairs and not for others) the standard leaves the order to the
    engine; the list returned here is then a permutation of the input,
    and not the order of any engine in particular. *)
Fixpoint sort (l : list A) : list A :=
  match l with
  | [] => []
  | x :: l' => insertSorted x (sort l')
  end.
End Sort.

(** [a.slice(0, n)]. *)
Definition slice0 {A : Type} (n : nat) (l : list A) : list A := firstn n l.

(** The elements of a [Set] built by adding the strings of [l] in order:
    each string once, at its first occurrence. *)
Fixpoint uniqueFrom (seen : list string) (l : list string) : list string :=
  match l with
  | [] => []
  | k :: l' =>
      if existsb (String.eqb k) seen then uniqueFrom seen l'
      else k :: uniqueFrom (k :: seen) l'
  end.

Definition unique (l : list string) : list string := uniqueFrom [] l.

(** ** The data of the page *)

Inductive Category :=
  Housing | Food | Transport | Utilities | Health | Leisure | Other.

Definition CATEGORIES : list Category :=
  [Housing; Food; Transport; Utilities; Health; Leisure; Other].

Definition categoryName (c : Category) : string :=
  match c with
  | Housing => "Housing" | Food => "Food" | Transport => "Transport"
  | Utilities => "Utilities" | Health => "Health" | Leisure => "Leisure"
  | Other => "Other"
  end.

Definition Category_eqb (a b : Category) : bool :=
  match a, b with
  | Housing, Housing | Food, Food | Transport, Transport
  | Utilities, Utilities | Health, Health | Leisure, Leisure
  | Other, Other => true
  | _, _ => false
  end.

Record Expense := {
  id : string;
  label : string;
  category : Category;
  amount : number;
  date : string
}.

(** The draft held by the form: the amount is the text of the input. *)
Record Form := {
  form_label : string;
  form_amount : string;
  form_category : Category;
  form_date : string
}.

(** The state of [Home]. *)
Record State := {
  expenses : list Expense;
  form : Form;
  activeMonthKey : string
}.

Definition storageKey : string := "minimal-expense-tracker".

Definition monthName (m : Z) : string :=
  match m with
  | 0 => "January" | 1 => "February" | 2 => "March" | 3 => "April"
  | 4 => "May" | 5 => "June" | 6 => "July" | 7 => "August"
  | 8 => "September" | 9 => "October" | 10 => "November" | _ => "December"
  end.

Section Page.
Variable h : Host.

Definition getMonthKey (d : Date) : string :=
  (integerToString (getFullYear h d) ++ "-"
     ++ integerToString (PrimFloat.add (getMonth h d) 1))%string.

(** [toLocalDateInput]: the local calendar date as [YYYY-MM-DD]. *)
Definition toLocalDateInput (d : Date) : option string :=
  let offset := getTimezoneOffset h d in
  let local := DateOfNumber (getTime d - offset * 60000)%float in
  toISOStringDate local.

(** [monthFormatter.format(d)]: the month in full and the year of the
    local date; an invalid date makes [format] throw ([None]). Years
    before year 1 are printed as years of their era. *)
Definition monthFormatter_format (d : Date) : option string :=
  match d with
  | None => None
  | Some t =>
      let y := YearFromTime (LocalTime h t) in
      let yearOfEra := if y <=? 0 then 1 - y else y in
      Some (monthName (MonthFromTime (LocalTime h t)) ++ " "
              ++ digitsOfZ yearOfEra)%string
  end.

(** The month key of a record, as every derived value reads it. *)
Definition monthKeyOf (e : Expense) : string :=
  getMonthKey (DateOfString h (date e)).

(** [key.split("-").map(Number)] destructured into two numbers; a missing
    piece is [undefined], which every later use turns into NaN. *)
Definition keyParts (key : string) : number * number :=
  let parts := map StringToNumber (split "-" key) in
  (nth 0 parts nan, nth 1 parts nan).

(** The date the month of a key starts on, [new Date(year, month - 1)]. *)
Definition keyDate (key : string) : Date :=
  let '(year, month) := keyParts key in
  DateOfFields h year (month - 1)%float 1%float.

Fixpoint traverse {A B : Type} (f : A -> option B) (l : list A)
  : option (list B) :=
  match l with
  | [] => Some []
  | x :: l' =>
      match f x with
      | Some y => match traverse f l' with
                  | Some r => Some (y :: r)
                  | None => None
                  end
      | None => None
      end
  end.

(** The [months] memo: the keys of the records, each once, sorted by the
    time value of the month each key is read as, the latest first, each
    with its label. [None] when [format] throws. *)
Definition months (expenses : list Expense) : option (list (string * string)) :=
  let unique := unique (map monthKeyOf expenses) in
  let sorted :=
    sort (fun a b => getTime (keyDate b) - getTime (keyDate a))%float unique in
  traverse (fun key =>
              match monthFormatter_format (keyDate key) with
              | Some l => Some (key, l)
              | None => None
              end) sorted.

Definition monthExpenses (expenses : list Expense) (activeMonthKey : string)
  : list Expense :=
  filter (fun expense => String.eqb (monthKeyOf expense) activeMonthKey) expenses.

Definition monthTotal (monthExpenses : list Expense) : number :=
  fold_left (fun sum expense => sum + amount expense)%float monthExpenses 0%float.

Definition weeklyAverage (activeMonthKey : string) (monthTotal : number)
  : number :=
  let '(year, month) := keyParts activeMonthKey in
  let firstDay := DateOfFields h year (month - 1)%float 1%float in
  let lastDay := DateOfFields h year month 0%float in
  let totalDays := (getDate h lastDay - getDate h firstDay + 1)%float in
  let weeks := (totalDays / 7)%float in
  if PrimFloat.ltb 0%float weeks then (monthTotal / weeks)%float else monthTotal.

(** The object [tally] as the list of its entries, in the order in which
    the keys were first written. *)
Fixpoint tallyAdd (c : Category) (a : number) (acc : list (Category * number))
  : list (Category * number) :=
  match acc with
  | [] => [(c, (0 + a)%float)]
  | (k, v) :: acc' =>
      if Category_eqb k c then (k, (v + a)%float) :: acc'
      else (k, v) :: tallyAdd c a acc'
  end.

Definition tally (monthExpenses : list Expense) : list (Category * number) :=
  fold_left (fun acc expense => tallyAdd (category expense) (amount expense) acc)
            monthExpenses [].

Definition topCategories (monthExpenses : list Expense)
  : list (Category * number) :=
  slice0 3 (sort (fun x y => snd y - snd x)%float (tally monthExpenses)).

(** The comparator of both sorts of the records: the later date first. *)
Definition byDateDescending (a b : Expense) : number :=
  (getTime (DateOfString h (date b)) - getTime (DateOfString h (date a)))%float.

(** [handleSubmit]; [newId] is the value of the id expression, a fresh
    UUID or the clock. *)
Definition handleSubmit (newId : string) (st : State) : State :=
  let amount := StringToNumber (form_amount (form st)) in
  if negb (truthy_string (trim (form_label (form st))))
     || negb (truthy amount) || is_nan amount
  then st
  else
    let newExpense :=
      {| id := newId;
         label := trim (form_label (form st));
         amount := StringToNumber (toFixed2 amount);
         category := form_category (form st);
         date := form_date (form st) |} in
    let nextExpenses := sort byDateDescending (newExpense :: expenses st) in
    {| expenses := nextExpenses;
       form := {| form_label := ""; form_amount := "";
                  form_category := form_category (form st);
                  form_date := form_date (form st) |};
       activeMonthKey := monthKeyOf newExpense |}.

Definition handleDelete (id0 : string) (st : State) : State :=
  {| expenses := filter (fun expense => negb (String.eqb (id expense) id0))
                        (expenses st);
     form := form st;
     activeMonthKey := activeMonthKey st |}.

(** The [onChange] of the month selector. *)
Definition selectMonth (key : string) (st : State) : State :=
  {| expenses := expenses st; form := form st; activeMonthKey := key |}.
End Page.

(** ** JSON and the storage

    The effects are embedded on the values that JSON texts denote: a
    stored string is the empty string, or the JSON text of a value, or
    neither. The texts themselves, [JSON.stringify] and [JSON.parse] on
    strings and the storage by key, follow further down; there the text
    written for a store is proved to read as its value. The order of the
    properties of an object, which the records do not keep, is that of the
    type [Expense]. *)

Inductive json :=
| JNull
| JBool (b : bool)
| JNumber (x : number)
| JString (s : string)
| JArray (items : list json)
| JObject (fields : list (string * json)).

Inductive text :=
| EmptyText
| Malformed
| JSONText (j : json).

(** The value [localStorage.getItem(storageKey)] returns: [None] is
    [null]. *)
Definition Storage := option text.

(** A number is written as its digits when it is finite ([-0] as [0]), and
    as [null] when it is not. *)
Definition jsonOfNumber (x : number) : json :=
  if isFinite x then JNumber (if is_zero x then zero else x) else JNull.

Definition jsonOfExpense (e : Expense) : json :=
  JObject [("id", JString (id e)); ("label", JString (label e));
           ("category", JString (categoryName (category e)));
           ("amount", jsonOfNumber (amount e)); ("date", JString (date e))].

Definition JSON_stringify (expenses : list Expense) : text :=
  JSONText (JArray (map jsonOfExpense expenses)).

Definition JSON_parse (t : text) : option json :=
  match t with
  | JSONText j => Some j
  | _ => None
  end.

Definition categoryOfName (s : string) : option Category :=
  find (fun c => String.eqb (categoryName c) s) CATEGORIES.

Fixpoint field (k : string) (fields : list (string * json)) : option json :=
  match fields with
  | [] => None
  | (k', v) :: r => if String.eqb k' k then Some v else field k r
  end.

(** The JSON values that are expense records: an object with exactly the
    five properties, each of its type. *)
Definition expenseOfJson (j : json) : option Expense :=
  match j with
  | JObject fields =>
      match field "id" fields, field "label" fields, field "category" fields,
            field "amount" fields, field "date" fields with
      | Some (JString i), Some (JString l), Some (JString c),
        Some (JNumber a), Some (JString d) =>
          match categoryOfName c, List.length fields with
          | Some c', 5%nat =>
              Some {| id := i; label := l; category := c'; amount := a; date := d |}
          | _, _ => None
          end
      | _, _, _, _, _ => None
      end
  | _ => None
  end.

(** What the cast [const parsed: Expense[] = JSON.parse(stored)] is
    applied to. *)
Inductive Parsed :=
| ParsedExpenses (l : list Expense)
| ParsedNotIterable
| ParsedOther.

Definition classify (j : json) : Parsed :=
  match j with
  | JArray items =>
      match traverse expenseOfJson items with
      | Some l => ParsedExpenses l
      | None => ParsedOther
      end
  | JString _ => ParsedOther
  | _ => ParsedNotIterable
  end.

(** ** The seed and the two effects *)

(** The result of a step that can throw, or leave the typed embedding. *)
Inductive result (A : Type) :=
| Returns (a : A)
| Throws
| Untyped.
Arguments Returns {A} a.
Arguments Throws {A}.
Arguments Untyped {A}.

Section Effects.
Variable h : Host.
(** [crypto.randomUUID], when the host has it: the UUID of the [k]-th
    call of an event. *)
Variable randomUUID : option (nat -> string).
(** The time value of [new Date()]. *)
Variable now : Z.

(** The entries of [sample]: label, category, amount and day of the
    month. *)
Definition sample : list (string * Category * number * number) :=
  [("Morning coffee", Food, 4.5%float, 2%float);
   ("Weekly groceries", Food, 86.2%float, 3%float);
   ("Metro pass", Transport, 28%float, 5%float);
   ("Electric bill", Utilities, 64.75%float, 7%float);
   ("Yoga class", Health, 22%float, 10%float)].

Definition createSeedExpenses : option (list Expense) :=
  let today := TimeClip now in
  let month := getMonth h today in
  let year := getFullYear h today in
  traverse
    (fun '(k, (l, c, a, day)) =>
       match toLocalDateInput h (DateOfFields h year month day) with
       | Some d =>
           Some {| id := match randomUUID with
                         | Some uuid => uuid k
                         | None => (l ++ "-" ++ d)%string
                         end;
                   label := l; category := c; amount := a; date := d |}
       | None => None
       end)
    (combine (seq 0 5) sample).

(** The id of a new expense. *)
Definition newExpenseId : string :=
  match randomUUID with
  | Some uuid => uuid 0%nat
  | None => digitsOfZ now
  end.

(** The state of the first render. *)
Definition initialState : option State :=
  match toLocalDateInput h (TimeClip now) with
  | Some d =>
      Some {| expenses := [];
              form := {| form_label := ""; form_amount := "";
                         form_category := Housing; form_date := d |};
              activeMonthKey := getMonthKey h (TimeClip now) |}
  | None => None
  end.

(** The effect that writes the mirror. *)
Definition persistEffect (expenses : list Expense) : Storage :=
  Some (JSON_stringify expenses).

(** What the load effect asks for: the state updates of its transition
    and the storage it leaves. *)
Record Loaded := {
  setExpenses : option (list Expense);
  setActiveMonthKey : option string;
  storageAfterLoad : Storage
}.

Definition loadEffect (stored : Storage) : result Loaded :=
  let kept := {| setExpenses := None; setActiveMonthKey := None;
                 storageAfterLoad := stored |} in
  match stored with
  | Some (JSONText j) =>
      match classify j with
      | ParsedExpenses parsed =>
          let latest := hd_error (sort (byDateDescending h) parsed) in
          Returns {| setExpenses := Some parsed;
                     setActiveMonthKey :=
                       match latest with
                       | Some e => Some (monthKeyOf h e)
                       | None => None
                       end;
                     storageAfterLoad := stored |}
      | ParsedNotIterable => Returns kept
      | ParsedOther => Untyped
      end
  | Some Malformed => Returns kept
  | Some EmptyText | None =>
      match createSeedExpenses with
      | Some seed =>
          Returns {| setExpenses := Some seed; setActiveMonthKey := None;
                     storageAfterLoad := Some (JSON_stringify seed) |}
      | None => Throws
      end
  end.

(** Mounting the page, where its renders return: the first render, the
    load effect, the persist effect of the first render (the list is
    still empty), then the updates of the load effect and, when the list
    was set, the persist effect of the second render. Whether a render
    returns is [renders], below. *)
Definition mount (stored : Storage) : result (State * Storage) :=
  match initialState with
  | None => Throws
  | Some st0 =>
      match loadEffect stored with
      | Returns l =>
          let afterFirstRender := persistEffect (expenses st0) in
          match setExpenses l with
          | Some es =>
              Returns ({| expenses := es; form := form st0;
                          activeMonthKey :=
                            match setActiveMonthKey l with
                            | Some k => k
                            | None => activeMonthKey st0
                            end |},
                       persistEffect es)
          | None => Returns (st0, afterFirstRender)
          end
      | Throws => Throws
      | Untyped => Untyped
      end
  end.

(** Whether [handleSubmit] accepts the draft. *)
Definition accepted (f : Form) : bool :=
  let amount := StringToNumber (form_amount f) in
  negb (negb (truthy_string (trim (form_label f)))
        || negb (truthy amount) || is_nan amount).

(** Removing a record: the handler, then the persist effect of the
    render that follows (a render that returned with the list returns
    with a part of it). *)
Definition remove (id0 : string) (s : State * Storage) : State * Storage :=
  let st' := handleDelete id0 (fst s) in
  (st', persistEffect (expenses st')).
End Effects.

(** ** What the page shows beside the derived values *)

Definition shortMonthName (m : Z) : string :=
  match m with
  | 0 => "Jan" | 1 => "Feb" | 2 => "Mar" | 3 => "Apr" | 4 => "May" | 5 => "Jun"
  | 6 => "Jul" | 7 => "Aug" | 8 => "Sep" | 9 => "Oct" | 10 => "Nov" | _ => "Dec"
  end.

(** [dateFormatter.format(d)]: the month in short and the day of the local
    date; an invalid date makes [format] throw ([None]). *)
Definition dateFormatter_format (h : Host) (d : Date) : option string :=
  match d with
  | None => None
  | Some t =>
      Some (shortMonthName (MonthFromTime (LocalTime h t)) ++ " "
              ++ digitsOfZ (DateFromTime (LocalTime h t)))%string
  end.

(** The date shown beside a record,
    [dateFormatter.format(new Date(expense.date))]. *)
Definition shownDate (h : Host) (expense : Expense) : option string :=
  dateFormatter_format h (DateOfString h (date expense)).

(** The text of the Entries card,
    [monthExpenses.length.toString().padStart(2, "0")]. *)
Definition entriesText (monthExpenses : list Expense) : string :=
  padStart 2 (digitsOfN (N.of_nat (List.length monthExpenses))).

(** ** The form and its controls

    The form has no [noValidate] and its button is a submit button: the
    browser validates the controls first (HTML, constraint validation)
    and fires [submit], and with it [handleSubmit], only when every control
    satisfies its constraints. The controls are controlled by the state:
    each holds the text of its field of [form], sanitized for its type. *)

(** What the browser decides about the controls beyond what is modelled
    here. *)
Record Controls := {
  (** [step="0.01"]: whether the number of this text is off the steps *)
  stepMismatch : string -> bool;
  (** whether the amount control takes a text whose number overflows the
      finite numbers: the standard has it keep the text and skip [min] and
      [step], browsers empty the control *)
  admitsOverflow : string -> bool;
  (** [type="date" max=... required]: whether the date control, holding
      this text, satisfies its constraints *)
  dateSatisfied : string -> bool
}.

(** A text input drops the line breaks of its value. *)
Fixpoint stripNewlines (s : string) : string :=
  match s with
  | EmptyString => EmptyString
  | String c s' =>
      if (Ascii.eqb c "010" || Ascii.eqb c "013")%bool then stripNewlines s'
      else String c (stripNewlines s')
  end.

(** A valid floating-point number (HTML): an optional [-], digits or a
    point followed by digits or both, and an optional exponent. *)
Definition validFloatingPointNumber (s : string) : bool :=
  let u := match s with String "-" t => t | _ => s end in
  let '(ip, r) := spanDigits u in
  let '(point, fp, r') :=
    match r with
    | String "." t => let '(f, r2) := spanDigits t in (true, f, r2)
    | _ => (false, EmptyString, r)
    end in
  (if point then truthy_string fp else truthy_string ip)
  && match r' with
     | EmptyString => true
     | String c t =>
         (Ascii.eqb c "e" || Ascii.eqb c "E")
         && match spanDigits (match t with
                              | String "-" x => x
                              | String "+" x => x
                              | _ => t
                              end) with
            | (String _ _, EmptyString) => true
            | _ => false
            end
     end.

(** The value of a control of [type="number"] that is given the text [s]:
    a text that is not a valid floating-point number is replaced by the
    empty string. *)
Definition numberControlValue (s : string) : string :=
  if validFloatingPointNumber s then s else "".

(** Whether the form satisfies its constraints: the description is
    [required]; the amount is [required], of [type="number"], [min="0"]
    and [step="0.01"]; the date is left to the browser. The number of a
    valid floating-point number is the Number of the text. *)
Definition formValid (b : Controls) (f : Form) : bool :=
  let amount := numberControlValue (form_amount f) in
  truthy_string (stripNewlines (form_label f))
  && truthy_string amount
  && (if isFinite (StringToNumber amount)
      then negb (StringToNumber amount <? 0)%float
           && negb (stepMismatch b amount)
      else admitsOverflow b amount)
  && dateSatisfied b (form_date f).

(** ** Renders and submitting *)

(** What an event leaves: the page showing a state, or the page gone after
    a render that threw; either way with the mirror. *)
Inductive Outcome :=
| Shown (st : State) (mirror : Storage)
| Crashed (mirror : Storage).

Definition isSome {A : Type} (o : option A) : bool :=
  match o with Some _ => true | None => false end.

Section Submit.
Variable b : Controls.
Variable h : Host.
Variable randomUUID : option (nat -> string).
Variable now : Z.

(** Whether a render of [Home] with this state returns. It throws a
    [RangeError] where a date that is not valid is formatted or written
    in ISO format: the date of the initial form, the labels of [months]
    (or of the current month when there are none), the month of the
    Activity header, the dates of the records shown, and the [max] of
    the date control. *)
Definition renders (st : State) : bool :=
  let today := TimeClip now in
  isSome (toLocalDateInput h today)
  && match months h (expenses st) with
     | Some [] => isSome (monthFormatter_format h today)
     | Some _ => true
     | None => false
     end
  && isSome (monthFormatter_format h (keyDate h (activeMonthKey st)))
  && forallb (fun expense => isSome (shownDate h expense))
             (monthExpenses h (expenses st) (activeMonthKey st))
  && isSome (toISOStringDate today).

(** Submitting the form: the validation of the controls, then the
    handler, then, when the handler set the state, the next render and
    its persist effect. A render that throws takes the page down before
    the effect runs, and the mirror stays as it was. *)
Definition submit (s : State * Storage) : Outcome :=
  if formValid b (form (fst s)) && accepted (form (fst s)) then
    let st' := handleSubmit h (newExpenseId randomUUID now) (fst s) in
    if renders st' then Shown st' (persistEffect (expenses st'))
    else Crashed (snd s)
  else Shown (fst s) (snd s).
End Submit.

(** ** Numbers as text

    [Number::toString] (radix 10) writes the shortest decimal that reads
    back as the number. The digits are searched for among the decimals
    nearest to the number's own, exact decimal, which is the last one
    tried. *)

(** The exact decimal of the positive number [m * 2^e]: digits [s] and an
    exponent [e10] with [m * 2^e = s * 10^e10]. *)
Definition exactDecimal (m : positive) (e : Z) : Z * Z :=
  match e with
  | Zneg k => (Zpos m * 5 ^ Zpos k, e)
  | _ => (Zpos m * 2 ^ e, 0)
  end.

(** Trailing zeros of the digits move into the exponent. *)
Fixpoint dropZeros (fuel : nat) (s e10 : Z) : Z * Z :=
  match fuel with
  | O => (s, e10)
  | S fuel' =>
      if s mod 10 =? 0 then dropZeros fuel' (s / 10) (e10 + 1) else (s, e10)
  end.

(** The rounding of [ofDecimal], before it is made a Number. *)
Definition roundDecimal (neg : bool) (m : N) (e10 : Z) : spec_float :=
  match m with
  | N0 => S754_zero neg
  | Npos p =>
      if 400 <? e10 then S754_infinity neg
      else if e10 + Z.log2 (Zpos p) <? -401 then S754_zero neg
      else if 0 <=? e10 then
        binary_normalize prec emax (cond_Zopp neg (Zpos p * 10 ^ e10)) 0 false
      else
        let '(q, e, l) :=
          SFdiv_core_binary prec emax (Zpos p) 0 (10 ^ (- e10)) 0 in
        binary_round_aux prec emax neg q e l
  end.

(** The decimal [s * 10^e10] reads as the positive number [m * 2^e]. *)
Definition readsAs (m : positive) (e : Z) (c : Z * Z) : bool :=
  match roundDecimal false (Z.to_N (fst c)) (snd c) with
  | S754_finite false m' e' => Pos.eqb m m' && Z.eqb e e'
  | _ => false
  end.

(** The decimals of [k], [k + 1], ... digits nearest to the exact decimal
    [s0 * 10^e0] of [d] digits: the first that reads as the number, the
    nearer one of the two of a length first, and the one with an even last
    digit when they are as near. *)
Fixpoint shortestFrom (fuel : nat) (m : positive) (e : Z) (s0 d e0 k : Z)
  : Z * Z :=
  match fuel with
  | O => dropZeros (Z.to_nat d) s0 e0
  | S fuel' =>
      let p := 10 ^ (d - k) in
      let lo := s0 / p in
      let r := s0 mod p in
      let up := (p <? 2 * r) || ((p =? 2 * r) && Z.odd lo) in
      let near := dropZeros (Z.to_nat d) (if up then lo + 1 else lo) (e0 + (d - k)) in
      let far := dropZeros (Z.to_nat d) (if up then lo else lo + 1) (e0 + (d - k)) in
      if readsAs m e near then near
      else if readsAs m e far then far
      else shortestFrom fuel' m e s0 d e0 (k + 1)
  end.

(** The digits of the positive number [m * 2^e] and the place [n] of its
    decimal point: the number is [0.digits * 10^n]. *)
Definition shortestDecimal (m : positive) (e : Z) : string * Z :=
  let '(s0, e0) := exactDecimal m e in
  let d := Z.of_nat (String.length (digitsOfZ s0)) in
  let '(s, e10) :=
    shortestFrom (Z.to_nat (d - 1)) m e s0 d e0 1 in
  (digitsOfZ s, Z.of_nat (String.length (digitsOfZ s)) + e10).

(** [Number::toString(x, 10)]. *)
Definition NumberToString (x : number) : string :=
  match Prim2SF x with
  | S754_nan => "NaN"
  | S754_zero _ => "0"
  | S754_infinity s => if s then "-Infinity" else "Infinity"
  | S754_finite s m e =>
      let '(ds, n) := shortestDecimal m e in
      let k := Z.of_nat (String.length ds) in
      let body :=
        if (-6 <? n) && (n <=? 21) then
          if k <=? n then (ds ++ zeros (Z.to_nat (n - k)))%string
          else if 0 <? n then
            (substring 0 (Z.to_nat n) ds ++ "."
               ++ substring (Z.to_nat n) (Z.to_nat (k - n)) ds)%string
          else ("0." ++ zeros (Z.to_nat (- n)) ++ ds)%string
        else
          let sign := if n - 1 <? 0 then "-" else "+" in
          let ex := (sign ++ digitsOfZ (Z.abs (n - 1)))%string in
          match ds with
          | String c EmptyString => String c ("e" ++ ex)%string
          | String c rest => String c ("." ++ rest ++ "e" ++ ex)%string
          | EmptyString => EmptyString
          end in
      ((if s then "-" else "") ++ body)%string
  end.

(** ** JSON texts

    [JSON.stringify] and [JSON.parse] on strings. The value-level
    embedding above is what these give on the texts the page writes
    ([readMirror_persistTo] below). *)

Definition hexDigit (n : N) : ascii :=
  ascii_of_N (if (n <? 10)%N then 48 + n else 87 + n).

(** [QuoteJSONString]: what is written between the quotes for one code
    unit. *)
Definition quoteChar (c : ascii) : string :=
  let n := N_of_ascii c in
  if Ascii.eqb c "034" then (String "\" (String "034" EmptyString))
  else if Ascii.eqb c "\" then "\\"
  else if (n =? 8)%N then "\b"
  else if (n =? 9)%N then "\t"
  else if (n =? 10)%N then "\n"
  else if (n =? 12)%N then "\f"
  else if (n =? 13)%N then "\r"
  else if (n <? 32)%N then
    String "\" (String "u" (String "0" (String "0"
      (String (hexDigit (n / 16)) (String (hexDigit (n mod 16)) EmptyString)))))
  else String c EmptyString.

Fixpoint quoteChars (s : string) : string :=
  match s with
  | EmptyString => EmptyString
  | String c s' => (quoteChar c ++ quoteChars s')%string
  end.

Definition QuoteJSONString (s : string) : string :=
  String "034" (quoteChars s ++ String "034" EmptyString)%string.

Fixpoint join (sep : string) (l : list string) : string :=
  match l with
  | [] => EmptyString
  | [x] => x
  | x :: l' => (x ++ sep ++ join sep l')%string
  end.

(** [SerializeJSONProperty] without indentation: the text of a value. A
    number that is not finite is written as [null]. *)
Fixpoint JSON_text (j : json) : string :=
  match j with
  | JNull => "null"
  | JBool b => if b then "true" else "false"
  | JNumber x => if isFinite x then NumberToString x else "null"
  | JString s => QuoteJSONString s
  | JArray items =>
      ("[" ++ join "," (map JSON_text items) ++ "]")%string
  | JObject fields =>
      ("{" ++ join "," (map (fun kv => QuoteJSONString (fst kv) ++ ":"
                                         ++ JSON_text (snd kv)) fields)
           ++ "}")%string
  end.

(** What reading a text gives: a value and the text after it, a
    [SyntaxError], or a text that is not represented (it escapes a code unit
    above 255). *)
Inductive Read (A : Type) :=
| Value (a : A) (rest : string)
| SyntaxError
| Unrepresented.
Arguments Value {A} a rest.
Arguments SyntaxError {A}.
Arguments Unrepresented {A}.

(** JSON white space: TAB, LF, CR and SP. *)
Definition isJSONWhiteSpace (c : ascii) : bool :=
  let n := N_of_ascii c in
  ((n =? 9) || (n =? 10) || (n =? 13) || (n =? 32))%N.

Fixpoint skipWhiteSpace (s : string) : string :=
  match s with
  | String c s' => if isJSONWhiteSpace c then skipWhiteSpace s' else s
  | EmptyString => EmptyString
  end.

Definition consChar (c : ascii) (r : Read string) : Read string :=
  match r with
  | Value s rest => Value (String c s) rest
  | SyntaxError => SyntaxError
  | Unrepresented => Unrepresented
  end.

(** The code unit of [\uXXXX]. *)
Definition hex4 (a b c d : ascii) : option N :=
  match radixDigit 16 a, radixDigit 16 b, radixDigit 16 c, radixDigit 16 d with
  | Some x, Some y, Some z, Some w => Some (((x * 16 + y) * 16 + z) * 16 + w)%N
  | _, _, _, _ => None
  end.

(** A JSON string, after its opening quote. *)
Fixpoint scanString (s : string) : Read string :=
  match s with
  | EmptyString => SyntaxError
  | String c s' =>
      if Ascii.eqb c "034" then Value EmptyString s'
      else if Ascii.eqb c "\" then
        match s' with
        | String e s'' =>
            if Ascii.eqb e "034" then consChar "034" (scanString s'')
            else if Ascii.eqb e "\" then consChar "\" (scanString s'')
            else if Ascii.eqb e "/" then consChar "/" (scanString s'')
            else if Ascii.eqb e "b" then consChar "008" (scanString s'')
            else if Ascii.eqb e "f" then consChar "012" (scanString s'')
            else if Ascii.eqb e "n" then consChar "010" (scanString s'')
            else if Ascii.eqb e "r" then consChar "013" (scanString s'')
            else if Ascii.eqb e "t" then consChar "009" (scanString s'')
            else if Ascii.eqb e "u" then
              match s'' with
              | String h1 (String h2 (String h3 (String h4 s3))) =>
                  match hex4 h1 h2 h3 h4 with
                  | Some n =>
                      if (n <? 256)%N then consChar (ascii_of_N n) (scanString s3)
                      else Unrepresented
                  | None => SyntaxError
                  end
              | _ => SyntaxError
              end
            else SyntaxError
        | EmptyString => SyntaxError
        end
      else if (N_of_ascii c <? 32)%N then SyntaxError
      else consChar c (scanString s')
  end.

(** A JSON number: an optional [-], an integer without leading zeros, an
    optional fraction and an optional exponent; its value is that of the
    numeric literal. *)
Definition scanNumber (s : string) : Read number :=
  let '(neg, u) :=
    match s with
    | String "-" t => (true, t)
    | _ => (false, s)
    end in
  let '(ip, r) := spanDigits u in
  match ip with
  | EmptyString => SyntaxError
  | String c ip' =>
      if Ascii.eqb c "0" && truthy_string ip' then SyntaxError
      else
        let fraction :=
          match r with
          | String "." t =>
              match spanDigits t with
              | (EmptyString, _) => None
              | (fp, r') => Some (fp, r')
              end
          | _ => Some (EmptyString, r)
          end in
        match fraction with
        | None => SyntaxError
        | Some (fp, r') =>
            let exponent :=
              match r' with
              | String c' t =>
                  if (Ascii.eqb c' "e" || Ascii.eqb c' "E")%bool then
                    let '(minus, t') :=
                      match t with
                      | String "-" t' => (true, t')
                      | String "+" t' => (false, t')
                      | _ => (false, t)
                      end in
                    match spanDigits t' with
                    | (EmptyString, _) => None
                    | (d, r'') =>
                        let v := Z.of_N (digitsValue d) in
                        Some (if minus then - v else v, r'')
                    end
                  else Some (0, r')
              | EmptyString => Some (0, r')
              end in
            match exponent with
            | None => SyntaxError
            | Some (ex, rest) =>
                Value (ofDecimal neg (digitsValue (ip ++ fp)%string)
                                 (ex - Z.of_nat (String.length fp)))
                      rest
            end
        end
  end.

(** A property read again replaces the value of the earlier one, in its
    place. *)
Fixpoint setField (k : string) (v : json) (fields : list (string * json))
  : list (string * json) :=
  match fields with
  | [] => [(k, v)]
  | (k', v') :: r =>
      if String.eqb k' k then (k', v) :: r else (k', v') :: setField k v r
  end.

(** A JSON value with the white space before it skipped; and the elements
    of an array and the members of an object after the first. The fuel
    bounds the calls, each of which follows a character that was read. *)
Fixpoint parseValue (fuel : nat) (s : string) : Read json :=
  match fuel with
  | O => Unrepresented
  | S fuel' =>
      match s with
      | String "[" r =>
          match skipWhiteSpace r with
          | String "]" r' => Value (JArray []) r'
          | r' => parseElements fuel' [] r'
          end
      | String "{" r =>
          match skipWhiteSpace r with
          | String "}" r' => Value (JObject []) r'
          | r' => parseMembers fuel' [] r'
          end
      | String "034" r =>
          match scanString r with
          | Value str r' => Value (JString str) r'
          | SyntaxError => SyntaxError
          | Unrepresented => Unrepresented
          end
      | String "n" (String "u" (String "l" (String "l" r))) => Value JNull r
      | String "t" (String "r" (String "u" (String "e" r))) => Value (JBool true) r
      | String "f" (String "a" (String "l" (String "s" (String "e" r)))) =>
          Value (JBool false) r
      | _ =>
          match scanNumber s with
          | Value x r => Value (JNumber x) r
          | SyntaxError => SyntaxError
          | Unrepresented => Unrepresented
          end
      end
  end
with parseElements (fuel : nat) (acc : list json) (s : string) : Read json :=
  match fuel with
  | O => Unrepresented
  | S fuel' =>
      match parseValue fuel' s with
      | Value v r =>
          match skipWhiteSpace r with
          | String "," r' => parseElements fuel' (acc ++ [v]) (skipWhiteSpace r')
          | String "]" r' => Value (JArray (acc ++ [v])) r'
          | _ => SyntaxError
          end
      | SyntaxError => SyntaxError
      | Unrepresented => Unrepresented
      end
  end
with parseMembers (fuel : nat) (acc : list (string * json)) (s : string)
  : Read json :=
  match fuel with
  | O => Unrepresented
  | S fuel' =>
      match s with
      | String "034" r =>
          match scanString r with
          | Value k r1 =>
              match skipWhiteSpace r1 with
              | String ":" r2 =>
                  match parseValue fuel' (skipWhiteSpace r2) with
                  | Value v r3 =>
                      match skipWhiteSpace r3 with
                      | String "," r4 =>
                          parseMembers fuel' (setField k v acc) (skipWhiteSpace r4)
                      | String "}" r4 => Value (JObject (setField k v acc)) r4
                      | _ => SyntaxError
                      end
                  | SyntaxError => SyntaxError
                  | Unrepresented => Unrepresented
                  end
              | _ => SyntaxError
              end
          | SyntaxError => SyntaxError
          | Unrepresented => Unrepresented
          end
      | _ => SyntaxError
      end
  end.

(** [JSON.parse(s)]: one value, with white space around it. *)
Definition JSON_read (s : string) : Read json :=
  match parseValue (2 * String.length s + 1) (skipWhiteSpace s) with
  | Value j r =>
      match skipWhiteSpace r with
      | EmptyString => Value j EmptyString
      | _ => SyntaxError
      end
  | SyntaxError => SyntaxError
  | Unrepresented => Unrepresented
  end.

(** ** The storage

    [localStorage]: the items by key, the last one set first. *)
Definition LocalStorage := list (string * string).

Fixpoint getItem (key : string) (ls : LocalStorage) : option string :=
  match ls with
  | [] => None
  | (k, v) :: r => if String.eqb k key then Some v else getItem key r
  end.

Definition setItem (key value : string) (ls : LocalStorage) : LocalStorage :=
  (key, value) :: ls.

(** The properties of a record as JSON writes them, in the order of the
    type [Expense]. An object keeps its properties in the order in which
    they were written, which for a record depends on where it was made
    ([handleSubmit], the seed, a text that was parsed); the records do not
    keep that order. *)
Definition properties (e : Expense) : list (string * json) :=
  [("id", JString (id e)); ("label", JString (label e));
   ("category", JString (categoryName (category e)));
   ("amount", jsonOfNumber (amount e)); ("date", JString (date e))].

(** The persist effect on the storage,
    [localStorage.setItem(storageKey, JSON.stringify(expenses))], for the
    records as the objects [objects]. *)
Definition persistTo (objects : list json) (ls : LocalStorage) : LocalStorage :=
  setItem storageKey (JSON_text (JArray objects)) ls.

(** A string as the load effect takes it: empty, the text of a value, or
    a text that [JSON.parse] throws on. *)
Definition textOf (s : string) : option text :=
  match s with
  | EmptyString => Some EmptyText
  | _ =>
      match JSON_read s with
      | Value j _ => Some (JSONText j)
      | SyntaxError => Some Malformed
      | Unrepresented => None
      end
  end.

(** What the load effect reads, [localStorage.getItem(storageKey)]; [None]
    for a text that is not represented. *)
Definition readMirror (ls : LocalStorage) : option Storage :=
  match getItem storageKey ls with
  | None => Some None
  | Some s =>
      match textOf s with
      | Some t => Some (Some t)
      | None => None
      end
  end.

(** The load effect on the storage; [None] for a text that is not
    represented. *)
Definition loadFrom (h : Host) (randomUUID : option (nat -> string)) (now : Z)
    (ls : LocalStorage) : option (result Loaded) :=
  option_map (loadEffect h randomUUID now) (readMirror ls).

(** ** Predicates of the statements *)

(** A finite number or an infinity of sign [s]. *)
Definition signed (s : bool) (x : spec_float) : Prop :=
  (exists m e, x = S754_finite s m e) \/ x = S754_infinity s.

(** The mantissa of a finite number at the exponent [ez]. *)
Definition aligned (s : bool) (m : positive) (e ez : Z) : Z :=
  cond_Zopp s (Zpos m * 2 ^ (e - ez)).

(** The time value of a record's date, as the comparators read it. *)
Definition timeOf (h : Host) (e : Expense) : number :=
  getTime (DateOfString h (date e)).

(** [a] is not older than [b]. *)
Definition notOlder (h : Host) (a b : Expense) : Prop :=
  (timeOf h a <? timeOf h b)%float = false.

(** The sum of [p] is at least the sum of [q]. *)
Definition sumAtLeast (p q : Category * number) : Prop :=
  (snd q <=? snd p)%float = true.

(** An amount that is at least 0, and so not NaN. *)
Definition nonNegative (x : number) : Prop := (0 <=? x)%float = true.

(** The record [handleSubmit] builds from an accepted draft. *)
Definition newExpenseOf (newId : string) (f : Form) : Expense :=
  {| id := newId;
     label := trim (form_label f);
     amount := StringToNumber (toFixed2 (StringToNumber (form_amount f)));
     category := form_category f;
     date := form_date f |}.

(** Every character of [s] satisfies [p]. *)
Fixpoint forallChars (p : ascii -> bool) (s : string) : bool :=
  match s with
  | EmptyString => true
  | String c s' => p c && forallChars p s'
  end.

(** The key that [getMonthKey] builds for month [m] (1 to 12) of year [y]. *)
Definition monthKey (y m : Z) : string :=
  (digitsOfZ y ++ "-" ++ digitsOfZ m)%string.

Definition notWhiteSpace (c : ascii) : bool := negb (isWhiteSpace c).

(** [n] is the integer nearest to 100 times the number of mantissa [m] and
    exponent [e], the larger one of two: with [2^a / 2^b] for [2^e],
    [n - 1/2 <= 100 * m * 2^e < n + 1/2]. *)
Definition nearestHundredth (m : positive) (e : Z) (n : Z) : Prop :=
  let a := Z.max e 0 in
  let b := Z.max (- e) 0 in
  (2 * n - 1) * 2 ^ b <= 200 * Zpos m * 2 ^ a < (2 * n + 1) * 2 ^ b.

(** A number that JSON writes as itself: finite, and not [-0], which is
    written [0]. *)
Definition storable (x : number) : Prop :=
  isFinite x = true /\ x <> (-0)%float.

(** ** Sample inputs *)

(** A host in the UTC zone that reads no other date format. *)
Definition utcHost : Host := {| LocalTZA := 0; parseOther := fun _ => None |}.

(** A host five hours west of UTC. *)
Definition westHost : Host :=
  {| LocalTZA := -18000000; parseOther := fun _ => None |}.

(** 29 February 2024, 00:00 UTC. *)
Definition sampleClock : Z := 1709164800000.

(** The store of the scenario of the specification. *)
Definition sampleStore : list Expense :=
  [{| id := "a"; label := "Lunch"; category := Food; amount := 10%float;
      date := "2024-01-02" |};
   {| id := "b"; label := "Dinner"; category := Food; amount := 20%float;
      date := "2024-01-05" |};
   {| id := "c"; label := "Bus"; category := Transport; amount := 5%float;
      date := "2024-01-10" |}].

Definition sampleForm : Form :=
  {| form_label := " Coffee "; form_amount := "4.567";
     form_category := Food; form_date := "2024-03-05" |}.

Definition sampleState : State :=
  {| expenses := sampleStore; form := sampleForm; activeMonthKey := "2024-1" |}.

(** A draft with a negative amount. *)
Definition negativeDraft : Form :=
  {| form_label := "Refund"; form_amount := "-5";
     form_category := Other; form_date := "2024-03-05" |}.

(** A browser that lets every text pass where the model leaves it the
    choice. *)
Definition laxControls : Controls :=
  {| stepMismatch := fun _ => false;
     admitsOverflow := fun _ => true;
     dateSatisfied := fun _ => true |}.

(** Two records, one of them dated in the year 99. *)
Definition twoDigitYearStore : list Expense :=
  [{| id := "a"; label := "Old"; category := Other; amount := 1%float;
      date := "0099-03-01" |};
   {| id := "b"; label := "New"; category := Other; amount := 2%float;
      date := "1950-01-01" |}].

(** The month a key names, counted in months: 12 times the year plus the
    month. *)
Definition keyIndex (key : string) : option Z :=
  match truncate (fst (keyParts key)), truncate (snd (keyParts key)) with
  | Some y, Some m => Some (12 * y + m)
  | _, _ => None
  end.

(** The entry [p] of [months] names a month that is not before the month
    of the entry [q]. *)
Definition notBefore (p q : string * string) : Prop :=
  exists i j, keyIndex (fst p) = Some i /\ keyIndex (fst q) = Some j /\ j <= i.

(** A record whose date the host reads, in a year from 100 on. *)
Definition datedFromYear100 (h : Host) (e : Expense) : Prop :=
  exists t, DateOfString h (date e) = Some t
            /\ 100 <= YearFromTime (LocalTime h t) <= 275759.

(** The key and the label of month [m] (1 to 12) of year [y]. *)
Definition monthEntry (y m : Z) : string * string :=
  (monthKey y m, (monthName (m - 1) ++ " " ++ digitsOfZ y)%string).

(** The key of a month of a year from 100 on. *)
Definition keyFromYear100 (k : string) (y m : Z) : Prop :=
  k = monthKey y m /\ 100 <= y <= 275759 /\ 1 <= m <= 12.

(** ** Predicates of the further properties *)

(** A record whose date the host reads. *)
Definition dated (h : Host) (e : Expense) : Prop :=
  exists t, DateOfString h (date e) = Some t.

(** The records of category [c], in the order of the list. *)
Definition ofCategory (c : Category) (l : list Expense) : list Expense :=
  filter (fun e => Category_eqb (category e) c) l.

(** [a] is strictly older than [b]. *)
Definition older (h : Host) (a b : Expense) : Prop :=
  (timeOf h a <? timeOf h b)%float = true.

(** A draft with a non-blank label and the given amount and date. *)
Definition draft (amount date : string) : Form :=
  {| form_label := "Tea"; form_amount := amount;
     form_category := Food; form_date := date |}.

(** The sum that a tally holds for category [c], if any. *)
Definition tallyOf (c : Category) (acc : list (Category * number)) : option number :=
  match find (fun p => Category_eqb (fst p) c) acc with
  | Some p => Some (snd p)
  | None => None
  end.

(** The place of a number in the order of the numbers: numbers that are not
    NaN compare as these integers do (both zeros have place 0). *)
Definition placeOf (x : spec_float) : Z :=
  match x with
  | S754_finite s m e => cond_Zopp s (Zpos m * 2 ^ (e + 1074))
  | S754_infinity s => cond_Zopp s (2 ^ 2100)
  | _ => 0
  end.

(** The integers from [lo] on, [n] of them. *)
Definition rangeZ (lo : Z) (n : nat) : list Z :=
  map (fun i => lo + Z.of_nat i) (seq 0 n).

(** Two numbers are the same number (NaN is NaN, and +0 is not -0). *)
Definition sameNumber (x y : number) : bool :=
  match Prim2SF x, Prim2SF y with
  | S754_zero a, S754_zero b => Bool.eqb a b
  | S754_infinity a, S754_infinity b => Bool.eqb a b
  | S754_nan, S754_nan => true
  | S754_finite s m e, S754_finite s' m' e' =>
      Bool.eqb s s' && Pos.eqb m m' && Z.eqb e e'
  | _, _ => false
  end.

(** The local time zone is a whole number of minutes from UTC, less than
    a day from it. *)
Definition wholeMinuteZone (h : Host) : Prop :=
  Z.abs (LocalTZA h) < msPerDay /\ exists k, LocalTZA h = msPerMinute * k.

(** The date [YYYY-MM-DD] of day [d] of month [m] (1 to 12) of year [y]. *)
Definition isoDate (y m d : Z) : string :=
  (padStart 4 (digitsOfZ y) ++ "-" ++ padStart 2 (digitsOfZ m)
     ++ "-" ++ padStart 2 (digitsOfZ d))%string.

(** Four decimal digits. *)
Definition fourDigits (s : string) : option Z :=
  match s with
  | String a (String b (String c (String d EmptyString))) =>
      if isDigit a && isDigit b && isDigit c && isDigit d
      then Some (Z.of_N (digitsValue s)) else None
  | _ => None
  end.

(** The days of the month of the five sample records. *)
Definition sampleDays : list Z := [2; 3; 5; 7; 10].

(** The seed for month [m] (1 to 12) of year [y]: the five sample records,
    dated the 2nd, 3rd, 5th, 7th and 10th of the month. *)
Definition seedOf (randomUUID : option (nat -> string)) (y m : Z) : list Expense :=
  map (fun '(k, (l, c, a, _), d) =>
         let date := isoDate y m d in
         {| id := match randomUUID with
                  | Some uuid => uuid k
                  | None => (l ++ "-" ++ date)%string
                  end;
            label := l; category := c; amount := a; date := date |})
      (combine (combine (seq 0 5) sample) sampleDays).

(** The month before month [m] (1 to 12) of year [y]. *)
Definition previousMonthKey (y m : Z) : string :=
  if m =? 1 then monthKey (y - 1) 12 else monthKey y (m - 1).

(** The local year, month (1 to 12) and day of the month of a time. *)
Definition localYear (h : Host) (t : Z) : Z := YearFromTime (LocalTime h t).
Definition localMonth (h : Host) (t : Z) : Z := MonthFromTime (LocalTime h t) + 1.
Definition localDay (h : Host) (t : Z) : Z := DateFromTime (LocalTime h t).

(** ** Further sample inputs *)

(** The store of the scenario in the order of the page, the latest first. *)
Definition orderedStore : list Expense := rev sampleStore.

Definition orderedState : State :=
  {| expenses := orderedStore; form := sampleForm; activeMonthKey := "2024-1" |}.

(** A record without a date. *)
Definition undated : Expense :=
  {| id := "u"; label := "Cash"; category := Other; amount := 1%float; date := "" |}.

(** A month with records of four categories. *)
Definition fourCategories : list Expense :=
  [{| id := "a"; label := "Rent"; category := Housing; amount := 900%float;
      date := "2024-01-01" |};
   {| id := "b"; label := "Lunch"; category := Food; amount := 10%float;
      date := "2024-01-02" |};
   {| id := "c"; label := "Bus"; category := Transport; amount := 5%float;
      date := "2024-01-10" |};
   {| id := "d"; label := "Cinema"; category := Leisure; amount := 12%float;
      date := "2024-01-12" |}].

(** A record dated the first of February 2024. *)
Definition firstOfFebruary : Expense :=
  {| id := "f"; label := "Rent"; category := Housing; amount := 900%float;
     date := "2024-02-01" |}.

(** An empty store with a draft dated the first of February 2024, while
    March 2024 is the active month. *)
Definition firstOfMonthState : State :=
  {| expenses := []; form := draft "4.50" "2024-02-01";
     activeMonthKey := "2024-3" |}.

(** The decimal [s * 10^e10] and the binary [m * 2^e] are the same
    rational. *)
Definition sameValue (s : positive) (e10 : Z) (m : positive) (e : Z) : Prop :=
  Zpos s * 10 ^ Z.max e10 0 * 2 ^ Z.max (- e) 0
  = Zpos m * 2 ^ Z.max e 0 * 10 ^ Z.max (- e10) 0.

(** The text after a number: nothing, or a character that no number goes
    on with. *)
Definition endsNumber (rest : string) : bool :=
  match rest with
  | EmptyString => true
  | String c _ =>
      negb (isDigit c || Ascii.eqb c "." || Ascii.eqb c "e" || Ascii.eqb c "E")
  end.

(** The fraction and the exponent of a numeric literal, as they are
    written. *)
Definition fractionText (fp : string) : string :=
  match fp with
  | EmptyString => EmptyString
  | _ => String "." fp
  end.

Definition exponentText (ex : option Z) : string :=
  match ex with
  | None => EmptyString
  | Some c => String "e" ((if c <? 0 then "-" else "+") ++ digitsOfZ (Z.abs c))
  end.

(** A string of digits that is a JSON integer: not empty, and without a
    leading zero unless it is one digit. *)
Definition integerDigits (ip : string) : bool :=
  forallChars isDigit ip
  && match ip with
     | EmptyString => false
     | String "0" (String _ _) => false
     | _ => true
     end.

(** [o] is an object of the record [e]: its properties are those of the
    record, in some order. *)
Definition objectOf (e : Expense) (o : json) : Prop :=
  exists fields, o = JObject fields /\ Permutation fields (properties e).

(** A value that is a string, [null], or a finite number other than
    [-0]. *)
Definition scalar (v : json) : Prop :=
  match v with
  | JString _ | JNull => True
  | JNumber x => isFinite x = true /\ (is_zero x = true -> x = zero)
  | _ => False
  end.

(** An object with at least one property, whose values are scalars and
    whose names differ. *)
Definition flatObject (o : json) : Prop :=
  exists fields,
    o = JObject fields /\ fields <> []
    /\ Forall (fun kv => scalar (snd kv)) fields
    /\ NoDup (map fst fields).

(** The records of the scenario as objects: the first with its properties
    in the order of [handleSubmit], the others in the order of the seed. *)
Definition sampleObjects : list json :=
  [JObject [("id", JString "a"); ("label", JString "Lunch");
            ("amount", JNumber 10%float); ("category", JString "Food");
            ("date", JString "2024-01-02")];
   JObject [("label", JString "Dinner"); ("category", JString "Food");
            ("amount", JNumber 20%float); ("date", JString "2024-01-05");
            ("id", JString "b")];
   JObject [("label", JString "Bus"); ("category", JString "Transport");
            ("amount", JNumber 5%float); ("date", JString "2024-01-10");
            ("id", JString "c")]].

(** * Properties *)

(** ** Binary64 arithmetic

    The facts about numbers that the properties of the page rest on,
    derived from the specification of the primitive operations. *)

Lemma digits2_pos_bounds (m : positive) :
  2 ^ (Zpos (digits2_pos m) - 1) <= Zpos m < 2 ^ Zpos (digits2_pos m).
Proof.
  induction m as [m IH | m IH |]; simpl digits2_pos.
  - rewrite Pos2Z.inj_succ.
    replace (Z.succ (Zpos (digits2_pos m)) - 1) with (Zpos (digits2_pos m) - 1 + 1) by lia.
    rewrite Z.pow_add_r by lia. rewrite Z.pow_succ_r by lia. lia.
  - rewrite Pos2Z.inj_succ.
    replace (Z.succ (Zpos (digits2_pos m)) - 1) with (Zpos (digits2_pos m) - 1 + 1) by lia.
    rewrite Z.pow_add_r by lia. rewrite Z.pow_succ_r by lia. lia.
  - simpl. lia.
Qed.

Lemma iter_pos_nat {A} (f : A -> A) (p : positive) (x : A) :
  iter_pos f p x = Nat.iter (Pos.to_nat p) f x.
Proof.
  revert x. induction p as [p IH | p IH |]; intro x; simpl iter_pos.
  - rewrite !IH. rewrite Pos2Nat.inj_xI.
    replace (S (2 * Pos.to_nat p))%nat with (Pos.to_nat p + (Pos.to_nat p + 1))%nat by lia.
    rewrite !Nat.iter_add. simpl. reflexivity.
  - rewrite !IH. rewrite Pos2Nat.inj_xO.
    replace (2 * Pos.to_nat p)%nat with (Pos.to_nat p + Pos.to_nat p)%nat by lia.
    rewrite Nat.iter_add. reflexivity.
  - reflexivity.
Qed.

Lemma shr_1_m (r : shr_record) : 0 <= shr_m r -> shr_m (shr_1 r) = shr_m r / 2.
Proof.
  destruct r as [m r s]. simpl. intros Hm.
  destruct m as [| p | p]; try lia.
  - reflexivity.
  - destruct p; simpl.
    + apply Z.div_unique with (r := 1); lia.
    + apply Z.div_unique with (r := 0); lia.
    + reflexivity.
Qed.

Lemma shr_iter_m (n : nat) (r : shr_record) :
  0 <= shr_m r -> shr_m (Nat.iter n shr_1 r) = shr_m r / 2 ^ Z.of_nat n.
Proof.
  intros Hm. induction n as [| n IH].
  - simpl. now rewrite Z.div_1_r.
  - rewrite Nat2Z.inj_succ, Z.pow_succ_r by lia. simpl Nat.iter.
    rewrite shr_1_m.
    + rewrite IH. rewrite Z.div_div by lia. f_equal. lia.
    + rewrite IH. apply Z.div_pos; lia.
Qed.

Lemma shr_record_of_loc_m m l : shr_m (shr_record_of_loc m l) = m.
Proof. destruct l as [| []]; reflexivity. Qed.

(** Shifting to the canonical exponent keeps a positive mantissa positive when
    the exponent is not below [emin]. *)
Lemma shr_fexp_pos (m : positive) (e : Z) (l : location) :
  emin <= e ->
  exists m' e', shr_fexp prec emax (Zpos m) e l = (m', e')
                /\ 0 < shr_m m' /\ emin <= e'.
Proof.
  intros He. unfold shr_fexp, shr.
  set (n := fexp prec emax (Zdigits2 (Zpos m) + e) - e).
  assert (Hn : n < Zpos (digits2_pos m)).
  { unfold n, fexp, SpecFloat.emin, prec, emax in *. simpl Zdigits2. lia. }
  destruct n as [| p | p] eqn:En.
  - eexists _, _. split; [reflexivity|]. rewrite shr_record_of_loc_m. lia.
  - eexists _, _. split; [reflexivity|]. split.
    + rewrite iter_pos_nat, shr_iter_m; rewrite shr_record_of_loc_m; try lia.
      rewrite positive_nat_Z.
      pose proof (digits2_pos_bounds m) as [Hlo _].
      apply Z.div_str_pos. split; [lia|].
      eapply Z.le_trans; [|exact Hlo]. apply Z.pow_le_mono_r; lia.
    + unfold SpecFloat.emin in *. lia.
  - eexists _, _. split; [reflexivity|]. rewrite shr_record_of_loc_m. lia.
Qed.

Lemma round_nearest_even_pos m l : 0 < m -> 0 < round_nearest_even m l.
Proof.
  intros. destruct l as [| []]; simpl; try lia. destruct (Z.even m); lia.
Qed.

Lemma binary_round_aux_signed s (m : positive) e l :
  emin <= e -> signed s (binary_round_aux prec emax s (Zpos m) e l).
Proof.
  intros He. unfold binary_round_aux.
  destruct (shr_fexp_pos m e l He) as (m1 & e1 & -> & Hm1 & He1).
  pose proof (round_nearest_even_pos (shr_m m1) (loc_of_shr_record m1) Hm1) as Hr.
  destruct (round_nearest_even (shr_m m1) (loc_of_shr_record m1)) as [| q | q]; try lia.
  destruct (shr_fexp_pos q e1 loc_Exact He1) as (m2 & e2 & -> & Hm2 & He2).
  destruct (shr_m m2) as [| q2 | q2]; try lia.
  destruct (e2 <=? emax - prec); [left; eauto | right; reflexivity].
Qed.

Lemma binary_round_signed s (m : positive) e :
  emin <= e -> signed s (binary_round prec emax s m e).
Proof.
  intros He. unfold binary_round, shl_align.
  set (f := fexp prec emax (Zpos (digits2_pos m) + e)).
  assert (Hf : emin <= f) by (unfold f, fexp, SpecFloat.emin; lia).
  destruct (f - e) eqn:E; apply binary_round_aux_signed; lia.
Qed.

Lemma Pos_iter_xO (m d : positive) : Zpos (Pos.iter xO m d) = Zpos m * 2 ^ Zpos d.
Proof.
  induction d as [| d IH] using Pos.peano_ind.
  - simpl. lia.
  - rewrite Pos.iter_succ, Pos2Z.inj_succ, Z.pow_succ_r by lia.
    rewrite Pos2Z.inj_xO, IH. lia.
Qed.

Lemma shl_align_value (m : positive) (e ez : Z) :
  ez <= e -> Zpos (fst (shl_align m e ez)) = Zpos m * 2 ^ (e - ez).
Proof.
  intros H. unfold shl_align. destruct (ez - e) as [| d | d] eqn:E; simpl fst.
  - replace (e - ez) with 0 by lia. simpl. lia.
  - lia.
  - rewrite Pos_iter_xO. f_equal. f_equal. lia.
Qed.

Lemma bounded_inv (m : positive) (e : Z) :
  bounded prec emax m e = true ->
  Zpos (digits2_pos m) <= 53 /\ -1074 <= e /\
  (-1074 < e -> Zpos (digits2_pos m) = 53).
Proof.
  unfold bounded, canonical_mantissa, fexp, SpecFloat.emin, prec, emax.
  intros H. apply andb_prop in H. destruct H as [H _].
  apply Z.eqb_eq in H. lia.
Qed.

Lemma mantissa_lt_of_exponent_lt (m1 m2 : positive) (e1 e2 : Z) :
  bounded prec emax m1 e1 = true -> bounded prec emax m2 e2 = true ->
  e1 < e2 -> Zpos m1 < Zpos m2 * 2 ^ (e2 - e1).
Proof.
  intros H1 H2 Hlt.
  apply bounded_inv in H1. apply bounded_inv in H2.
  destruct H1 as (Hd1 & He1 & _). destruct H2 as (_ & _ & Hd2).
  pose proof (digits2_pos_bounds m1) as [_ Hhi].
  pose proof (digits2_pos_bounds m2) as [Hlo _].
  rewrite Hd2 in Hlo by lia.
  assert (Zpos m1 < 2 ^ 53).
  { eapply Z.lt_le_trans; [exact Hhi|]. apply Z.pow_le_mono_r; lia. }
  assert (2 ^ 1 <= 2 ^ (e2 - e1)) by (apply Z.pow_le_mono_r; lia).
  change (2 ^ (53 - 1)) with 4503599627370496 in Hlo.
  change (2 ^ 53) with 9007199254740992 in H.
  change (2 ^ 1) with 2 in H0. nia.
Qed.

Lemma SFcompare_aligned s1 m1 e1 s2 m2 e2 :
  bounded prec emax m1 e1 = true -> bounded prec emax m2 e2 = true ->
  SFcompare (S754_finite s1 m1 e1) (S754_finite s2 m2 e2)
  = Some (aligned s1 m1 e1 (Z.min e1 e2) ?= aligned s2 m2 e2 (Z.min e1 e2)).
Proof.
  intros H1 H2. unfold aligned.
  set (A := Zpos m1 * 2 ^ (e1 - Z.min e1 e2)).
  set (B := Zpos m2 * 2 ^ (e2 - Z.min e1 e2)).
  assert (P1 : 0 < A).
  { apply Z.mul_pos_pos; [lia|]. apply Z.pow_pos_nonneg; lia. }
  assert (P2 : 0 < B).
  { apply Z.mul_pos_pos; [lia|]. apply Z.pow_pos_nonneg; lia. }
  assert (Hcmp :
    match e1 ?= e2 with
    | Lt => Lt | Gt => Gt | Eq => Pos.compare_cont Eq m1 m2
    end = (A ?= B)).
  { unfold A, B. destruct (Z.compare_spec e1 e2) as [E | E | E].
    - subst e2. rewrite Z.min_id, Z.sub_diag. change (2 ^ 0) with 1.
      rewrite !Z.mul_1_r. reflexivity.
    - rewrite Z.min_l, Z.sub_diag by lia. symmetry. apply Z.compare_lt_iff.
      pose proof (mantissa_lt_of_exponent_lt m1 m2 e1 e2 H1 H2 E).
      change (2 ^ 0) with 1. lia.
    - rewrite Z.min_r, Z.sub_diag by lia. symmetry. apply Z.compare_gt_iff.
      pose proof (mantissa_lt_of_exponent_lt m2 m1 e2 e1 H2 H1 E).
      change (2 ^ 0) with 1. lia. }
  unfold SFcompare. f_equal.
  destruct s1, s2; unfold cond_Zopp.
  - rewrite Z.compare_opp, (Z.compare_antisym A B), <- Hcmp.
    destruct (e1 ?= e2); reflexivity.
  - symmetry. apply Z.compare_lt_iff. lia.
  - symmetry. apply Z.compare_gt_iff. lia.
  - exact Hcmp.
Qed.

Lemma Prim2SF_zero : Prim2SF 0%float = S754_zero false.
Proof. reflexivity. Qed.

Lemma binary_normalize_positive (D e : Z) :
  emin <= e ->
  SFltb (S754_zero false) (binary_normalize prec emax D e false) = (0 <? D).
Proof.
  intros He. destruct D as [| p | p]; simpl binary_normalize.
  - reflexivity.
  - destruct (binary_round_signed false p e He) as [(m & e' & ->) | ->]; reflexivity.
  - destruct (binary_round_signed true p e He) as [(m & e' & ->) | ->]; reflexivity.
Qed.

Lemma valid_finite x s m e :
  Prim2SF x = S754_finite s m e -> bounded prec emax m e = true.
Proof. intros H. pose proof (Prim2SF_valid x) as V. rewrite H in V. exact V. Qed.

(** The sign of a difference is the order of its operands: the comparator
    [y - x] is positive exactly when [x < y]. *)
Theorem sub_positive_iff_lt (x y : float) : (0 <? y - x)%float = (x <? y)%float.
Proof.
  rewrite !ltb_spec, sub_spec, Prim2SF_zero.
  destruct (Prim2SF x) as [sx | sx | | sx mx ex] eqn:Ex;
    destruct (Prim2SF y) as [sy | sy | | sy my ey] eqn:Ey;
    try reflexivity;
    try (destruct sx; reflexivity); try (destruct sy; reflexivity);
    try (destruct sx, sy; reflexivity).
  pose proof (valid_finite _ _ _ _ Ex) as Vx.
  pose proof (valid_finite _ _ _ _ Ey) as Vy.
  unfold SF64sub, SFsub. rewrite binary_normalize_positive.
  2:{ apply bounded_inv in Vx, Vy. unfold SpecFloat.emin, emax, prec. lia. }
  unfold SFltb. rewrite SFcompare_aligned by assumption.
  rewrite !shl_align_value by lia.
  unfold aligned. rewrite (Z.min_comm ex ey).
  set (A := cond_Zopp sy _). set (B := cond_Zopp sx _).
  destruct (Z.ltb_spec 0 (A - B)); destruct (Z.compare_spec B A); try reflexivity; lia.
Qed.

Lemma SFcompare_antisym (x y : spec_float) :
  SFcompare y x = option_map CompOpp (SFcompare x y).
Proof.
  destruct x as [sx | sx | | sx mx ex], y as [sy | sy | | sy my ey];
    try reflexivity;
    try (destruct sx; reflexivity); try (destruct sy; reflexivity);
    try (destruct sx, sy; reflexivity).
  unfold SFcompare, option_map. f_equal.
  assert (Hm : Pos.compare_cont Eq my mx = CompOpp (Pos.compare_cont Eq mx my)).
  { rewrite (Pos.compare_cont_antisym mx my Eq). reflexivity. }
  rewrite (Z.compare_antisym ex ey), Hm.
  destruct sx, sy; try reflexivity; destruct (ex ?= ey); simpl;
    try reflexivity; now rewrite CompOpp_involutive.
Qed.

Lemma SFcompare_defined (x y : spec_float) :
  x <> S754_nan -> y <> S754_nan -> exists c, SFcompare x y = Some c.
Proof.
  destruct x, y; intros Hx Hy; try congruence; simpl; eauto.
Qed.

Lemma SFleb_refl_not_nan (x : spec_float) : SFleb x x = true -> x <> S754_nan.
Proof. intros H ->. discriminate. Qed.

(** Two numbers that are not NaN are ordered one way or the other. *)
Lemma leb_of_not_ltb (x y : float) :
  (x <=? x)%float = true -> (y <=? y)%float = true ->
  (x <? y)%float = false -> (y <=? x)%float = true.
Proof.
  rewrite !leb_spec, ltb_spec. intros Hx Hy.
  apply SFleb_refl_not_nan in Hx, Hy.
  destruct (SFcompare_defined _ _ Hx Hy) as [c Hc].
  unfold SFleb, SFltb.
  rewrite (SFcompare_antisym (Prim2SF x) (Prim2SF y)), Hc.
  destruct c; simpl; congruence.
Qed.

Lemma leb_of_ltb (x y : float) : (x <? y)%float = true -> (x <=? y)%float = true.
Proof.
  rewrite leb_spec, ltb_spec. unfold SFleb, SFltb.
  destruct (SFcompare _ _) as [[]|]; try reflexivity; discriminate.
Qed.

(** A number that is at least 0 is not NaN. *)
Lemma leb_refl_of_nonneg (x : float) : (0 <=? x)%float = true -> (x <=? x)%float = true.
Proof.
  rewrite !leb_spec, Prim2SF_zero. unfold SFleb.
  pose proof (Prim2SF_valid x) as V.
  destruct (Prim2SF x) as [sx | sx | | sx mx ex]; try discriminate; try reflexivity.
  - destruct sx; reflexivity.
  - intros _. rewrite SFcompare_aligned by exact V.
    rewrite Z.compare_refl. reflexivity.
Qed.

(** The sum of two numbers that are at least 0 is at least 0 (it may be
    infinite, but it is not NaN). *)
Lemma add_nonneg (x y : float) :
  (0 <=? x)%float = true -> (0 <=? y)%float = true -> (0 <=? x + y)%float = true.
Proof.
  rewrite !leb_spec, add_spec, Prim2SF_zero.
  pose proof (Prim2SF_valid x) as Vx. pose proof (Prim2SF_valid y) as Vy.
  destruct (Prim2SF x) as [sx | sx | | sx mx ex];
    destruct (Prim2SF y) as [sy | sy | | sy my ey];
    try discriminate;
    try (destruct sx; try discriminate; reflexivity);
    try (destruct sy; try discriminate; reflexivity);
    try (destruct sx, sy; try discriminate; reflexivity).
  destruct sx, sy; try discriminate. intros _ _.
  unfold SF64add, SFadd, cond_Zopp.
  apply bounded_inv in Vx, Vy.
  rewrite !shl_align_value by lia.
  assert (P1 : 0 < Zpos mx * 2 ^ (ex - Z.min ex ey)).
  { apply Z.mul_pos_pos; [lia|]. apply Z.pow_pos_nonneg; lia. }
  assert (P2 : 0 < Zpos my * 2 ^ (ey - Z.min ex ey)).
  { apply Z.mul_pos_pos; [lia|]. apply Z.pow_pos_nonneg; lia. }
  destruct (Zpos mx * 2 ^ (ex - Z.min ex ey) + Zpos my * 2 ^ (ey - Z.min ex ey))
    as [| p | p] eqn:E; try lia.
  simpl binary_normalize.
  destruct (binary_round_signed false p (Z.min ex ey)) as [(m & e' & ->) | ->];
    [unfold SpecFloat.emin, emax, prec; lia | reflexivity | reflexivity].
Qed.

Lemma digits2_pos_unique (m : positive) (n : Z) :
  2 ^ (n - 1) <= Zpos m < 2 ^ n -> Zpos (digits2_pos m) = n.
Proof.
  intros [Hlo Hhi]. pose proof (digits2_pos_bounds m) as [Dlo Dhi].
  assert (0 < n).
  { destruct (Z.ltb_spec 0 n); [assumption|].
    destruct (Z.eq_dec n 0) as [-> | ]; [simpl in Hhi; lia|].
    rewrite Z.pow_neg_r in Hhi by lia. lia. }
  assert (Zpos (digits2_pos m) - 1 < n).
  { apply (Z.pow_lt_mono_r_iff 2); lia. }
  assert (n - 1 < Zpos (digits2_pos m)).
  { apply (Z.pow_lt_mono_r_iff 2); lia. }
  lia.
Qed.

(** The normal form of an integer below 2^53: its digits moved up to fill
    the 53 bits of the mantissa. *)
Lemma binary_round_integer (s : bool) (m : positive) :
  Zpos m < 2 ^ 53 ->
  exists mz k, Zpos mz = Zpos m * 2 ^ k /\ 0 <= k /\
             binary_round prec emax s m 0 = S754_finite s mz (- k) /\
             bounded prec emax mz (- k) = true.
Proof.
  intros Hm. set (k := 53 - Zpos (digits2_pos m)).
  pose proof (digits2_pos_bounds m) as [Dlo Dhi].
  assert (Hd : Zpos (digits2_pos m) <= 53).
  { destruct (Z.leb_spec (Zpos (digits2_pos m)) 53); [assumption|].
    assert (2 ^ 53 <= 2 ^ (Zpos (digits2_pos m) - 1)) by (apply Z.pow_le_mono_r; lia).
    lia. }
  set (mz := fst (shl_align m 0 (- k))).
  assert (Hmz : Zpos mz = Zpos m * 2 ^ k).
  { unfold mz. rewrite shl_align_value by lia. f_equal. f_equal. lia. }
  assert (Hdz : Zpos (digits2_pos mz) = 53).
  { apply digits2_pos_unique. rewrite Hmz. split.
    - replace (53 - 1) with (Zpos (digits2_pos m) - 1 + k) by (unfold k; lia).
      rewrite Z.pow_add_r by lia. apply Z.mul_le_mono_nonneg_r; [apply Z.pow_nonneg|]; lia.
    - replace (2 ^ 53) with (2 ^ (Zpos (digits2_pos m) + k))
        by (f_equal; unfold k; lia).
      rewrite Z.pow_add_r by lia. apply Z.mul_lt_mono_pos_r; [apply Z.pow_pos_nonneg|]; lia. }
  exists mz, k. split; [exact Hmz|]. split; [unfold k; lia|].
  assert (Hal : shl_align m 0 (fexp prec emax (Zpos (digits2_pos m) + 0)) = (mz, - k)).
  { unfold mz, fexp, SpecFloat.emin, prec, emax.
    replace (Z.max (Zpos (digits2_pos m) + 0 - 53) (3 - 1024 - 53)) with (- k)
      by (unfold k; lia).
    unfold shl_align. destruct (- k - 0) eqn:E; simpl fst; try reflexivity.
    - f_equal. lia.
    - unfold k in *; lia. }
  assert (Hsh : forall q, Zpos (digits2_pos q) = 53 ->
            shr_fexp prec emax (Zpos q) (- k) loc_Exact
            = ({| shr_m := Zpos q; shr_r := false; shr_s := false |}, - k)).
  { intros q Hq. unfold shr_fexp, shr, fexp, SpecFloat.emin, prec, emax.
    simpl Zdigits2. rewrite Hq.
    replace (Z.max (53 + - k - 53) (3 - 1024 - 53) - - k) with 0 by (unfold k; lia).
    reflexivity. }
  split.
  - unfold binary_round. rewrite Hal. unfold binary_round_aux.
    rewrite (Hsh mz Hdz). simpl round_nearest_even. rewrite (Hsh mz Hdz).
    simpl shr_m. unfold emax, prec.
    destruct (Z.leb_spec (- k) (1024 - 53)); [reflexivity | unfold k in *; lia].
  - unfold bounded, canonical_mantissa, fexp, SpecFloat.emin, prec, emax.
    rewrite Hdz. apply andb_true_intro. split.
    + apply Z.eqb_eq. unfold k; lia.
    + apply Z.leb_le. unfold k; lia.
Qed.

(** An integer of magnitude below 2^53 is a Number, and truncating that
    Number gives the integer back. *)
Theorem truncate_ofZ (z : Z) : Z.abs z < 2 ^ 53 -> truncate (ofZ z) = Some z.
Proof.
  intros Hz. unfold ofZ, binary64, truncate.
  assert (Hshift : forall mz k p, Zpos mz = Zpos p * 2 ^ k -> 0 <= k ->
            match - k with
            | Zneg j => Z.shiftr (Zpos mz) (Zpos j)
            | _ => Z.shiftl (Zpos mz) (- k)
            end = Zpos p).
  { intros mz k p Hmz Hk. destruct k as [| j | j]; try lia.
    - simpl Z.opp. cbv iota. rewrite Z.shiftl_0_r. simpl in Hmz. lia.
    - simpl Z.opp. cbv iota. rewrite Z.shiftr_div_pow2 by lia.
      rewrite Hmz. apply Z.div_mul. apply Z.pow_nonzero; lia. }
  destruct z as [| p | p]; [reflexivity | |]; simpl binary_normalize.
  - destruct (binary_round_integer false p Hz) as (mz & k & Hmz & Hk & -> & Hb).
    rewrite Prim2SF_SF2Prim by exact Hb.
    rewrite (Hshift mz k p Hmz Hk). reflexivity.
  - destruct (binary_round_integer true p Hz) as (mz & k & Hmz & Hk & -> & Hb).
    rewrite Prim2SF_SF2Prim by exact Hb.
    rewrite (Hshift mz k p Hmz Hk). reflexivity.
Qed.

(** ** Digits *)

Lemma forallChars_app p (a b : string) :
  forallChars p (a ++ b) = forallChars p a && forallChars p b.
Proof.
  induction a as [| c a IH]; simpl; [reflexivity|].
  rewrite IH. apply andb_assoc.
Qed.

Lemma forallChars_impl (p q : ascii -> bool) (s : string) :
  (forall c, p c = true -> q c = true) ->
  forallChars p s = true -> forallChars q s = true.
Proof.
  intros Hpq. induction s as [| c s IH]; simpl; [reflexivity|].
  intros H. apply andb_prop in H. destruct H as [Hc Hs].
  rewrite (Hpq c Hc), (IH Hs). reflexivity.
Qed.

Lemma string_of_uint_digits (d : Decimal.uint) :
  forallChars isDigit (NilEmpty.string_of_uint d) = true.
Proof. induction d; simpl; auto. Qed.

Lemma digitsOfN_digits (n : N) : forallChars isDigit (digitsOfN n) = true.
Proof.
  unfold digitsOfN, NilZero.string_of_uint.
  destruct (N.to_uint n) eqn:E; try reflexivity;
    match goal with |- forallChars _ (NilEmpty.string_of_uint ?d) = _ =>
      apply (string_of_uint_digits d) end.
Qed.

Lemma digitsOfN_not_empty (n : N) : digitsOfN n <> "".
Proof.
  unfold digitsOfN, NilZero.string_of_uint.
  destruct (N.to_uint n); discriminate.
Qed.

(** The value of a decimal numeral read from the left into [acc]. *)
Lemma digitsValueFrom_positive (d : Decimal.uint) (acc : positive) :
  digitsValueFrom (Npos acc) (NilEmpty.string_of_uint d)
  = Npos (Pos.of_uint_acc d acc).
Proof.
  revert acc. induction d; intro acc;
    cbn [NilEmpty.string_of_uint digitsValueFrom Pos.of_uint_acc];
    try reflexivity;
    match goal with
    | |- context [digitVal ?c] =>
        let v := eval vm_compute in (digitVal c) in change (digitVal c) with v
    end;
    rewrite <- IHd; f_equal; lia.
Qed.

Lemma digitsValueFrom_zero (d : Decimal.uint) :
  digitsValueFrom 0 (NilEmpty.string_of_uint d) = Pos.of_uint d.
Proof.
  induction d;
    cbn [NilEmpty.string_of_uint digitsValueFrom Pos.of_uint];
    try reflexivity;
    match goal with
    | |- context [digitVal ?c] =>
        let v := eval vm_compute in (digitVal c) in change (digitVal c) with v
    end;
    try exact IHd;
    match goal with
    | |- digitsValueFrom ?a _ = _ =>
        let v := eval vm_compute in a in change a with v
    end;
    apply digitsValueFrom_positive.
Qed.

Theorem digitsValue_digitsOfN (n : N) : digitsValue (digitsOfN n) = n.
Proof.
  unfold digitsValue, digitsOfN, NilZero.string_of_uint.
  rewrite <- (DecimalN.Unsigned.of_to n) at 2.
  destruct (N.to_uint n) eqn:E; try reflexivity;
    match goal with |- digitsValueFrom 0 (NilEmpty.string_of_uint ?d) = _ =>
      apply (digitsValueFrom_zero d) end.
Qed.

(** ** Reading numerals *)

Lemma isDigit_cases (c : ascii) :
  isDigit c = true ->
  c = "0"%char \/ c = "1"%char \/ c = "2"%char \/ c = "3"%char \/ c = "4"%char
  \/ c = "5"%char \/ c = "6"%char \/ c = "7"%char \/ c = "8"%char \/ c = "9"%char.
Proof.
  destruct c as [[] [] [] [] [] [] [] []]; vm_compute; intros H;
    try discriminate H; tauto.
Qed.

Lemma trim_id (s : string) : forallChars notWhiteSpace s = true -> trim s = s.
Proof.
  intros H. unfold trim.
  assert (Hs : trimStart s = s).
  { destruct s as [| c s]; [reflexivity|]. simpl in *.
    apply andb_prop in H. destruct H as [Hc _].
    unfold notWhiteSpace in Hc. apply negb_true_iff in Hc. now rewrite Hc. }
  rewrite Hs. clear Hs. induction s as [| c s IH]; [reflexivity|].
  simpl in *. apply andb_prop in H. destruct H as [Hc Hs].
  rewrite (IH Hs). unfold notWhiteSpace in Hc. apply negb_true_iff in Hc.
  destruct s; [now rewrite Hc | reflexivity].
Qed.

Lemma digit_notWhiteSpace (c : ascii) : isDigit c = true -> notWhiteSpace c = true.
Proof.
  intros H. apply isDigit_cases in H.
  repeat (destruct H as [-> | H]); try subst c; reflexivity.
Qed.

Lemma spanDigits_app (a r : string) :
  forallChars isDigit a = true ->
  match r with String c _ => isDigit c = false | EmptyString => True end ->
  spanDigits (a ++ r) = (a, r).
Proof.
  intros Ha Hr. induction a as [| c a IH]; simpl.
  - destruct r as [| c r]; [reflexivity|]. simpl. now rewrite Hr.
  - simpl in Ha. apply andb_prop in Ha. destruct Ha as [Hc Ha].
    rewrite Hc, (IH Ha). reflexivity.
Qed.

Lemma append_empty (s : string) : (s ++ "")%string = s.
Proof. induction s; simpl; congruence. Qed.

Lemma spanDigits_all (a : string) :
  forallChars isDigit a = true -> spanDigits a = (a, "").
Proof.
  intros H. rewrite <- (append_empty a) at 1. now apply spanDigits_app.
Qed.

Lemma ofDecimal_integer (n : N) : ofDecimal false n 0 = ofZ (Z.of_N n).
Proof.
  destruct n as [| p]; [reflexivity|]. unfold ofDecimal, ofZ.
  change (400 <? 0) with false. cbv iota.
  pose proof (Z.log2_nonneg (Zpos p)).
  destruct (Z.ltb_spec (0 + Z.log2 (Zpos p)) (-401)); [lia|].
  change (0 <=? 0) with true. cbv iota.
  unfold cond_Zopp. change (10 ^ 0) with 1. rewrite Z.mul_1_r. reflexivity.
Qed.

(** A string of digits reads as the number of its value. *)
Theorem StringToNumber_digits (s : string) :
  forallChars isDigit s = true -> s <> "" ->
  StringToNumber s = ofZ (Z.of_N (digitsValue s)).
Proof.
  intros Hd Hne. unfold StringToNumber.
  rewrite trim_id by (eapply forallChars_impl; [apply digit_notWhiteSpace | exact Hd]).
  destruct s as [| c s]; [congruence|].
  assert (Hnd : nonDecimalIntegerLiteral (String c s) = None).
  { unfold nonDecimalIntegerLiteral.
    destruct s as [| c2 [| c3 s]].
    - destruct c as [[] [] [] [] [] [] [] []]; reflexivity.
    - destruct c as [[] [] [] [] [] [] [] []]; reflexivity.
    - simpl in Hd. apply andb_prop in Hd. destruct Hd as [_ Hd].
      apply andb_prop in Hd. destruct Hd as [H2 _].
      apply isDigit_cases in H2.
      destruct c as [[] [] [] [] [] [] [] []]; try reflexivity;
        repeat (destruct H2 as [-> | H2]); try subst c2; reflexivity. }
  rewrite Hnd.
  assert (Hdec : strDecimalLiteral (String c s)
                 = Some (ofDecimal false (digitsValue (String c s)) 0)).
  { assert (Hc : isDigit c = true) by (simpl in Hd; now apply andb_prop in Hd).
    unfold strDecimalLiteral.
    assert (Hsign : match String c s with
                    | String "-" t => (true, t)
                    | String "+" t => (false, t)
                    | _ => (false, String c s)
                    end = (false, String c s)).
    { apply isDigit_cases in Hc.
      repeat (destruct Hc as [-> | Hc]); try subst c; reflexivity. }
    rewrite Hsign.
    assert (Hinf : (String c s =? "Infinity")%string = false).
    { apply isDigit_cases in Hc.
      repeat (destruct Hc as [-> | Hc]); try subst c; reflexivity. }
    rewrite Hinf. unfold unsignedDecimal.
    rewrite (spanDigits_all _ Hd). cbv iota beta.
    simpl exponentPart. cbv iota. rewrite append_empty. reflexivity. }
  rewrite Hdec. apply ofDecimal_integer.
Qed.

Corollary StringToNumber_digitsOfN (n : N) :
  StringToNumber (digitsOfN n) = ofZ (Z.of_N n).
Proof.
  rewrite StringToNumber_digits, digitsValue_digitsOfN;
    [reflexivity | apply digitsOfN_digits | apply digitsOfN_not_empty].
Qed.

(** ** Splitting a month key *)

Lemma split_no_separator (sep : ascii) (s : string) :
  forallChars (fun c => negb (Ascii.eqb c sep)) s = true -> split sep s = [s].
Proof.
  induction s as [| c s IH]; simpl; [reflexivity|].
  intros H. apply andb_prop in H. destruct H as [Hc Hs].
  apply negb_true_iff in Hc. rewrite Hc, (IH Hs). reflexivity.
Qed.

Lemma split_at_separator (sep : ascii) (a b : string) :
  forallChars (fun c => negb (Ascii.eqb c sep)) a = true ->
  split sep (a ++ String sep b) = a :: split sep b.
Proof.
  induction a as [| c a IH]; simpl.
  - intros _. now rewrite Ascii.eqb_refl.
  - intros H. apply andb_prop in H. destruct H as [Hc Ha].
    apply negb_true_iff in Hc. rewrite Hc, (IH Ha). reflexivity.
Qed.

Lemma digit_not_dash (c : ascii) : isDigit c = true -> negb (Ascii.eqb c "-") = true.
Proof.
  intros H. apply isDigit_cases in H.
  repeat (destruct H as [-> | H]); try subst c; reflexivity.
Qed.

Lemma keyParts_monthKey (y m : Z) :
  0 <= y -> 0 <= m -> keyParts (monthKey y m) = (ofZ y, ofZ m).
Proof.
  intros Hy Hm. unfold keyParts, monthKey.
  assert (Hdy : digitsOfZ y = digitsOfN (Z.to_N y)) by (destruct y; [reflexivity.. | lia]).
  assert (Hdm : digitsOfZ m = digitsOfN (Z.to_N m)) by (destruct m; [reflexivity.. | lia]).
  rewrite Hdy, Hdm. simpl append.
  rewrite split_at_separator, split_no_separator
    by (eapply forallChars_impl; [apply digit_not_dash | apply digitsOfN_digits]).
  simpl map. rewrite !StringToNumber_digitsOfN, !Z2N.id by assumption.
  reflexivity.
Qed.

(** ** Calendar *)

Lemma isLeapYear_spec (y : Z) :
  isLeapYear y = true <-> (y mod 4 = 0 /\ (y mod 100 <> 0 \/ y mod 400 = 0)).
Proof.
  unfold isLeapYear.
  rewrite andb_true_iff, orb_true_iff, negb_true_iff, !Z.eqb_eq, Z.eqb_neq.
  reflexivity.
Qed.

Lemma DayFromYear_succ (y : Z) : DayFromYear (y + 1) = DayFromYear y + DaysInYear y.
Proof.
  unfold DayFromYear, DaysInYear.
  destruct (isLeapYear y) eqn:L.
  - apply isLeapYear_spec in L. Z.div_mod_to_equations. lia.
  - assert (N : ~ (y mod 4 = 0 /\ (y mod 100 <> 0 \/ y mod 400 = 0))).
    { rewrite <- isLeapYear_spec. congruence. }
    Z.div_mod_to_equations. lia.
Qed.

Lemma DaysInYear_bounds (y : Z) : 365 <= DaysInYear y <= 366.
Proof. unfold DaysInYear. destruct (isLeapYear y); lia. Qed.

Lemma YearFromDay_correct (y d : Z) :
  DayFromYear y <= d < DayFromYear (y + 1) -> YearFromDay d = y.
Proof.
  intros Hd. unfold YearFromDay.
  set (e := 1970 + d * 400 / 146097).
  assert (He : y - 1 <= e <= y + 1).
  { unfold e. unfold DayFromYear in Hd. Z.div_mod_to_equations. lia. }
  pose proof (DayFromYear_succ (y - 1)) as S0.
  pose proof (DayFromYear_succ y) as S1.
  pose proof (DayFromYear_succ (y + 1)) as S2.
  pose proof (DaysInYear_bounds (y - 1)). pose proof (DaysInYear_bounds y).
  pose proof (DaysInYear_bounds (y + 1)).
  replace (y - 1 + 1) with y in S0 by lia.
  assert (C : e = y - 1 \/ e = y \/ e = y + 1) by lia.
  destruct C as [-> | [-> | ->]].
  - replace (y - 1 + 1) with y by lia.
    destruct (Z.leb_spec (DayFromYear y) d); [lia|lia].
  - destruct (Z.leb_spec (DayFromYear (y + 1)) d); [lia|].
    destruct (Z.ltb_spec d (DayFromYear y)); lia.
  - destruct (Z.leb_spec (DayFromYear (y + 1 + 1)) d); [lia|].
    destruct (Z.ltb_spec d (DayFromYear (y + 1))); lia.
Qed.

Lemma Day_MakeDate (D : Z) : Day (MakeDate D 0) = D.
Proof.
  unfold Day, MakeDate, msPerDay. rewrite Z.add_0_r. apply Z.div_mul. lia.
Qed.

Ltac split_ltb :=
  repeat match goal with
         | |- context [?a <? ?b] => destruct (Z.ltb_spec a b)
         end.

Ltac month_cases m :=
  let C := fresh "C" in
  assert (C : m = 0 \/ m = 1 \/ m = 2 \/ m = 3 \/ m = 4 \/ m = 5 \/ m = 6
              \/ m = 7 \/ m = 8 \/ m = 9 \/ m = 10 \/ m = 11) by lia;
  repeat (destruct C as [-> | C]); try subst m.

(** The fields of midnight of day [d] of month [m] (0 to 11) of year [y]. *)
Lemma fields_of_MakeDay (y m d : Z) :
  0 <= m <= 11 -> 1 <= d <= daysInMonth y (m + 1) ->
  YearFromTime (MakeDate (MakeDay y m d) 0) = y
  /\ MonthFromTime (MakeDate (MakeDay y m d) 0) = m
  /\ DateFromTime (MakeDate (MakeDay y m d) 0) = d.
Proof.
  intros Hm Hd.
  set (L := if isLeapYear y then 1 else 0).
  assert (HL : DaysInYear y = 365 + L /\ 0 <= L <= 1
               /\ daysInMonth y 2 = 28 + L).
  { unfold DaysInYear, daysInMonth, L. destruct (isLeapYear y); lia. }
  destruct HL as (HL1 & HL2 & HL3).
  assert (HD : MakeDay y m d = DayFromYear y + (monthStart L m + d - 1)).
  { unfold MakeDay. rewrite Z.div_small, Z.mod_small by lia.
    rewrite Z.add_0_r. fold L. lia. }
  assert (Hk : 0 <= monthStart L m + d - 1 < DaysInYear y
               /\ MonthFromTime (MakeDate (MakeDay y m d) 0) = m
               /\ DateFromTime (MakeDate (MakeDay y m d) 0) = d
               \/ 0 <= monthStart L m + d - 1 < DaysInYear y
                  /\ YearFromTime (MakeDate (MakeDay y m d) 0) <> y).
  { assert (Hk : 0 <= monthStart L m + d - 1 < DaysInYear y).
    { rewrite HL1. month_cases m;
        match type of Hd with
        | context [daysInMonth y ?k] =>
            let v := eval vm_compute in k in change k with v in Hd
        end;
        try rewrite HL3 in Hd; unfold monthStart, daysInMonth in *; lia. }
    destruct (Z.eq_dec (YearFromTime (MakeDate (MakeDay y m d) 0)) y) as [HY | HY];
      [left | right; tauto].
    split; [exact Hk|].
    unfold DateFromTime, MonthFromTime, InLeapYear, DayWithinYear.
    rewrite HY, Day_MakeDate, HD. fold L.
    replace (DayFromYear y + (monthStart L m + d - 1) - DayFromYear y)
      with (monthStart L m + d - 1) by lia.
    rewrite HL1 in Hk.
    month_cases m;
      match type of Hd with
      | context [daysInMonth y ?k] =>
          let v := eval vm_compute in k in change k with v in Hd
      end;
      try rewrite HL3 in Hd; unfold monthStart, daysInMonth in *;
      split_ltb; lia. }
  assert (HY : YearFromTime (MakeDate (MakeDay y m d) 0) = y).
  { unfold YearFromTime. rewrite Day_MakeDate, HD.
    apply YearFromDay_correct. rewrite DayFromYear_succ.
    destruct Hk as [(Hk & _) | (Hk & _)]; lia. }
  destruct Hk as [(_ & Hk) | (_ & Hk)]; [tauto | contradiction].
Qed.

(** Day 0 of the month after month [m] (1 to 12) is the last day of month
    [m]. *)
Lemma MakeDay_day_zero (y m : Z) :
  1 <= m <= 12 -> MakeDay y m 0 = MakeDay y (m - 1) (daysInMonth y m).
Proof.
  intros Hm.
  destruct (Z.eq_dec m 12) as [-> | Hne].
  - unfold MakeDay. change (12 / 12) with 1. change (12 mod 12) with 0.
    change ((12 - 1) / 12) with 0. change ((12 - 1) mod 12) with 11.
    rewrite !Z.add_0_r, DayFromYear_succ. unfold DaysInYear, monthStart, daysInMonth.
    destruct (isLeapYear y), (isLeapYear (y + 1)); lia.
  - unfold MakeDay. rewrite !Z.div_small, !Z.mod_small by lia.
    rewrite !Z.add_0_r.
    set (L := if isLeapYear y then 1 else 0).
    assert (HL3 : daysInMonth y 2 = 28 + L)
      by (unfold daysInMonth, L; destruct (isLeapYear y); lia).
    assert (C : m = 1 \/ m = 2 \/ m = 3 \/ m = 4 \/ m = 5 \/ m = 6
                \/ m = 7 \/ m = 8 \/ m = 9 \/ m = 10 \/ m = 11) by lia.
    repeat (destruct C as [-> | C]); try subst m;
      match goal with
      | |- context [monthStart L (?k - 1)] =>
          let v := eval vm_compute in (k - 1) in change (k - 1) with v
      end;
      try rewrite HL3; unfold monthStart, daysInMonth; lia.
Qed.

Lemma daysInMonth_cases (y m : Z) :
  daysInMonth y m = 28 \/ daysInMonth y m = 29 \/ daysInMonth y m = 30
  \/ daysInMonth y m = 31.
Proof.
  unfold daysInMonth.
  destruct m as [| p | p]; auto.
  repeat match goal with
         | q : positive |- _ => destruct q as [q | q |]; auto
         end.
  destruct (isLeapYear y); auto.
Qed.

Lemma isLeapYear_two_digit (y : Z) :
  1 <= y <= 99 -> isLeapYear (1900 + y) = isLeapYear y.
Proof.
  intros Hy. apply eq_true_iff_eq. rewrite !isLeapYear_spec.
  Z.div_mod_to_equations. lia.
Qed.

Lemma DayFromYear_range (y : Z) :
  1 <= y <= 275760 -> -719162 <= DayFromYear y <= 99999744.
Proof.
  intros Hy. unfold DayFromYear. Z.div_mod_to_equations. lia.
Qed.

(** ** Fixed notation *)

Lemma hundredths_nearest (m : positive) (e : Z) :
  nearestHundredth m e (hundredths m e) /\ 0 <= hundredths m e.
Proof.
  unfold nearestHundredth, hundredths.
  destruct e as [| p | p].
  - change (Z.max 0 0) with 0. change (Z.max (- 0) 0) with 0.
    change (2 ^ 0) with 1. lia.
  - rewrite (Z.max_l (Zpos p) 0), (Z.max_r (- Zpos p) 0) by lia.
    change (2 ^ 0) with 1.
    assert (0 < 2 ^ Zpos p) by (apply Z.pow_pos_nonneg; lia). nia.
  - rewrite (Z.max_r (Zneg p) 0), (Z.max_l (- Zneg p) 0) by lia.
    change (2 ^ 0) with 1. change (- Zneg p) with (Zpos p).
    assert (P : 0 < 2 ^ Zpos p) by (apply Z.pow_pos_nonneg; lia).
    rewrite Z.pow_add_r by lia. change (2 ^ 1) with 2.
    set (q := 2 ^ Zpos p) in *.
    pose proof (Z.div_mod (Zpos m * 200 + q) (q * 2) ltac:(lia)) as Hdm.
    pose proof (Z.mod_pos_bound (Zpos m * 200 + q) (q * 2) ltac:(lia)) as Hmod.
    set (n := (Zpos m * 200 + q) / (q * 2)) in *.
    assert (0 <= n) by (apply Z.div_pos; lia).
    split; [|assumption]. nia.
Qed.

Lemma substring_split (s : string) (k : nat) :
  (k <= String.length s)%nat ->
  (substring 0 k s ++ substring k (String.length s - k) s)%string = s.
Proof.
  revert k. induction s as [| c s IH]; intros k Hk.
  - simpl in Hk. assert (k = 0%nat) by lia. subst. reflexivity.
  - destruct k as [| k].
    + simpl. f_equal. clear. induction s as [| d s IH]; simpl; congruence.
    + simpl in *. f_equal. apply IH. lia.
Qed.

Lemma length_append (a b : string) :
  String.length (a ++ b) = (String.length a + String.length b)%nat.
Proof. induction a; simpl; auto. Qed.

Lemma length_substring (s : string) (n k : nat) :
  (n + k <= String.length s)%nat -> String.length (substring n k s) = k.
Proof.
  revert n k. induction s as [| c s IH]; intros n k H; simpl in H.
  - assert (n = 0%nat /\ k = 0%nat) as [-> ->] by lia. reflexivity.
  - destruct n as [| n]; destruct k as [| k]; simpl; auto.
    + f_equal. apply IH. simpl. lia.
    + apply IH. lia.
    + apply IH. lia.
Qed.

Lemma length_zeros (n : nat) : String.length (zeros n) = n.
Proof. induction n; simpl; auto. Qed.

Lemma zeros_digits (n : nat) : forallChars isDigit (zeros n) = true.
Proof. induction n; simpl; auto. Qed.

Lemma digitsValueFrom_zeros (n : nat) (s : string) :
  digitsValueFrom 0 (zeros n ++ s) = digitsValueFrom 0 s.
Proof. induction n; simpl; auto. Qed.

(** The text of [toFixed(2)] for a count [n] of hundredths reads back as
    the decimal [n / 100]. *)
Lemma fixed_text_reads_back (n : N) :
  let ds := padStart 3 (digitsOfN n) in
  let k := (String.length ds - 2)%nat in
  StringToNumber (substring 0 k ds ++ "." ++ substring k 2 ds)
  = ofDecimal false n (-2).
Proof.
  intros ds k.
  assert (Hlen : (3 <= String.length ds)%nat).
  { unfold ds, padStart. rewrite length_append, length_zeros. lia. }
  assert (Hds : forallChars isDigit ds = true).
  { unfold ds, padStart. rewrite forallChars_app, zeros_digits, digitsOfN_digits.
    reflexivity. }
  assert (Hval : digitsValue ds = n).
  { unfold ds, padStart, digitsValue. rewrite digitsValueFrom_zeros.
    apply digitsValue_digitsOfN. }
  set (ip := substring 0 k ds). set (fp := substring k 2 ds).
  assert (Hsplit : (ip ++ fp)%string = ds).
  { unfold ip, fp. replace 2%nat with (String.length ds - k)%nat by (unfold k; lia).
    apply substring_split. unfold k. lia. }
  assert (Hfl : String.length fp = 2%nat).
  { unfold fp. apply length_substring. unfold k. lia. }
  assert (Hil : String.length ip = k).
  { unfold ip. apply length_substring. unfold k. lia. }
  assert (Hd2 : forallChars isDigit ip = true /\ forallChars isDigit fp = true).
  { rewrite <- Hsplit, forallChars_app in Hds. now apply andb_prop in Hds. }
  destruct Hd2 as [Hip Hfp].
  destruct ip as [| c ip'] eqn:Eip; [simpl in Hil; unfold k in Hil; lia|].
  assert (Hc : isDigit c = true) by (simpl in Hip; now apply andb_prop in Hip).
  unfold StringToNumber.
  rewrite trim_id.
  2:{ rewrite forallChars_app. apply andb_true_intro. split.
      - eapply forallChars_impl; [apply digit_notWhiteSpace | exact Hip].
      - simpl. eapply forallChars_impl; [apply digit_notWhiteSpace | exact Hfp]. }
  cbn [append].
  assert (Hnd : nonDecimalIntegerLiteral (String c (ip' ++ String "." fp)) = None).
  { unfold nonDecimalIntegerLiteral.
    destruct ip' as [| c2 ip''].
    - cbn [append]. destruct fp as [| f1 fp']; [discriminate Hfl|].
      destruct c as [[] [] [] [] [] [] [] []]; reflexivity.
    - cbn [append].
      assert (H2 : isDigit c2 = true).
      { simpl in Hip. apply andb_prop in Hip. destruct Hip as [_ Hip].
        now apply andb_prop in Hip. }
      apply isDigit_cases in H2.
      destruct (ip'' ++ String "." fp)%string;
        destruct c as [[] [] [] [] [] [] [] []]; try reflexivity;
        repeat (destruct H2 as [-> | H2]); try subst c2; reflexivity. }
  rewrite Hnd.
  unfold strDecimalLiteral.
  assert (Hsign : match String c (ip' ++ String "." fp) with
                  | String "-" t => (true, t)
                  | String "+" t => (false, t)
                  | _ => (false, String c (ip' ++ String "." fp))
                  end = (false, String c (ip' ++ String "." fp))).
  { pose proof (isDigit_cases c Hc) as C.
    repeat (destruct C as [-> | C]); try subst c; reflexivity. }
  rewrite Hsign.
  assert (Hinf : (String c (ip' ++ String "." fp) =? "Infinity")%string = false).
  { pose proof (isDigit_cases c Hc) as C.
    repeat (destruct C as [-> | C]); try subst c; reflexivity. }
  rewrite Hinf. unfold unsignedDecimal.
  change (String c (ip' ++ String "." fp)) with (String c ip' ++ String "." fp)%string.
  rewrite spanDigits_app by (assumption || reflexivity).
  cbv iota beta. rewrite (spanDigits_all fp Hfp). cbv iota beta.
  simpl exponentPart. cbv iota. rewrite Hsplit, Hval, Hfl. reflexivity.
Qed.

Lemma leb_false_of_ltb (x y : float) : (x <? y)%float = true -> (y <=? x)%float = false.
Proof.
  rewrite ltb_spec, leb_spec. unfold SFltb, SFleb.
  rewrite (SFcompare_antisym (Prim2SF x) (Prim2SF y)).
  destruct (SFcompare (Prim2SF x) (Prim2SF y)) as [[]|]; simpl; congruence.
Qed.

Lemma digitsOfZ_nonneg (z : Z) : 0 <= z -> digitsOfZ z = digitsOfN (Z.to_N z).
Proof. destruct z; [reflexivity | reflexivity | lia]. Qed.

(** Below 10^21, [Number(x.toFixed(2))] is the Number of the decimal with
    two fractional digits nearest to [x]. *)
Theorem toFixed2_reads_back (x : number) :
  (0 <? x)%float = true -> (x <? 1e21)%float = true ->
  exists m e, Prim2SF x = S754_finite false m e
              /\ nearestHundredth m e (hundredths m e)
              /\ StringToNumber (toFixed2 x)
                 = ofDecimal false (Z.to_N (hundredths m e)) (-2).
Proof.
  intros Hpos Hlt.
  assert (Hle : (1e21 <=? x)%float = false) by now apply leb_false_of_ltb.
  rewrite ltb_spec, Prim2SF_zero in Hpos. rewrite ltb_spec in Hlt.
  destruct (Prim2SF x) as [s | s | | s m e] eqn:Ex.
  - destruct s; discriminate Hpos.
  - destruct s; [discriminate Hpos|].
    change (Prim2SF 1e21) with (S754_finite false 7629394531250000 17) in Hlt.
    discriminate Hlt.
  - discriminate Hpos.
  - destruct s; [discriminate Hpos|].
    exists m, e. destruct (hundredths_nearest m e) as [Hn Hn0].
    split; [reflexivity|]. split; [exact Hn|].
    assert (Habs : abs x = x).
    { apply Prim2SF_inj. rewrite abs_spec, Ex. reflexivity. }
    unfold toFixed2. rewrite Ex, Habs, Hle.
    rewrite digitsOfZ_nonneg by exact Hn0.
    cbn [append]. apply fixed_text_reads_back.
Qed.

(** ** Sorting *)

Section SortFacts.
Context {A : Type}.
Variable comparefn : A -> A -> number.

Lemma insertSorted_perm (x : A) (l : list A) :
  Permutation (insertSorted comparefn x l) (x :: l).
Proof.
  induction l as [| y l IH]; simpl.
  - apply Permutation_refl.
  - destruct (sortsAfter comparefn x y).
    + eapply Permutation_trans; [apply perm_skip, IH | apply perm_swap].
    + apply Permutation_refl.
Qed.

Lemma sort_perm (l : list A) : Permutation (sort comparefn l) l.
Proof.
  induction l as [| x l IH]; simpl.
  - constructor.
  - eapply Permutation_trans; [apply insertSorted_perm | now apply perm_skip].
Qed.

Lemma sort_length (l : list A) : List.length (sort comparefn l) = List.length l.
Proof. apply Permutation_length, sort_perm. Qed.

Lemma sort_In (x : A) (l : list A) : In x (sort comparefn l) <-> In x l.
Proof.
  split; apply Permutation_in; [apply sort_perm | apply Permutation_sym, sort_perm].
Qed.

Variable R : A -> A -> Prop.

Lemma insertSorted_HdRel (a x : A) (l : list A) :
  R a x -> HdRel R a l -> HdRel R a (insertSorted comparefn x l).
Proof.
  intros Hax Hl. destruct l as [| y l]; simpl.
  - now constructor.
  - destruct (sortsAfter comparefn x y); constructor;
      [now inversion Hl | assumption].
Qed.

Lemma insertSorted_Sorted (x : A) (l : list A) :
  (forall y, In y l -> sortsAfter comparefn x y = false -> R x y) ->
  (forall y, In y l -> sortsAfter comparefn x y = true -> R y x) ->
  Sorted R l -> Sorted R (insertSorted comparefn x l).
Proof.
  intros Hbefore Hafter Hs. induction l as [| y l IH]; simpl.
  - repeat constructor.
  - destruct (sortsAfter comparefn x y) eqn:E.
    + inversion Hs as [| ? ? Hs' Hhd]; subst. constructor.
      * apply IH; [ | | assumption]; intros; [apply Hbefore | apply Hafter];
          simpl; auto.
      * apply insertSorted_HdRel; [apply Hafter; simpl; auto | assumption].
    + constructor; [assumption|]. constructor. apply Hbefore; simpl; auto.
Qed.

(** The result of [sort] is in order for any relation that the comparator
    decides on the elements of the list. *)
Lemma sort_Sorted (l : list A) :
  (forall x y, In x l -> In y l -> sortsAfter comparefn x y = false -> R x y) ->
  (forall x y, In x l -> In y l -> sortsAfter comparefn x y = true -> R y x) ->
  Sorted R (sort comparefn l).
Proof.
  induction l as [| x l IH]; intros Hbefore Hafter; simpl.
  - constructor.
  - apply insertSorted_Sorted.
    + intros y Hy. apply Hbefore; simpl; auto. right. now apply sort_In.
    + intros y Hy. apply Hafter; simpl; auto. right. now apply sort_In.
    + apply IH; intros; [apply Hbefore | apply Hafter]; simpl; auto.
Qed.

Lemma firstn_Sorted (n : nat) (l : list A) : Sorted R l -> Sorted R (firstn n l).
Proof.
  revert l. induction n as [| n IH]; intros l Hs; simpl.
  - constructor.
  - destruct l as [| x l]; [constructor|].
    inversion Hs as [| ? ? Hs' Hhd]; subst. constructor; [now apply IH|].
    destruct l as [| y l]; destruct n; simpl; constructor. now inversion Hhd.
Qed.
End SortFacts.

Lemma ltb_asym (x y : float) : (x <? y)%float = true -> (y <? x)%float = false.
Proof.
  rewrite !ltb_spec. unfold SFltb.
  rewrite (SFcompare_antisym (Prim2SF x) (Prim2SF y)).
  destruct (SFcompare (Prim2SF x) (Prim2SF y)) as [[]|]; simpl; congruence.
Qed.

(** ** Create *)

Section CreateFacts.
Variable h : Host.

Lemma accepted_iff (f : Form) :
  accepted f = true <->
  truthy_string (trim (form_label f)) = true
  /\ truthy (StringToNumber (form_amount f)) = true.
Proof.
  unfold accepted, truthy.
  destruct (truthy_string (trim (form_label f))); simpl; [|intuition discriminate].
  destruct (is_nan (StringToNumber (form_amount f))); simpl; [intuition discriminate|].
  destruct (is_zero (StringToNumber (form_amount f))); simpl; intuition discriminate.
Qed.

Lemma handleSubmit_accepted (newId : string) (st : State) :
  accepted (form st) = true ->
  handleSubmit h newId st =
  {| expenses := sort (byDateDescending h) (newExpenseOf newId (form st) :: expenses st);
     form := {| form_label := ""; form_amount := "";
                form_category := form_category (form st);
                form_date := form_date (form st) |};
     activeMonthKey := monthKeyOf h (newExpenseOf newId (form st)) |}.
Proof.
  unfold accepted, handleSubmit. intros H.
  apply negb_true_iff in H. rewrite H. reflexivity.
Qed.

Lemma handleSubmit_rejected (newId : string) (st : State) :
  accepted (form st) = false -> handleSubmit h newId st = st.
Proof.
  unfold accepted, handleSubmit. intros H.
  apply negb_false_iff in H. rewrite H. reflexivity.
Qed.
End CreateFacts.

(** ** Create: what is rejected *)

Lemma accepted_false_iff (f : Form) :
  accepted f = false <->
  trim (form_label f) = ""
  \/ is_nan (StringToNumber (form_amount f)) = true
  \/ is_zero (StringToNumber (form_amount f)) = true.
Proof.
  unfold accepted, truthy.
  destruct (trim (form_label f)) as [| c s]; simpl; [intuition|].
  destruct (is_nan (StringToNumber (form_amount f))); simpl; [intuition|].
  destruct (is_zero (StringToNumber (form_amount f))); simpl;
    intuition discriminate.
Qed.

(** A draft whose label is blank, or whose amount reads as NaN or as zero,
    is turned down by the handler itself. *)
Lemma handleSubmit_turned_down (h : Host) (newId : string) (st : State) :
  trim (form_label (form st)) = ""
  \/ is_nan (StringToNumber (form_amount (form st))) = true
  \/ is_zero (StringToNumber (form_amount (form st))) = true ->
  handleSubmit h newId st = st.
Proof. intros H. apply accepted_false_iff in H. now apply handleSubmit_rejected. Qed.

Lemma truthy_of_positive (x : number) : (0 <? x)%float = true -> truthy x = true.
Proof.
  unfold truthy, is_nan, is_zero. rewrite ltb_spec, !eqb_spec, Prim2SF_zero.
  change (Prim2SF zero) with (S754_zero false).
  pose proof (Prim2SF_valid x) as V.
  destruct (Prim2SF x) as [s | s | | s m e]; try discriminate.
  - destruct s; [discriminate | reflexivity].
  - destruct s; [discriminate|]. intros _. unfold SFeqb.
    rewrite SFcompare_aligned by exact V. rewrite Z.compare_refl. reflexivity.
Qed.

Lemma truthy_of_negative (x : number) : (x <? 0)%float = true -> truthy x = true.
Proof.
  unfold truthy, is_nan, is_zero. rewrite ltb_spec, !eqb_spec, Prim2SF_zero.
  change (Prim2SF zero) with (S754_zero false).
  pose proof (Prim2SF_valid x) as V.
  destruct (Prim2SF x) as [s | s | | s m e]; try discriminate.
  - destruct s; [reflexivity | discriminate].
  - destruct s; [|discriminate]. intros _. unfold SFeqb.
    rewrite SFcompare_aligned by exact V. rewrite Z.compare_refl. reflexivity.
Qed.

(** The guard of [handleSubmit] lets every negative amount through. *)
Lemma negative_amount_is_accepted (f : Form) :
  truthy_string (trim (form_label f)) = true ->
  (StringToNumber (form_amount f) <? 0)%float = true ->
  accepted f = true.
Proof.
  intros Hl Ha. apply accepted_iff. split; [assumption|].
  now apply truthy_of_negative.
Qed.

(** The handler alone, called on a draft with the amount "-5", stores a
    record of amount -5. Through the form it is not called on such a
    draft: the amount control has [min="0"]. *)
Lemma handleSubmit_alone_stores_negative_amount :
  accepted negativeDraft = true
  /\ expenses (handleSubmit utcHost "id-1"
                 {| expenses := []; form := negativeDraft;
                    activeMonthKey := "2024-3" |})
     = [{| id := "id-1"; label := "Refund"; category := Other;
           amount := (-5)%float; date := "2024-03-05" |}].
Proof. split; vm_compute; reflexivity. Qed.




(** A draft that the controls and the handler accept, and whose state
    renders, is stored and written to the mirror. *)
Lemma submit_accepted (b : Controls) (h : Host)
    (randomUUID : option (nat -> string)) (now : Z) (s : State * Storage) :
  formValid b (form (fst s)) = true ->
  accepted (form (fst s)) = true ->
  renders h now (handleSubmit h (newExpenseId randomUUID now) (fst s)) = true ->
  submit b h randomUUID now s
  = Shown (handleSubmit h (newExpenseId randomUUID now) (fst s))
          (persistEffect
             (expenses (handleSubmit h (newExpenseId randomUUID now) (fst s)))).
Proof. intros Hv Ha Hr. unfold submit. rewrite Hv, Ha, Hr. reflexivity. Qed.

(** The draft of the scenario goes through the controls and the handler,
    and the new list is written to the mirror. *)
Lemma submit_sample :
  formValid laxControls (form sampleState) = true
  /\ submit laxControls utcHost None sampleClock
            (sampleState, persistEffect sampleStore)
     = Shown (handleSubmit utcHost "1709164800000" sampleState)
             (persistEffect
                (expenses (handleSubmit utcHost "1709164800000" sampleState))).
Proof. split; vm_compute; reflexivity. Qed.

(** When the render after an accepted draft throws, the page is gone and
    the mirror keeps the old list. *)
Lemma submit_crashes (b : Controls) (h : Host)
    (randomUUID : option (nat -> string)) (now : Z) (s : State * Storage) :
  formValid b (form (fst s)) = true ->
  accepted (form (fst s)) = true ->
  renders h now (handleSubmit h (newExpenseId randomUUID now) (fst s)) = false ->
  submit b h randomUUID now s = Crashed (snd s).
Proof. intros Hv Ha Hr. unfold submit. rewrite Hv, Ha, Hr. reflexivity. Qed.

(** ** Create: what is stored *)



(** C9. After an accepted draft the whole store is in order of date, the
    latest first: no record is older than the record after it. *)
Theorem create_keeps_store_sorted (h : Host) (newId : string) (st : State) :
  accepted (form st) = true ->
  Sorted (notOlder h) (expenses (handleSubmit h newId st)).
Proof.
  intros Hacc. rewrite handleSubmit_accepted by exact Hacc. cbn [expenses].
  apply sort_Sorted; intros x y _ _;
    unfold sortsAfter, byDateDescending, notOlder, timeOf;
    rewrite sub_positive_iff_lt.
  - trivial.
  - apply ltb_asym.
Qed.

Lemma create_keeps_store_sorted_witness :
  accepted (form sampleState) = true
  /\ Sorted (notOlder utcHost) (expenses (handleSubmit utcHost "id-9" sampleState)).
Proof.
  split; [reflexivity|].
  apply (create_keeps_store_sorted utcHost "id-9" sampleState). reflexivity.
Defined.

(** An accepted draft sets the active month to the key the page derives
    from the date of the new record, whatever month was active before, and
    the new record is among the records shown for that month. *)
Lemma create_shows_new_record (h : Host) (newId : string) (st : State) :
  accepted (form st) = true ->
  activeMonthKey (handleSubmit h newId st)
  = monthKeyOf h (newExpenseOf newId (form st))
  /\ In (newExpenseOf newId (form st))
        (monthExpenses h (expenses (handleSubmit h newId st))
                       (activeMonthKey (handleSubmit h newId st))).
Proof.
  intros Hacc. rewrite handleSubmit_accepted by exact Hacc.
  cbn [expenses activeMonthKey].
  split; [reflexivity|]. unfold monthExpenses. apply filter_In. split.
  - apply sort_In. simpl. auto.
  - apply String.eqb_refl.
Qed.

(** C10, at the failing input: five hours west of UTC the draft dated
    2024-02-01 is accepted and the active month becomes "2024-1", January
    2024, where the claim has the year and month of the date of the new
    record, February 2024. The record is listed under January and shown
    as Jan 31; February is not among the months. At UTC the same draft
    sets the active month to "2024-2". *)
Theorem create_sets_previous_month_west_of_utc :
  accepted (form firstOfMonthState) = true
  /\ date (newExpenseOf "id-9" (form firstOfMonthState)) = "2024-02-01"
  /\ activeMonthKey (handleSubmit westHost "id-9" firstOfMonthState) = "2024-1"
  /\ months westHost (expenses (handleSubmit westHost "id-9" firstOfMonthState))
     = Some [("2024-1", "January 2024")]
  /\ map (shownDate westHost)
         (monthExpenses westHost
            (expenses (handleSubmit westHost "id-9" firstOfMonthState)) "2024-1")
     = [Some "Jan 31"]
  /\ activeMonthKey (handleSubmit utcHost "id-9" firstOfMonthState) = "2024-2".
Proof. repeat split; vm_compute; reflexivity. Qed.

(** West of UTC the month key of a date is that of the day before: the
    date is read as midnight UTC and its fields in local time. *)
Lemma month_key_west_of_utc :
  getMonthKey westHost (DateOfString westHost "2024-02-01") = "2024-1"
  /\ getMonthKey utcHost (DateOfString utcHost "2024-02-01") = "2024-2".
Proof. split; vm_compute; reflexivity. Qed.

(** ** Delete *)

Lemma filter_absent {A} (f : A -> bool) (l : list A) :
  (forall x, In x l -> f x = true) -> filter f l = l.
Proof.
  induction l as [| x l IH]; intros H; simpl; [reflexivity|].
  rewrite (H x) by (simpl; auto). f_equal. apply IH. intros; apply H; simpl; auto.
Qed.

(** C5. In a store whose ids are unique, deleting an id that is not there
    leaves the state as it is, and deleting an id that is there removes the
    one record with that id and nothing else, so the store is one record
    shorter. *)
Theorem delete_removes_exactly (id0 : string) (st : State) :
  NoDup (map id (expenses st)) ->
  (~ In id0 (map id (expenses st)) -> handleDelete id0 st = st)
  /\ (In id0 (map id (expenses st)) ->
      exists before e after,
        expenses st = (before ++ e :: after)%list /\ id e = id0
        /\ expenses (handleDelete id0 st) = (before ++ after)%list
        /\ S (List.length (expenses (handleDelete id0 st)))
           = List.length (expenses st)).
Proof.
  intros Hnd. destruct st as [es f k]. unfold handleDelete. simpl in *. split.
  - intros Hni. f_equal. apply filter_absent. intros x Hx.
    apply negb_true_iff, String.eqb_neq. intros E. apply Hni.
    rewrite <- E. now apply in_map.
  - intros Hin. apply in_map_iff in Hin. destruct Hin as (e & He & Hin).
    apply in_split in Hin. destruct Hin as (before & after & ->).
    exists before, e, after. split; [reflexivity|]. split; [assumption|].
    rewrite map_app in Hnd. simpl in Hnd.
    assert (Hb : forall x, In x before -> negb (id x =? id0)%string = true).
    { intros x Hx. apply negb_true_iff, String.eqb_neq. intros E.
      apply NoDup_remove_2 in Hnd. apply Hnd. apply in_or_app. left.
      rewrite He, <- E. now apply in_map. }
    assert (Ha : forall x, In x after -> negb (id x =? id0)%string = true).
    { intros x Hx. apply negb_true_iff, String.eqb_neq. intros E.
      apply NoDup_remove_2 in Hnd. apply Hnd. apply in_or_app. right.
      rewrite He, <- E. now apply in_map. }
    rewrite filter_app. simpl. rewrite He, String.eqb_refl. simpl.
    rewrite !filter_absent by assumption. split; [reflexivity|].
    rewrite !length_app. simpl. lia.
Qed.

Lemma delete_removes_exactly_witness :
  NoDup (map id (expenses sampleState))
  /\ handleDelete "z" sampleState = sampleState
  /\ List.length (expenses (handleDelete "b" sampleState)) = 2%nat.
Proof.
  assert (Hnd : NoDup (map id (expenses sampleState))).
  { repeat constructor; simpl; intuition discriminate. }
  destruct (delete_removes_exactly "z" sampleState Hnd) as [Habsent _].
  split; [exact Hnd|]. split.
  - apply Habsent. simpl. intuition discriminate.
  - reflexivity.
Defined.

(** Deleting twice is deleting once. *)
Lemma handleDelete_idempotent (id0 : string) (st : State) :
  handleDelete id0 (handleDelete id0 st) = handleDelete id0 st.
Proof.
  unfold handleDelete. simpl. f_equal.
  induction (expenses st) as [| e l IH]; simpl; [reflexivity|].
  destruct (negb (id e =? id0)%string) eqn:E; simpl; [rewrite E|]; congruence.
Qed.

(** Deleting writes the resulting store to the mirror. *)
Lemma remove_persists (id0 : string) (s : State * Storage) :
  snd (remove id0 s) = persistEffect (expenses (fst (remove id0 s))).
Proof. reflexivity. Qed.

(** ** Top categories *)

Lemma tallyAdd_nonNegative (c : Category) (a : number) (acc : list (Category * number)) :
  nonNegative a -> Forall (fun p => nonNegative (snd p)) acc ->
  Forall (fun p => nonNegative (snd p)) (tallyAdd c a acc).
Proof.
  intros Ha Hacc. induction Hacc as [| [k v] acc Hv Hacc IH]; simpl.
  - constructor; [|constructor]. simpl.
    apply add_nonneg; [reflexivity | exact Ha].
  - destruct (Category_eqb k c); constructor; simpl in *; try assumption.
    apply add_nonneg; assumption.
Qed.

Lemma tally_nonNegative (l : list Expense) :
  Forall (fun e => nonNegative (amount e)) l ->
  Forall (fun p => nonNegative (snd p)) (tally l).
Proof.
  unfold tally. intros H.
  assert (G : forall acc, Forall (fun p => nonNegative (snd p)) acc ->
              Forall (fun p => nonNegative (snd p))
                (fold_left (fun acc e => tallyAdd (category e) (amount e) acc) l acc)).
  { induction H as [| e l He _ IH]; intros acc Hacc; simpl; [assumption|].
    apply IH. now apply tallyAdd_nonNegative. }
  apply G. constructor.
Qed.

(** C4. For expenses whose amounts are at least 0 (so none is NaN),
    [topCategories] returns at most three entries, each sum at least the
    sum after it, and no entry for the empty list. *)
Theorem topCategories_sorted (l : list Expense) :
  Forall (fun e => nonNegative (amount e)) l ->
  (List.length (topCategories l) <= 3)%nat
  /\ Sorted sumAtLeast (topCategories l)
  /\ (l = [] -> topCategories l = []).
Proof.
  intros H. unfold topCategories, slice0. split; [apply firstn_le_length|]. split.
  - apply firstn_Sorted.
    pose proof (tally_nonNegative l H) as Hn. rewrite Forall_forall in Hn.
    apply sort_Sorted; intros x y Hx Hy; unfold sortsAfter, sumAtLeast;
      rewrite sub_positive_iff_lt; intros Hc.
    + apply leb_of_not_ltb; [apply leb_refl_of_nonneg, Hn, Hx
                            | apply leb_refl_of_nonneg, Hn, Hy | exact Hc].
    + now apply leb_of_ltb.
  - intros ->. reflexivity.
Qed.

Lemma topCategories_sorted_witness :
  Forall (fun e => nonNegative (amount e)) sampleStore
  /\ (List.length (topCategories sampleStore) <= 3)%nat
  /\ Sorted sumAtLeast (topCategories sampleStore)
  /\ topCategories sampleStore = [(Food, 30%float); (Transport, 5%float)].
Proof.
  assert (H : Forall (fun e => nonNegative (amount e)) sampleStore)
    by (repeat constructor).
  destruct (topCategories_sorted sampleStore H) as (Hlen & Hsorted & _).
  split; [exact H|]. split; [exact Hlen|]. split; [exact Hsorted|]. reflexivity.
Defined.

(** Without the condition on the amounts the order can fail: a sum that is
    NaN is not at least the sum after it. *)
Lemma topCategories_with_NaN :
  topCategories
    [{| id := "a"; label := "x"; category := Food; amount := nan; date := "" |};
     {| id := "b"; label := "y"; category := Other; amount := 5%float; date := "" |}]
  = [(Food, nan); (Other, 5%float)]
  /\ (5 <=? nan)%float = false.
Proof. split; reflexivity. Qed.

(** The scenario of the specification: the total of the sample store is 35. *)
Lemma monthTotal_sample :
  monthTotal (monthExpenses utcHost sampleStore "2024-1") = 35%float
  /\ monthTotal [] = 0%float.
Proof. split; reflexivity. Qed.

(** ** The weekly average *)

Lemma MakeDay_range (y m d : Z) :
  0 <= m <= 11 -> 1 <= d <= daysInMonth y (m + 1) ->
  DayFromYear y <= MakeDay y m d < DayFromYear (y + 1).
Proof.
  intros Hm Hd.
  set (L := if isLeapYear y then 1 else 0).
  assert (HL : DaysInYear y = 365 + L /\ 0 <= L <= 1 /\ daysInMonth y 2 = 28 + L).
  { unfold DaysInYear, daysInMonth, L. destruct (isLeapYear y); lia. }
  destruct HL as (HL1 & HL2 & HL3).
  rewrite DayFromYear_succ, HL1.
  unfold MakeDay. rewrite Z.div_small, Z.mod_small by lia.
  rewrite Z.add_0_r. fold L.
  month_cases m;
    match type of Hd with
    | context [daysInMonth y ?k] =>
        let v := eval vm_compute in k in change k with v in Hd
    end;
    try rewrite HL3 in Hd; unfold monthStart, daysInMonth in *; lia.
Qed.

Lemma truncate_month (m : Z) :
  1 <= m <= 12 ->
  truncate (ofZ m) = Some m /\ truncate (ofZ m - 1)%float = Some (m - 1).
Proof.
  intros Hm.
  assert (C : m = 1 \/ m = 2 \/ m = 3 \/ m = 4 \/ m = 5 \/ m = 6
              \/ m = 7 \/ m = 8 \/ m = 9 \/ m = 10 \/ m = 11 \/ m = 12) by lia.
  repeat (destruct C as [-> | C]); try subst m; split; reflexivity.
Qed.

Section WeeklyAverage.
Variable h : Host.
Hypothesis zone : Z.abs (LocalTZA h) <= msPerDay.

Lemma TimeClip_midnight (y m d : Z) :
  1 <= y <= 275759 -> 0 <= m <= 11 -> 1 <= d <= daysInMonth y (m + 1) ->
  TimeClip (UTC h (MakeDate (MakeDay y m d) 0))
  = Some (MakeDate (MakeDay y m d) 0 - LocalTZA h).
Proof.
  intros Hy Hm Hd. unfold TimeClip, UTC.
  pose proof (MakeDay_range y m d Hm Hd) as HD.
  pose proof (DayFromYear_range y ltac:(lia)).
  pose proof (DayFromYear_range (y + 1) ltac:(lia)).
  unfold MakeDate, msPerDay in *.
  destruct (Z.leb_spec (Z.abs (MakeDay y m d * 86400000 + 0 - LocalTZA h))
                       8640000000000000); [reflexivity | lia].
Qed.

Lemma getDate_midnight (y m d : Z) :
  1 <= y <= 275759 -> 0 <= m <= 11 -> 1 <= d <= daysInMonth y (m + 1) ->
  getDate h (TimeClip (UTC h (MakeDate (MakeDay y m d) 0))) = ofZ d.
Proof.
  intros Hy Hm Hd. rewrite TimeClip_midnight by assumption.
  unfold getDate, LocalTime.
  replace (MakeDate (MakeDay y m d) 0 - LocalTZA h + LocalTZA h)
    with (MakeDate (MakeDay y m d) 0) by lia.
  destruct (fields_of_MakeDay y m d Hm Hd) as (_ & _ & ->). reflexivity.
Qed.

Lemma weeks_of_month (d : Z) :
  d = 28 \/ d = 29 \/ d = 30 \/ d = 31 ->
  (ofZ d - ofZ 1 + 1)%float = ofZ d /\ (0 <? ofZ d / 7)%float = true.
Proof. intros [-> | [-> | [-> | ->]]]; split; reflexivity. Qed.

Lemma weeklyAverage_valid_month (y m : Z) (total : number) :
  1 <= y <= 275759 -> 1 <= m <= 12 ->
  weeklyAverage h (monthKey y m) total
  = (total / (ofZ (daysInMonth y m) / 7))%float.
Proof.
  intros Hy Hm. unfold weeklyAverage.
  rewrite keyParts_monthKey by lia.
  destruct (truncate_month m Hm) as [Tm Tm1].
  assert (Ty : truncate (ofZ y) = Some y).
  { apply truncate_ofZ. change (2 ^ 53) with 9007199254740992. lia. }
  unfold DateOfFields. rewrite Tm, Tm1, Ty.
  change (truncate 1%float) with (Some 1). change (truncate 0%float) with (Some 0).
  set (yr := if (0 <=? y) && (y <=? 99) then 1900 + y else y).
  assert (Hyr : 1 <= yr <= 275759 /\ daysInMonth yr m = daysInMonth y m).
  { unfold yr. destruct (Z.leb_spec 0 y); [|lia].
    destruct (Z.leb_spec y 99); cbn [andb]; [| split; [lia | reflexivity]].
    split; [lia|]. unfold daysInMonth.
    rewrite isLeapYear_two_digit by lia. reflexivity. }
  destruct Hyr as [Hyr Hdim].
  rewrite (MakeDay_day_zero yr m Hm).
  assert (Hlast : 1 <= daysInMonth yr m <= daysInMonth yr (m - 1 + 1)).
  { replace (m - 1 + 1) with m by lia.
    destruct (daysInMonth_cases yr m) as [E | [E | [E | E]]]; lia. }
  assert (Hfirst : 1 <= 1 <= daysInMonth yr (m - 1 + 1)) by lia.
  rewrite !getDate_midnight by (assumption || lia).
  rewrite Hdim.
  destruct (weeks_of_month (daysInMonth y m) (daysInMonth_cases y m)) as [-> ->].
  reflexivity.
Qed.

(** C6. For the key of month [m] of year [y], the number of weeks (the
    days of the month divided by 7) is positive and the weekly average is
    the total divided by it; a total of 140 in a month of 28 days gives
    35. The branch that returns the total unchanged is taken when the
    number of weeks is not positive, which no month of the calendar
    reaches. *)
Theorem weeklyAverage_of_month (y m : Z) (total : number) :
  1 <= y <= 275759 -> 1 <= m <= 12 ->
  (0 <? ofZ (daysInMonth y m) / 7)%float = true
  /\ weeklyAverage h (monthKey y m) total
     = (total / (ofZ (daysInMonth y m) / 7))%float
  /\ (daysInMonth y m = 28 -> weeklyAverage h (monthKey y m) 140%float = 35%float).
Proof.
  intros Hy Hm. split; [|split].
  - apply weeks_of_month, daysInMonth_cases.
  - now apply weeklyAverage_valid_month.
  - intros H28. rewrite weeklyAverage_valid_month, H28 by assumption.
    reflexivity.
Qed.
End WeeklyAverage.

Lemma weeklyAverage_of_month_witness :
  Z.abs (LocalTZA westHost) <= msPerDay
  /\ 1 <= 2023 <= 275759 /\ 1 <= 2 <= 12
  /\ daysInMonth 2023 2 = 28
  /\ weeklyAverage westHost "2023-2" 140%float = 35%float.
Proof.
  assert (Hz : Z.abs (LocalTZA westHost) <= msPerDay) by (vm_compute; discriminate).
  assert (Hy : 1 <= 2023 <= 275759) by lia.
  assert (Hm : 1 <= 2 <= 12) by lia.
  destruct (weeklyAverage_of_month westHost Hz 2023 2 140%float Hy Hm)
    as (_ & _ & H28).
  split; [exact Hz|]. split; [exact Hy|]. split; [exact Hm|].
  split; [reflexivity|]. apply H28. reflexivity.
Defined.

(** When the key does not name a month the number of weeks is NaN and the
    total is returned unchanged. *)
Lemma weeklyAverage_without_month (h : Host) :
  weeklyAverage h "NaN-NaN" 140%float = 140%float.
Proof. reflexivity. Qed.

(** ** The mirror *)

Lemma is_zero_cases (x : number) :
  is_zero x = true -> x = 0%float \/ x = (-0)%float.
Proof.
  unfold is_zero. rewrite eqb_spec.
  change (Prim2SF zero) with (S754_zero false). intros H.
  rewrite <- (SF2Prim_Prim2SF x).
  destruct (Prim2SF x) as [s | s | | s m e]; try discriminate.
  - destruct s; [right | left]; reflexivity.
  - destruct s; discriminate.
  - destruct s; discriminate.
Qed.

Lemma jsonOfNumber_storable (x : number) : storable x -> jsonOfNumber x = JNumber x.
Proof.
  intros [Hf Hz]. unfold jsonOfNumber. rewrite Hf.
  destruct (is_zero x) eqn:E; [|reflexivity].
  destruct (is_zero_cases x E) as [-> | ->]; [reflexivity | congruence].
Qed.

Lemma categoryOfName_categoryName (c : Category) :
  categoryOfName (categoryName c) = Some c.
Proof. destruct c; reflexivity. Qed.

Lemma expenseOfJson_jsonOfExpense (e : Expense) :
  storable (amount e) -> expenseOfJson (jsonOfExpense e) = Some e.
Proof.
  intros H. destruct e as [i l c a d]. unfold jsonOfExpense. cbn [id label category amount date] in *.
  rewrite (jsonOfNumber_storable a H). unfold expenseOfJson.
  cbn [field String.eqb Ascii.eqb Bool.eqb List.length].
  rewrite categoryOfName_categoryName. reflexivity.
Qed.

Lemma traverse_map_inverse {A B} (f : B -> option A) (g : A -> B) (l : list A) :
  Forall (fun x => f (g x) = Some x) l -> traverse f (map g l) = Some l.
Proof.
  induction 1 as [| x l Hx _ IH]; simpl; [reflexivity|].
  now rewrite Hx, IH.
Qed.

Lemma classify_stringified (store : list Expense) :
  Forall (fun e => storable (amount e)) store ->
  classify (JArray (map jsonOfExpense store)) = ParsedExpenses store.
Proof.
  intros H. unfold classify. rewrite traverse_map_inverse; [reflexivity|].
  eapply Forall_impl; [|exact H]. intros e. apply expenseOfJson_jsonOfExpense.
Qed.

(** C2, as amended. When the stored value is absent ([null] or the empty
    string) the load effect sets the list to the output of
    [createSeedExpenses] and writes that output to the mirror at once (or
    throws as [createSeedExpenses] does). When the stored value is present
    but is not JSON, the load effect changes nothing: the list stays empty
    and no seed is written; the persist effect then writes the empty
    list. *)
Theorem load_reseeds_only_when_absent (h : Host)
    (randomUUID : option (nat -> string)) (now : Z) :
  let seeded :=
    match createSeedExpenses h randomUUID now with
    | Some seed => Returns {| setExpenses := Some seed; setActiveMonthKey := None;
                              storageAfterLoad := persistEffect seed |}
    | None => Throws
    end in
  loadEffect h randomUUID now None = seeded
  /\ loadEffect h randomUUID now (Some EmptyText) = seeded
  /\ mount h randomUUID now None
     = match initialState h now, createSeedExpenses h randomUUID now with
       | Some st0, Some seed =>
           Returns ({| expenses := seed; form := form st0;
                       activeMonthKey := activeMonthKey st0 |}, persistEffect seed)
       | _, _ => Throws
       end
  /\ loadEffect h randomUUID now (Some Malformed)
     = Returns {| setExpenses := None; setActiveMonthKey := None;
                  storageAfterLoad := Some Malformed |}
  /\ mount h randomUUID now (Some Malformed)
     = match initialState h now with
       | Some st0 => Returns (st0, persistEffect [])
       | None => Throws
       end.
Proof.
  cbv zeta. unfold mount, loadEffect, initialState.
  destruct (createSeedExpenses h randomUUID now),
    (toLocalDateInput h (TimeClip now)); repeat split; reflexivity.
Qed.

(** C2 as stated fails: with a stored value that is not JSON, mounting
    does not end with the seed as the store and in the mirror. *)
Lemma load_unparsable_is_not_seeded :
  ~ (exists seed st,
       createSeedExpenses utcHost None sampleClock = Some seed
       /\ mount utcHost None sampleClock (Some Malformed)
          = Returns (st, persistEffect seed)
       /\ expenses st = seed).
Proof.
  intros (seed & st & Hseed & Hmount & _).
  vm_compute in Hseed. injection Hseed as <-.
  vm_compute in Hmount. discriminate Hmount.
Qed.

(** ** Months *)

(** C7, at the failing input: with a record dated in the year 99 and one
    dated in 1950, the key of the year 99 comes first and is labelled
    "March 1999", because [new Date(99, 2)] is March 1999; the claim has
    the months in descending order of (year, month), here 1950 before 99. *)
Theorem months_two_digit_year_out_of_order :
  months utcHost twoDigitYearStore
  = Some [("99-3", "March 1999"); ("1950-1", "January 1950")].
Proof. vm_compute. reflexivity. Qed.

(** A record whose date does not parse has the key "NaN-NaN", for which
    [format] throws. *)
Lemma months_invalid_date :
  months utcHost [{| id := "a"; label := "x"; category := Other;
                     amount := 1%float; date := "" |}] = None.
Proof. reflexivity. Qed.

(** The keys of [months] without their labels: each key of a record once,
    in some order. *)
Lemma uniqueFrom_spec (seen l : list string) :
  NoDup (uniqueFrom seen l)
  /\ forall k, In k (uniqueFrom seen l) <-> In k l /\ ~ In k seen.
Proof.
  revert seen. induction l as [| x l IH]; intros seen; simpl.
  - split; [constructor | intros; tauto].
  - destruct (existsb (String.eqb x) seen) eqn:E.
    + destruct (IH seen) as [IH1 IH2]. split; [assumption|].
      intros k. rewrite IH2. split; [tauto|].
      intros [[-> | Hin] Hns]; [|tauto].
      apply existsb_exists in E. destruct E as (y & Hy & Exy).
      apply String.eqb_eq in Exy. subst. contradiction.
    + destruct (IH (x :: seen)) as [IH1 IH2]. split.
      * constructor; [|assumption]. rewrite IH2. simpl. tauto.
      * intros k. simpl. rewrite IH2. simpl.
        assert (Hx : ~ In x seen).
        { intros Hin. apply not_true_iff_false in E. apply E.
          apply existsb_exists. exists x. split; [assumption|].
          apply String.eqb_refl. }
        destruct (string_dec x k) as [-> | Hne]; [tauto|]. tauto.
Qed.

Lemma traverse_keys {A} (f : string -> option A) (l : list string)
    (r : list (string * A)) :
  traverse (fun key => match f key with
                       | Some v => Some (key, v)
                       | None => None
                       end) l = Some r ->
  map fst r = l.
Proof.
  revert r. induction l as [| k l IH]; intros r; simpl.
  - intros [= <-]. reflexivity.
  - destruct (f k); [|discriminate].
    destruct (traverse _ l) eqn:E; [|discriminate].
    intros [= <-]. simpl. f_equal. now apply IH.
Qed.

(** X1. What holds of [months] for every store: the keys are those of the
    records, each once. *)
Lemma months_keys (h : Host) (expenses : list Expense) (r : list (string * string)) :
  months h expenses = Some r ->
  NoDup (map fst r)
  /\ forall k, In k (map fst r) <-> In k (map (monthKeyOf h) expenses).
Proof.
  unfold months. intros H. apply traverse_keys in H. rewrite H.
  destruct (uniqueFrom_spec [] (map (monthKeyOf h) expenses)) as [Hnd Hin].
  split.
  - eapply Permutation_NoDup; [apply Permutation_sym, sort_perm | exact Hnd].
  - intros k. rewrite sort_In. unfold unique. rewrite Hin. simpl. tauto.
Qed.

Lemma storable_example (x : number) :
  isFinite x = true -> is_zero x = false -> storable x.
Proof.
  intros Hf Hz. split; [exact Hf|]. intros ->. discriminate Hz.
Qed.

(** An amount that is not finite is written as [null], and what is read
    back is no longer a list of expense records. *)
Lemma load_after_persist_infinite_amount :
  loadEffect utcHost None sampleClock
    (persistEffect [{| id := "a"; label := "x"; category := Other;
                       amount := infinity; date := "2024-01-02" |}])
  = Untyped.
Proof. reflexivity. Qed.

(** A stored value that is JSON but not a list, such as [null], makes the
    spread in the load effect throw; the error is caught like a syntax
    error. *)
Lemma load_not_iterable (h : Host) (randomUUID : option (nat -> string)) (now : Z) :
  loadEffect h randomUUID now (Some (JSONText JNull))
  = Returns {| setExpenses := None; setActiveMonthKey := None;
               storageAfterLoad := Some (JSONText JNull) |}.
Proof. reflexivity. Qed.

(** The seed on the sample clock: five records of the current month. *)
Lemma createSeedExpenses_sample :
  option_map (map date) (createSeedExpenses utcHost None sampleClock)
  = Some ["2024-02-02"; "2024-02-03"; "2024-02-05"; "2024-02-07"; "2024-02-10"].
Proof. vm_compute. reflexivity. Qed.
(** ** The order of the months *)

Lemma Prim2SF_ofZ (z : Z) :
  z <> 0 -> Z.abs z < 2 ^ 53 ->
  exists mz k, Zpos mz = Z.abs z * 2 ^ k /\ 0 <= k
               /\ Prim2SF (ofZ z) = S754_finite (z <? 0) mz (- k)
               /\ bounded prec emax mz (- k) = true.
Proof.
  intros Hz Hb. unfold ofZ, binary64.
  destruct z as [| p | p]; [congruence | |]; simpl binary_normalize.
  - destruct (binary_round_integer false p Hb) as (mz & k & Hmz & Hk & -> & Hbd).
    exists mz, k. rewrite Prim2SF_SF2Prim by exact Hbd. auto.
  - destruct (binary_round_integer true p Hb) as (mz & k & Hmz & Hk & -> & Hbd).
    exists mz, k. rewrite Prim2SF_SF2Prim by exact Hbd. auto.
Qed.

(** The Numbers of two integers below 2^53 are ordered as the integers. *)
Lemma ofZ_ltb (a b : Z) :
  Z.abs a < 2 ^ 53 -> Z.abs b < 2 ^ 53 -> (ofZ a <? ofZ b)%float = (a <? b).
Proof.
  intros Ha Hb. rewrite ltb_spec. unfold SFltb.
  destruct (Z.eq_dec a 0) as [-> | Hna]; destruct (Z.eq_dec b 0) as [-> | Hnb].
  - reflexivity.
  - destruct (Prim2SF_ofZ b Hnb Hb) as (mz & k & _ & _ & -> & _).
    change (Prim2SF (ofZ 0)) with (S754_zero false). simpl.
    destruct b; try congruence; reflexivity.
  - destruct (Prim2SF_ofZ a Hna Ha) as (mz & k & _ & _ & -> & _).
    change (Prim2SF (ofZ 0)) with (S754_zero false). simpl.
    destruct a; try congruence; reflexivity.
  - destruct (Prim2SF_ofZ a Hna Ha) as (ma & ka & Hma & Hka & -> & Hba).
    destruct (Prim2SF_ofZ b Hnb Hb) as (mb & kb & Hmb & Hkb & -> & Hbb).
    rewrite SFcompare_aligned by assumption. unfold aligned.
    set (ez := Z.min (- ka) (- kb)).
    assert (Hez : ez <= - ka /\ ez <= - kb /\ ez <= 0) by (unfold ez; lia).
    assert (Ea : cond_Zopp (a <? 0) (Zpos ma * 2 ^ (- ka - ez)) = a * 2 ^ (- ez)).
    { rewrite Hma, <- Z.mul_assoc, <- Z.pow_add_r by lia.
      replace (ka + (- ka - ez)) with (- ez) by lia.
      unfold cond_Zopp. destruct (Z.ltb_spec a 0); [|rewrite Z.abs_eq by lia; reflexivity].
      rewrite Z.abs_neq by lia. lia. }
    assert (Eb : cond_Zopp (b <? 0) (Zpos mb * 2 ^ (- kb - ez)) = b * 2 ^ (- ez)).
    { rewrite Hmb, <- Z.mul_assoc, <- Z.pow_add_r by lia.
      replace (kb + (- kb - ez)) with (- ez) by lia.
      unfold cond_Zopp. destruct (Z.ltb_spec b 0); [|rewrite Z.abs_eq by lia; reflexivity].
      rewrite Z.abs_neq by lia. lia. }
    rewrite Ea, Eb.
    assert (P : 0 < 2 ^ (- ez)) by (apply Z.pow_pos_nonneg; lia).
    destruct (Z.ltb_spec a b) as [L | L];
      destruct (Z.compare_spec (a * 2 ^ (- ez)) (b * 2 ^ (- ez))) as [E | E | E];
      try reflexivity; nia.
Qed.

Lemma DayFromYear_mono (a b : Z) : a <= b -> DayFromYear a <= DayFromYear b.
Proof. intros H. unfold DayFromYear. Z.div_mod_to_equations. lia. Qed.

Lemma monthStart_bounds (L m : Z) :
  0 <= L <= 1 -> 0 <= m <= 11 ->
  61 * m - 4 <= 2 * monthStart L m <= 61 * m + 3 /\ monthStart L m <= 334 + L.
Proof.
  intros HL Hm. month_cases m; unfold monthStart; lia.
Qed.

Lemma monthStart_lt (L a b : Z) :
  0 <= L <= 1 -> 0 <= a -> a < b -> b <= 11 -> monthStart L a < monthStart L b.
Proof.
  intros HL Ha Hab Hb.
  pose proof (monthStart_bounds L a HL ltac:(lia)) as [B1 _].
  pose proof (monthStart_bounds L b HL ltac:(lia)) as [B1' _].
  revert B1 B1'. generalize (monthStart L a), (monthStart L b). intros; lia.
Qed.

Lemma MakeDay_first (y m : Z) :
  1 <= m <= 12 ->
  MakeDay y (m - 1) 1
  = DayFromYear y + monthStart (if isLeapYear y then 1 else 0) (m - 1).
Proof.
  intros Hm. unfold MakeDay. rewrite Z.div_small, Z.mod_small by lia.
  rewrite Z.add_0_r. lia.
Qed.

(** The first days of two months are in the order of the months. *)
Lemma MakeDay_first_lt (y m y' m' : Z) :
  1 <= m <= 12 -> 1 <= m' <= 12 ->
  (MakeDay y (m - 1) 1 <? MakeDay y' (m' - 1) 1) = (12 * y + m <? 12 * y' + m').
Proof.
  intros Hm Hm'. rewrite !MakeDay_first by assumption.
  set (L := if isLeapYear y then 1 else 0).
  set (L' := if isLeapYear y' then 1 else 0).
  assert (HL : 0 <= L <= 1) by (unfold L; destruct (isLeapYear y); lia).
  assert (HL' : 0 <= L' <= 1) by (unfold L'; destruct (isLeapYear y'); lia).
  pose proof (monthStart_bounds L (m - 1) HL ltac:(lia)) as [B1 B2].
  pose proof (monthStart_bounds L' (m' - 1) HL' ltac:(lia)) as [B1' B2'].
  assert (HD : DaysInYear y = 365 + L) by (unfold DaysInYear, L; destruct (isLeapYear y); lia).
  assert (HD' : DaysInYear y' = 365 + L')
    by (unfold DaysInYear, L'; destruct (isLeapYear y'); lia).
  pose proof (DayFromYear_succ y) as S1. pose proof (DayFromYear_succ y') as S2.
  destruct (Z.ltb_spec (12 * y + m) (12 * y' + m')) as [H | H];
    [apply Z.ltb_lt | apply Z.ltb_ge].
  - destruct (Z.eq_dec y y') as [-> | Hne].
    + subst L'. pose proof (monthStart_lt L (m - 1) (m' - 1) HL ltac:(lia) ltac:(lia) ltac:(lia)).
      lia.
    + pose proof (DayFromYear_mono (y + 1) y' ltac:(lia)). lia.
  - destruct (Z.eq_dec y y') as [-> | Hne].
    + subst L'. destruct (Z.eq_dec m m') as [-> | Hmm]; [subst L; lia|].
      pose proof (monthStart_lt L (m' - 1) (m - 1) HL ltac:(lia) ltac:(lia) ltac:(lia)).
      lia.
    + pose proof (DayFromYear_mono (y' + 1) y ltac:(lia)). lia.
Qed.

Lemma MonthFromTime_range (t : Z) : 0 <= MonthFromTime t <= 11.
Proof. unfold MonthFromTime. split_ltb; lia. Qed.

Lemma TimeClip_bound (x t : Z) : TimeClip x = Some t -> t = x /\ Z.abs t < 2 ^ 53.
Proof.
  unfold TimeClip. destruct (Z.leb_spec (Z.abs x) 8640000000000000); [|discriminate].
  intros [= <-]. split; [reflexivity|]. change (2 ^ 53) with 9007199254740992. lia.
Qed.

Lemma traverse_entries {A} (f : string -> option A) (g : string -> A) (l : list string) :
  (forall k, In k l -> f k = Some (g k)) ->
  traverse (fun key => match f key with
                       | Some v => Some (key, v)
                       | None => None
                       end) l
  = Some (map (fun k => (k, g k)) l).
Proof.
  induction l as [| k l IH]; intros H; simpl; [reflexivity|].
  rewrite (H k) by (simpl; auto). rewrite IH by (intros; apply H; simpl; auto).
  reflexivity.
Qed.

Lemma Sorted_map {A B} (R : B -> B -> Prop) (f : A -> B) (l : list A) :
  Sorted (fun a b => R (f a) (f b)) l -> Sorted R (map f l).
Proof.
  induction 1 as [| a l Hs IH Hhd]; simpl; constructor; [assumption|].
  destruct Hhd; simpl; constructor. assumption.
Qed.

Section MonthsOrder.
Variable h : Host.
Hypothesis zone : Z.abs (LocalTZA h) <= msPerDay.

Lemma monthKeyOf_from_year_100 (e : Expense) :
datedFromYear100 h e -> exists y m, keyFromYear100 (monthKeyOf h e) y m.
Proof.
intros (t & Ht & Hy). unfold monthKeyOf, getMonthKey, getFullYear, getMonth.
rewrite Ht.
exists (YearFromTime (LocalTime h t)), (MonthFromTime (LocalTime h t) + 1).
pose proof (MonthFromTime_range (LocalTime h t)) as Hm.
split; [|lia]. unfold monthKey. f_equal; [|f_equal].
- unfold integerToString. rewrite truncate_ofZ; [reflexivity|].
  change (2 ^ 53) with 9007199254740992. lia.
- month_cases (MonthFromTime (LocalTime h t)); rewrite ?C; reflexivity.
Qed.

Lemma key_from_year_100 (k : string) (y m : Z) :
keyFromYear100 k y m ->
keyDate h k = Some (MakeDate (MakeDay y (m - 1) 1) 0 - LocalTZA h)
/\ keyIndex k = Some (12 * y + m)
/\ monthFormatter_format h (keyDate h k) = Some (snd (monthEntry y m)).
Proof.
intros (-> & Hy & Hm).
destruct (truncate_month m Hm) as [Tm Tm1].
assert (Ty : truncate (ofZ y) = Some y).
{ apply truncate_ofZ. change (2 ^ 53) with 9007199254740992. lia. }
assert (Hd : 1 <= 1 <= daysInMonth y (m - 1 + 1)).
{ destruct (daysInMonth_cases y (m - 1 + 1)) as [E | [E | [E | E]]]; lia. }
assert (Hk : keyDate h (monthKey y m)
             = Some (MakeDate (MakeDay y (m - 1) 1) 0 - LocalTZA h)).
{ unfold keyDate. rewrite keyParts_monthKey by lia.
  unfold DateOfFields. rewrite Ty, Tm1.
  change (truncate 1%float) with (Some 1).
  destruct (Z.leb_spec y 99); [lia|]. rewrite andb_false_r.
  apply TimeClip_midnight; [exact zone | lia | lia | exact Hd]. }
split; [exact Hk|]. split.
- unfold keyIndex. rewrite keyParts_monthKey by lia. cbn [fst snd].
  rewrite Ty, Tm. reflexivity.
- rewrite Hk. unfold monthFormatter_format, LocalTime.
  replace (MakeDate (MakeDay y (m - 1) 1) 0 - LocalTZA h + LocalTZA h)
    with (MakeDate (MakeDay y (m - 1) 1) 0) by lia.
  destruct (fields_of_MakeDay y (m - 1) 1 ltac:(lia) Hd) as (-> & -> & _).
  destruct (Z.leb_spec y 0); [lia|]. reflexivity.
Qed.

Lemma comparator_from_year_100 (k1 k2 : string) (y1 m1 y2 m2 : Z) :
keyFromYear100 k1 y1 m1 -> keyFromYear100 k2 y2 m2 ->
sortsAfter (fun a b => getTime (keyDate h b) - getTime (keyDate h a))%float k1 k2
= (12 * y1 + m1 <? 12 * y2 + m2).
Proof.
intros H1 H2.
destruct (key_from_year_100 k1 y1 m1 H1) as (E1 & _ & _).
destruct (key_from_year_100 k2 y2 m2 H2) as (E2 & _ & _).
destruct H1 as (_ & Hy1 & Hm1). destruct H2 as (_ & Hy2 & Hm2).
unfold sortsAfter. rewrite sub_positive_iff_lt, E1, E2. unfold getTime.
assert (B : forall y m, 100 <= y <= 275759 -> 1 <= m <= 12 ->
            Z.abs (MakeDate (MakeDay y (m - 1) 1) 0 - LocalTZA h) < 2 ^ 53).
{ intros y m Hy Hm.
  assert (Hd : 1 <= 1 <= daysInMonth y (m - 1 + 1)).
  { destruct (daysInMonth_cases y (m - 1 + 1)) as [E | [E | [E | E]]]; lia. }
  pose proof (TimeClip_midnight h zone y (m - 1) 1 ltac:(lia) ltac:(lia) Hd) as Hc.
  apply TimeClip_bound in Hc. tauto. }
rewrite ofZ_ltb by (apply B; assumption).
rewrite <- (MakeDay_first_lt y1 m1 y2 m2) by assumption.
unfold MakeDate, msPerDay.
destruct (Z.ltb_spec (MakeDay y1 (m1 - 1) 1) (MakeDay y2 (m2 - 1) 1));
  [apply Z.ltb_lt | apply Z.ltb_ge]; lia.
Qed.

(** X2. For records dated in the years from 100 on, [months] returns the months
  of the records, the latest first, each with the name of its month and
  its year. *)
Theorem months_sorted_from_year_100 (expenses : list Expense) :
Forall (datedFromYear100 h) expenses ->
exists r, months h expenses = Some r
          /\ Sorted notBefore r
          /\ Forall (fun p => exists y m, p = monthEntry y m
                                        /\ keyFromYear100 (fst p) y m) r.
Proof.
intros Hall. unfold months.
set (cmp := (fun a b => getTime (keyDate h b) - getTime (keyDate h a))%float).
set (keys := unique (map (monthKeyOf h) expenses)).
assert (Hkeys : forall k, In k (sort cmp keys) -> exists y m, keyFromYear100 k y m).
{ intros k Hk. apply sort_In in Hk. unfold keys, unique in Hk.
  apply uniqueFrom_spec in Hk. destruct Hk as [Hk _].
  apply in_map_iff in Hk. destruct Hk as (e & <- & He).
  rewrite Forall_forall in Hall. now apply monthKeyOf_from_year_100, Hall. }
set (lbl := fun k => match monthFormatter_format h (keyDate h k) with
                     | Some l => l
                     | None => EmptyString
                     end).
exists (map (fun k => (k, lbl k)) (sort cmp keys)). split; [|split].
- apply (traverse_entries (fun k => monthFormatter_format h (keyDate h k)) lbl).
  intros k Hk. destruct (Hkeys k Hk) as (y & m & Hv).
  destruct (key_from_year_100 k y m Hv) as (_ & _ & Hf).
  unfold lbl. rewrite Hf. reflexivity.
- apply Sorted_map. apply sort_Sorted; intros k1 k2 H1 H2 Hc;
    assert (H1' : In k1 (sort cmp keys)) by (now apply sort_In);
    assert (H2' : In k2 (sort cmp keys)) by (now apply sort_In);
    destruct (Hkeys k1 H1') as (y1 & m1 & V1);
    destruct (Hkeys k2 H2') as (y2 & m2 & V2);
    unfold cmp in Hc;
    rewrite (comparator_from_year_100 k1 k2 y1 m1 y2 m2 V1 V2) in Hc;
    destruct (key_from_year_100 k1 y1 m1 V1) as (_ & I1 & _);
    destruct (key_from_year_100 k2 y2 m2 V2) as (_ & I2 & _);
    unfold notBefore; cbn [fst].
  + exists (12 * y1 + m1), (12 * y2 + m2). apply Z.ltb_ge in Hc. auto.
  + exists (12 * y2 + m2), (12 * y1 + m1). apply Z.ltb_lt in Hc.
    repeat split; try assumption. lia.
- apply Forall_forall. intros p Hp. apply in_map_iff in Hp.
  destruct Hp as (k & <- & Hk). destruct (Hkeys k Hk) as (y & m & Hv).
  exists y, m. split; [|exact Hv].
  destruct (key_from_year_100 k y m Hv) as (_ & _ & Hf).
  unfold lbl. rewrite Hf. destruct Hv as (-> & _). reflexivity.
Qed.
End MonthsOrder.

Lemma months_sorted_from_year_100_sample :
  exists r, months utcHost sampleStore = Some r
            /\ Sorted notBefore r
            /\ Forall (fun p => exists y m, p = monthEntry y m
                                          /\ keyFromYear100 (fst p) y m) r.
Proof.
  apply (months_sorted_from_year_100 utcHost); [vm_compute; discriminate|].
  repeat constructor;
    (eexists; split; [reflexivity | vm_compute; split; discriminate]).
Defined.

(** ** Submitting, again *)

(** X3. A second submit right after a submit changes nothing: an accepted
    draft leaves the label and the amount of the form empty, and the
    handler rejects the empty label. *)
Theorem handleSubmit_twice (h : Host) (id1 id2 : string) (st : State) :
  handleSubmit h id2 (handleSubmit h id1 st) = handleSubmit h id1 st.
Proof.
  destruct (accepted (form st)) eqn:E.
  - rewrite (handleSubmit_accepted h id1 st E).
    apply handleSubmit_rejected. reflexivity.
  - rewrite (handleSubmit_rejected h id1 st E).
    now apply handleSubmit_rejected.
Qed.

(** ** The place of a new record *)

Lemma sortsAfter_byDate (h : Host) (a b : Expense) :
  sortsAfter (byDateDescending h) a b = (timeOf h a <? timeOf h b)%float.
Proof. unfold sortsAfter, byDateDescending, timeOf. apply sub_positive_iff_lt. Qed.

Lemma insertSorted_HdRel_id (h : Host) (a : Expense) (l : list Expense) :
  HdRel (notOlder h) a l -> insertSorted (byDateDescending h) a l = a :: l.
Proof.
  intros [| b l' Hab]; [reflexivity|]. simpl.
  rewrite sortsAfter_byDate. unfold notOlder in Hab. now rewrite Hab.
Qed.

(** Sorting a store that is in order leaves it as it is. *)
Lemma sort_ordered (h : Host) (l : list Expense) :
  Sorted (notOlder h) l -> sort (byDateDescending h) l = l.
Proof.
  induction 1 as [| a l Hs IH Hhd]; simpl; [reflexivity|].
  rewrite IH. now apply insertSorted_HdRel_id.
Qed.

Lemma insertSorted_place (h : Host) (x : Expense) (l : list Expense) :
  exists newer rest,
    l = (newer ++ rest)%list
    /\ insertSorted (byDateDescending h) x l = (newer ++ x :: rest)%list
    /\ Forall (older h x) newer
    /\ HdRel (notOlder h) x rest.
Proof.
  induction l as [| y l (newer & rest & E & Ei & Hn & Hr)].
  - exists [], []. repeat split; constructor.
  - simpl. rewrite sortsAfter_byDate.
    destruct (timeOf h x <? timeOf h y)%float eqn:C.
    + exists (y :: newer), rest. simpl. rewrite <- E, Ei.
      repeat split; [constructor; assumption | assumption].
    + exists [], (y :: l). repeat split; constructor. exact C.
Qed.

(** X4. In a store that is in order and whose dates are all read, an
    accepted draft with a date that is read leaves the old records in their
    order and puts the new record after the records that are strictly
    newer, before the first record that is not. (With a date that is not
    read the comparator returns NaN for some pairs and the order is the
    engine's own.) *)
Theorem create_inserts_in_place (h : Host) (newId : string) (st : State) :
  accepted (form st) = true ->
  Forall (dated h) (expenses st) ->
  dated h (newExpenseOf newId (form st)) ->
  Sorted (notOlder h) (expenses st) ->
  exists newer rest,
    expenses st = (newer ++ rest)%list
    /\ expenses (handleSubmit h newId st)
       = (newer ++ newExpenseOf newId (form st) :: rest)%list
    /\ Forall (older h (newExpenseOf newId (form st))) newer
    /\ HdRel (notOlder h) (newExpenseOf newId (form st)) rest.
Proof.
  intros Ha _ _ Hs. rewrite (handleSubmit_accepted h newId st Ha). simpl.
  rewrite (sort_ordered h _ Hs). apply insertSorted_place.
Qed.

Lemma filter_insertSorted {A} (cmp : A -> A -> number) (f : A -> bool) (x : A)
    (l : list A) :
  f x = false -> filter f (insertSorted cmp x l) = filter f l.
Proof.
  intros Hx. induction l as [| y l IH]; simpl; [now rewrite Hx|].
  destruct (sortsAfter cmp x y); simpl; [now rewrite IH | now rewrite Hx].
Qed.

(** X5. Where every date, that of the draft too, is read: creating a
    record and deleting it again leaves the old records, sorted by date;
    the old store itself when it was in order. *)
Theorem create_then_delete (h : Host) (newId : string) (st : State) :
  accepted (form st) = true ->
  Forall (dated h) (expenses st) ->
  dated h (newExpenseOf newId (form st)) ->
  ~ In newId (map id (expenses st)) ->
  expenses (handleDelete newId (handleSubmit h newId st))
  = sort (byDateDescending h) (expenses st)
  /\ (Sorted (notOlder h) (expenses st) ->
      expenses (handleDelete newId (handleSubmit h newId st)) = expenses st).
Proof.
  intros Ha _ _ Hfresh.
  assert (E : expenses (handleDelete newId (handleSubmit h newId st))
              = sort (byDateDescending h) (expenses st)).
  { rewrite (handleSubmit_accepted h newId st Ha). unfold handleDelete. simpl.
    rewrite filter_insertSorted by (simpl; now rewrite String.eqb_refl).
    apply filter_absent. intros e He. apply sort_In in He.
    apply negb_true_iff, String.eqb_neq. intros Eid. apply Hfresh.
    rewrite <- Eid. now apply in_map. }
  split; [exact E|]. intros Hs. rewrite E. now apply sort_ordered.
Qed.

(** X6. Deleting two records gives the same state in either order. *)
Theorem handleDelete_commutes (a b : string) (st : State) :
  handleDelete a (handleDelete b st) = handleDelete b (handleDelete a st).
Proof.
  unfold handleDelete. simpl. f_equal.
  induction (expenses st) as [| e l IH]; simpl; [reflexivity|].
  destruct (negb (id e =? b)%string) eqn:Eb, (negb (id e =? a)%string) eqn:Ea;
    simpl; rewrite ?Ea, ?Eb; congruence.
Qed.

(** ** The order of the store *)

Lemma DateOfString_bound (h : Host) (s : string) (t : Z) :
  DateOfString h s = Some t -> Z.abs t < 2 ^ 53.
Proof.
  unfold DateOfString.
  destruct (parseDateOnly s) as [u|]; [|destruct (parseOther h s) as [u|]];
    try discriminate; intros H; apply TimeClip_bound in H; tauto.
Qed.

Lemma notOlder_trans (h : Host) (a b c : Expense) :
  dated h a -> dated h b -> dated h c ->
  notOlder h a b -> notOlder h b c -> notOlder h a c.
Proof.
  intros [ta Ha] [tb Hb] [tc Hc]. unfold notOlder, timeOf.
  rewrite Ha, Hb, Hc. simpl.
  apply DateOfString_bound in Ha, Hb, Hc.
  rewrite !ofZ_ltb by assumption. rewrite !Z.ltb_ge. lia.
Qed.

Lemma Sorted_StronglySorted_dated (h : Host) (l : list Expense) :
  Forall (dated h) l -> Sorted (notOlder h) l -> StronglySorted (notOlder h) l.
Proof.
  intros Hd Hs. induction Hs as [| a l Hs IH Hhd]; [constructor|].
  inversion Hd as [| ? ? Da Dl]; subst.
  specialize (IH Dl). constructor; [exact IH|].
  destruct Hhd as [| b l' Hab]; [constructor|].
  inversion IH as [| ? ? _ Hb]; subst. inversion Dl as [| ? ? Db Dl']; subst.
  constructor; [exact Hab|].
  rewrite Forall_forall in *. intros c Hc.
  apply (notOlder_trans h a b c); auto.
Qed.

Lemma StronglySorted_filter {A} (R : A -> A -> Prop) (f : A -> bool) (l : list A) :
  StronglySorted R l -> StronglySorted R (filter f l).
Proof.
  induction 1 as [| a l Hs IH Ha]; simpl; [constructor|].
  destruct (f a); [|exact IH]. constructor; [exact IH|].
  rewrite Forall_forall in *. intros x Hx. apply filter_In in Hx. now apply Ha.
Qed.

Lemma filter_ordered (h : Host) (f : Expense -> bool) (l : list Expense) :
  Forall (dated h) l -> Sorted (notOlder h) l -> Sorted (notOlder h) (filter f l).
Proof.
  intros Hd Hs. apply StronglySorted_Sorted, StronglySorted_filter.
  now apply Sorted_StronglySorted_dated.
Qed.

(** X7. Deleting keeps a store of records with readable dates in order,
    the latest first. *)
Theorem delete_keeps_store_sorted (h : Host) (id0 : string) (st : State) :
  Forall (dated h) (expenses st) ->
  Sorted (notOlder h) (expenses st) ->
  Sorted (notOlder h) (expenses (handleDelete id0 st)).
Proof. intros Hd Hs. unfold handleDelete. simpl. now apply filter_ordered. Qed.

(** X8. When the store holds records with readable dates in order, the
    latest first, the list of every month is in that order too. *)
Theorem monthExpenses_sorted (h : Host) (es : list Expense) (key : string) :
  Forall (dated h) es -> Sorted (notOlder h) es ->
  Sorted (notOlder h) (monthExpenses h es key).
Proof. intros Hd Hs. now apply filter_ordered. Qed.

(** ** The months and the records *)

Lemma months_fst (h : Host) (es : list Expense) (r : list (string * string)) :
  months h es = Some r ->
  map fst r
  = sort (fun a b => getTime (keyDate h b) - getTime (keyDate h a))%float
         (unique (map (monthKeyOf h) es)).
Proof. unfold months. apply traverse_keys. Qed.

Lemma months_fst_spec (h : Host) (es : list Expense) (r : list (string * string)) :
  months h es = Some r ->
  NoDup (map fst r) /\ forall e, In e es -> In (monthKeyOf h e) (map fst r).
Proof.
  intros H. rewrite (months_fst h es r H).
  destruct (uniqueFrom_spec [] (map (monthKeyOf h) es)) as [Hnd Hin].
  split.
  - eapply Permutation_NoDup; [apply Permutation_sym, sort_perm | exact Hnd].
  - intros e He. apply sort_In. apply Hin. split; [now apply in_map | tauto].
Qed.

Lemma filter_filter_comm {A} (f g : A -> bool) (l : list A) :
  filter f (filter g l) = filter g (filter f l).
Proof.
  induction l as [| x l IH]; simpl; [reflexivity|].
  destruct (f x) eqn:F, (g x) eqn:G; simpl; rewrite ?F, ?G; congruence.
Qed.

Lemma filter_split_perm {A} (f : A -> bool) (l : list A) :
  Permutation (filter f l ++ filter (fun x => negb (f x)) l) l.
Proof.
  induction l as [| x l IH]; simpl; [constructor|].
  destruct (f x); simpl.
  - now constructor.
  - apply Permutation_sym, Permutation_cons_app, Permutation_sym, IH.
Qed.

(** The lists of the keys [ks], which are distinct and include the key of
    every element, are the elements, each once. *)
Lemma partition_by_key {A} (key : A -> string) (ks : list string) :
  NoDup ks ->
  forall l, (forall x, In x l -> In (key x) ks) ->
  Permutation (List.concat (map (fun k => filter (fun x => String.eqb (key x) k) l) ks)) l.
Proof.
  induction 1 as [| k ks Hk Hnd IH]; intros l Hl; simpl.
  - destruct l as [| x l]; [constructor|]. destruct (Hl x); simpl; auto.
  - eapply Permutation_trans; [|apply (filter_split_perm (fun x => String.eqb (key x) k))].
    apply Permutation_app_head.
    set (rest := filter (fun x => negb (String.eqb (key x) k)) l).
    assert (E : map (fun k' => filter (fun x => String.eqb (key x) k') l) ks
                = map (fun k' => filter (fun x => String.eqb (key x) k') rest) ks).
    { apply map_ext_in. intros k' Hk'. unfold rest.
      rewrite filter_filter_comm. symmetry. apply filter_absent.
      intros x Hx. apply filter_In in Hx. destruct Hx as [_ Hx].
      apply String.eqb_eq in Hx. apply negb_true_iff, String.eqb_neq.
      intros E. apply Hk. now rewrite <- E, Hx. }
    rewrite E. apply IH. intros x Hx. unfold rest in Hx.
    apply filter_In in Hx. destruct Hx as [Hx Hne].
    apply negb_true_iff, String.eqb_neq in Hne.
    destruct (Hl x Hx) as [E' | Hin]; [congruence | exact Hin].
Qed.

(** X9. The months partition the store: the lists of the months that
    [months] returns, one after the other, hold every record of the store
    exactly once. *)
Theorem months_partition (h : Host) (es : list Expense) (r : list (string * string)) :
  months h es = Some r ->
  Permutation (List.concat (map (fun p => monthExpenses h es (fst p)) r)) es.
Proof.
  intros H. destruct (months_fst_spec h es r H) as [Hnd Hin].
  rewrite <- (map_map fst (fun k => monthExpenses h es k)).
  apply (partition_by_key (monthKeyOf h) (map fst r) Hnd es Hin).
Qed.

(** X10. After an accepted draft the active month is one of the months that
    [months] lists. *)
Theorem create_lists_active_month (h : Host) (newId : string) (st : State)
    (r : list (string * string)) :
  accepted (form st) = true ->
  months h (expenses (handleSubmit h newId st)) = Some r ->
  In (activeMonthKey (handleSubmit h newId st)) (map fst r).
Proof.
  intros Ha H. destruct (months_fst_spec h _ r H) as [_ Hin].
  rewrite (handleSubmit_accepted h newId st Ha) in *.
  cbn [expenses activeMonthKey] in *.
  apply Hin. apply sort_In. simpl. auto.
Qed.

Lemma traverse_fails {A B} (f : A -> option B) (l : list A) (x : A) :
  In x l -> f x = None -> traverse f l = None.
Proof.
  intros Hx Hf. induction l as [| y l IH]; [destruct Hx|]. simpl.
  destruct Hx as [-> | Hx]; [now rewrite Hf|].
  destruct (f y); [|reflexivity]. now rewrite (IH Hx).
Qed.

(** [months] throws when the month of one of the keys has no label. *)
Lemma months_key_fails (h : Host) (es : list Expense) (e : Expense) :
  In e es -> monthFormatter_format h (keyDate h (monthKeyOf h e)) = None ->
  months h es = None.
Proof.
  intros He Hf. unfold months.
  apply (traverse_fails _ _ (monthKeyOf h e)); [|now rewrite Hf].
  apply sort_In. unfold unique.
  apply (proj2 (uniqueFrom_spec [] (map (monthKeyOf h) es))).
  split; [now apply in_map | tauto].
Qed.

Lemma monthKeyOf_unreadable (h : Host) (e : Expense) :
  DateOfString h (date e) = None ->
  monthKeyOf h e = "NaN-NaN"
  /\ monthFormatter_format h (keyDate h (monthKeyOf h e)) = None.
Proof.
  intros H. unfold monthKeyOf. rewrite H.
  split; [reflexivity|]. reflexivity.
Qed.

(** X11. One record with a date the host does not read makes [months]
    throw: the key of the record is NaN-NaN, which names no month to
    format. *)
Theorem months_throws_on_unreadable_date (h : Host) (es : list Expense) (e : Expense) :
  In e es -> DateOfString h (date e) = None -> months h es = None.
Proof.
  intros He H. apply (months_key_fails h es e He).
  now apply monthKeyOf_unreadable.
Qed.

(** X12. [handleSubmit] does not look at the date of the draft: a draft with a
    label and an amount and a date the host does not read (the empty date,
    for one) is stored, the active month becomes NaN-NaN, and [months]
    throws on the new store. *)
Theorem create_with_unreadable_date (h : Host) (newId : string) (st : State) :
  accepted (form st) = true ->
  DateOfString h (form_date (form st)) = None ->
  In (newExpenseOf newId (form st)) (expenses (handleSubmit h newId st))
  /\ activeMonthKey (handleSubmit h newId st) = "NaN-NaN"
  /\ months h (expenses (handleSubmit h newId st)) = None.
Proof.
  intros Ha Hd. rewrite (handleSubmit_accepted h newId st Ha). simpl.
  assert (Hin : In (newExpenseOf newId (form st))
                   (sort (byDateDescending h)
                         (newExpenseOf newId (form st) :: expenses st))).
  { apply sort_In. simpl. auto. }
  destruct (monthKeyOf_unreadable h (newExpenseOf newId (form st)) Hd) as [Hk Hf].
  split; [exact Hin|]. split; [exact Hk|].
  now apply (months_key_fails h _ _ Hin).
Qed.

(** ** The order of the numbers *)

Lemma placeOf_finite_bounds (m : positive) (e : Z) :
  bounded prec emax m e = true -> 0 < Zpos m * 2 ^ (e + 1074) < 2 ^ 2100.
Proof.
  intros H. pose proof (bounded_inv m e H) as (Hd & He & _).
  unfold bounded in H. apply andb_prop in H. destruct H as [_ Hle].
  apply Z.leb_le in Hle. unfold emax, prec in Hle.
  pose proof (digits2_pos_bounds m) as [_ Hhi].
  assert (Hm : Zpos m < 2 ^ 53).
  { eapply Z.lt_le_trans; [exact Hhi|]. apply Z.pow_le_mono_r; lia. }
  assert (Hp : 0 < 2 ^ (e + 1074)) by (apply Z.pow_pos_nonneg; lia).
  assert (Hq : 2 ^ (e + 1074) <= 2 ^ 2045) by (apply Z.pow_le_mono_r; lia).
  split; [lia|].
  replace (2 ^ 2100) with (2 ^ 53 * 2 ^ 2045 * 2 ^ 2)
    by (rewrite <- !Z.pow_add_r by lia; reflexivity).
  assert (0 < 2 ^ 2045) by (apply Z.pow_pos_nonneg; lia).
  assert (0 < 2 ^ 53) by (apply Z.pow_pos_nonneg; lia).
  change (2 ^ 2) with 4. nia.
Qed.

Lemma compare_scaled (a b k : Z) : 0 < k -> (a * k ?= b * k) = (a ?= b).
Proof.
  intros Hk. destruct (Z.compare_spec a b) as [-> | H | H].
  - apply Z.compare_refl.
  - apply Z.compare_lt_iff. nia.
  - apply Z.compare_gt_iff. nia.
Qed.

Lemma cond_Zopp_mul (s : bool) (a k : Z) : cond_Zopp s a * k = cond_Zopp s (a * k).
Proof. destruct s; simpl; lia. Qed.

(** Two numbers that are not NaN compare as their places do. *)
Lemma SFcompare_placeOf (x y : spec_float) :
  valid_binary x = true -> valid_binary y = true ->
  x <> S754_nan -> y <> S754_nan ->
  SFcompare x y = Some (placeOf x ?= placeOf y).
Proof.
  intros Vx Vy Nx Ny.
  destruct x as [sx | sx | | sx mx ex], y as [sy | sy | | sy my ey];
    try congruence; try reflexivity.
  - (* zero, infinity *) destruct sy; reflexivity.
  - (* zero, finite *)
    simpl in Vy. pose proof (placeOf_finite_bounds my ey Vy) as B.
    unfold placeOf. destruct sy; cbn [cond_Zopp SFcompare]; f_equal; symmetry.
    + apply Z.compare_gt_iff. lia.
    + apply Z.compare_lt_iff. lia.
  - (* infinity, zero *) destruct sx; reflexivity.
  - (* infinity, infinity *) destruct sx, sy; reflexivity.
  - (* infinity, finite *)
    simpl in Vy. pose proof (placeOf_finite_bounds my ey Vy) as B.
    unfold placeOf.
    destruct sx, sy; cbn [cond_Zopp SFcompare]; f_equal; symmetry;
      first [apply Z.compare_lt_iff; lia | apply Z.compare_gt_iff; lia].
  - (* finite, zero *)
    simpl in Vx. pose proof (placeOf_finite_bounds mx ex Vx) as B.
    unfold placeOf. destruct sx; cbn [cond_Zopp SFcompare]; f_equal; symmetry.
    + apply Z.compare_lt_iff. lia.
    + apply Z.compare_gt_iff. lia.
  - (* finite, infinity *)
    simpl in Vx. pose proof (placeOf_finite_bounds mx ex Vx) as B.
    unfold placeOf.
    destruct sx, sy; cbn [cond_Zopp SFcompare]; f_equal; symmetry;
      first [apply Z.compare_lt_iff; lia | apply Z.compare_gt_iff; lia].
  - (* finite, finite *)
    simpl in Vx, Vy. rewrite SFcompare_aligned by assumption. f_equal.
    pose proof (bounded_inv mx ex Vx) as (_ & Hex & _).
    pose proof (bounded_inv my ey Vy) as (_ & Hey & _).
    unfold placeOf, aligned.
    set (e0 := Z.min ex ey).
    assert (Hk : 0 < 2 ^ (e0 + 1074)) by (apply Z.pow_pos_nonneg; lia).
    rewrite <- (compare_scaled _ _ _ Hk), !cond_Zopp_mul.
    rewrite <- !Z.mul_assoc, <- !Z.pow_add_r by lia.
    replace (ex - e0 + (e0 + 1074)) with (ex + 1074) by lia.
    replace (ey - e0 + (e0 + 1074)) with (ey + 1074) by lia.
    reflexivity.
Qed.

Lemma leb_placeOf (x y : float) :
  (x <=? y)%float = true ->
  Prim2SF x <> S754_nan /\ Prim2SF y <> S754_nan
  /\ placeOf (Prim2SF x) <= placeOf (Prim2SF y).
Proof.
  rewrite leb_spec. unfold SFleb. intros H.
  assert (Nx : Prim2SF x <> S754_nan) by (intros E; rewrite E in H; discriminate).
  assert (Ny : Prim2SF y <> S754_nan).
  { intros E; rewrite E in H. destruct (Prim2SF x); discriminate. }
  rewrite (SFcompare_placeOf _ _ (Prim2SF_valid x) (Prim2SF_valid y) Nx Ny) in H.
  split; [exact Nx|]. split; [exact Ny|].
  destruct (Z.compare_spec (placeOf (Prim2SF x)) (placeOf (Prim2SF y)));
    try discriminate; lia.
Qed.

Lemma leb_of_placeOf (x y : float) :
  Prim2SF x <> S754_nan -> Prim2SF y <> S754_nan ->
  placeOf (Prim2SF x) <= placeOf (Prim2SF y) -> (x <=? y)%float = true.
Proof.
  intros Nx Ny H. rewrite leb_spec. unfold SFleb.
  rewrite (SFcompare_placeOf _ _ (Prim2SF_valid x) (Prim2SF_valid y) Nx Ny).
  destruct (Z.compare_spec (placeOf (Prim2SF x)) (placeOf (Prim2SF y)));
    try reflexivity; lia.
Qed.

Lemma leb_trans (x y z : float) :
  (x <=? y)%float = true -> (y <=? z)%float = true -> (x <=? z)%float = true.
Proof.
  intros Hxy Hyz. apply leb_placeOf in Hxy, Hyz.
  apply leb_of_placeOf; try tauto. lia.
Qed.

(** ** The sums of the categories *)

Lemma Category_eqb_eq (a b : Category) : Category_eqb a b = true <-> a = b.
Proof. destruct a, b; simpl; split; intros H; try reflexivity; discriminate. Qed.

Lemma Category_eqb_refl (a : Category) : Category_eqb a a = true.
Proof. now apply Category_eqb_eq. Qed.

Lemma Category_eqb_neq (a b : Category) : Category_eqb a b = false <-> a <> b.
Proof.
  rewrite <- Category_eqb_eq. destruct (Category_eqb a b); split; congruence.
Qed.

Lemma tallyOf_tallyAdd (k c : Category) (a : number) (acc : list (Category * number)) :
  tallyOf k (tallyAdd c a acc)
  = if Category_eqb c k
    then Some (match tallyOf c acc with Some v => v | None => 0 end + a)%float
    else tallyOf k acc.
Proof.
  unfold tallyOf. induction acc as [| [k' v'] acc IH]; simpl.
  - destruct (Category_eqb c k); reflexivity.
  - destruct (Category_eqb k' c) eqn:E; simpl.
    + apply Category_eqb_eq in E. subst k'.
      destruct (Category_eqb c k); reflexivity.
    + destruct (Category_eqb k' k) eqn:E'; simpl.
      * apply Category_eqb_eq in E'. subst k'.
        destruct (Category_eqb c k) eqn:E''; [|reflexivity].
        apply Category_eqb_eq in E''. subst c.
        now rewrite Category_eqb_refl in E.
      * exact IH.
Qed.

Lemma keys_tallyAdd (k c : Category) (a : number) (acc : list (Category * number)) :
  In k (map fst (tallyAdd c a acc)) <-> k = c \/ In k (map fst acc).
Proof.
  induction acc as [| [k' v'] acc IH]; simpl.
  - intuition congruence.
  - destruct (Category_eqb k' c) eqn:E; simpl.
    + apply Category_eqb_eq in E. subst k'. intuition congruence.
    + rewrite IH. tauto.
Qed.

Lemma NoDup_tallyAdd (c : Category) (a : number) (acc : list (Category * number)) :
  NoDup (map fst acc) -> NoDup (map fst (tallyAdd c a acc)).
Proof.
  induction acc as [| [k' v'] acc IH]; simpl; intros H.
  - repeat constructor. intros [].
  - inversion H as [| ? ? Hk Hnd]; subst.
    destruct (Category_eqb k' c) eqn:E; simpl.
    + now constructor.
    + constructor; [|now apply IH].
      rewrite keys_tallyAdd. intros [-> | Hin]; [|contradiction].
      now rewrite Category_eqb_refl in E.
Qed.

Lemma In_tallyOf (k : Category) (v : number) (acc : list (Category * number)) :
  NoDup (map fst acc) -> (In (k, v) acc <-> tallyOf k acc = Some v).
Proof.
  unfold tallyOf. induction acc as [| [k' v'] acc IH]; simpl; intros H.
  - split; [intros [] | discriminate].
  - inversion H as [| ? ? Hk Hnd]; subst. specialize (IH Hnd).
    destruct (Category_eqb k' k) eqn:E; simpl.
    + apply Category_eqb_eq in E. subst k'. split.
      * intros [E | Hin]; [congruence|].
        exfalso. apply Hk. now apply (in_map fst) in Hin.
      * intros [= ->]. now left.
    + apply Category_eqb_neq in E. rewrite <- IH. split.
      * intros [E' | Hin]; [congruence | exact Hin].
      * intros Hin. now right.
Qed.

Lemma tally_snoc (l : list Expense) (e : Expense) :
  tally (l ++ [e]) = tallyAdd (category e) (amount e) (tally l).
Proof. unfold tally. now rewrite fold_left_app. Qed.

Lemma ofCategory_snoc (c : Category) (l : list Expense) (e : Expense) :
  ofCategory c (l ++ [e])
  = (ofCategory c l ++ if Category_eqb (category e) c then [e] else [])%list.
Proof.
  unfold ofCategory. rewrite filter_app. simpl.
  now destruct (Category_eqb (category e) c).
Qed.

Lemma monthTotal_snoc (l : list Expense) (e : Expense) :
  monthTotal (l ++ [e]) = (monthTotal l + amount e)%float.
Proof. unfold monthTotal. now rewrite fold_left_app. Qed.

(** The tally holds each category of the records once, with the total of
    the records of that category. *)
Lemma tally_spec (l : list Expense) :
  NoDup (map fst (tally l))
  /\ forall c, tallyOf c (tally l)
               = match ofCategory c l with
                 | [] => None
                 | _ => Some (monthTotal (ofCategory c l))
                 end.
Proof.
  induction l as [| e l [Hnd IH]] using rev_ind.
  - split; [constructor | reflexivity].
  - rewrite tally_snoc. split; [now apply NoDup_tallyAdd|].
    intros c. rewrite tallyOf_tallyAdd, ofCategory_snoc.
    destruct (Category_eqb (category e) c) eqn:E.
    + apply Category_eqb_eq in E. subst c.
      rewrite monthTotal_snoc, IH.
      destruct (ofCategory (category e) l); reflexivity.
    + rewrite app_nil_r. apply IH.
Qed.

Lemma In_firstn {A} (n : nat) (l : list A) (x : A) : In x (firstn n l) -> In x l.
Proof.
  revert n. induction l as [| y l IH]; intros [| n]; simpl; try tauto.
  intros [-> | Hin]; eauto.
Qed.

Lemma NoDup_firstn {A} (n : nat) (l : list A) : NoDup l -> NoDup (firstn n l).
Proof.
  revert n. induction l as [| x l IH]; intros [| n] H; simpl; try constructor.
  - inversion H as [| ? ? Hx Hl]; subst. intros Hin. apply Hx.
    now apply In_firstn in Hin.
  - inversion H; subst. now apply IH.
Qed.

(** X13. The top categories name each category at most once, and only
    categories that have a record in the list; the sum beside a category
    is the total of the records of that category, added in the order of
    the list. A category with a record is left out only when three
    others are shown. *)
Theorem topCategories_entries (l : list Expense) :
  NoDup (map fst (topCategories l))
  /\ (forall c v, In (c, v) (topCategories l) ->
        ofCategory c l <> [] /\ v = monthTotal (ofCategory c l))
  /\ (forall c, ofCategory c l <> [] ->
        In (c, monthTotal (ofCategory c l)) (topCategories l)
        \/ List.length (topCategories l) = 3%nat).
Proof.
  destruct (tally_spec l) as [Hnd Hsum]. unfold topCategories, slice0.
  set (cmp := (fun x y : Category * number => snd y - snd x)%float).
  assert (Hperm : Permutation (sort cmp (tally l)) (tally l)) by apply sort_perm.
  assert (Hnd' : NoDup (map fst (sort cmp (tally l)))).
  { eapply Permutation_NoDup; [|exact Hnd].
    apply Permutation_map, Permutation_sym, Hperm. }
  split; [|split].
  - rewrite <- firstn_map. now apply NoDup_firstn.
  - intros c v Hin. apply In_firstn, sort_In in Hin.
    apply (In_tallyOf c v _ Hnd) in Hin. rewrite Hsum in Hin.
    destruct (ofCategory c l); [discriminate|].
    split; [discriminate | congruence].
  - intros c Hc.
    assert (Hin : In (c, monthTotal (ofCategory c l)) (sort cmp (tally l))).
    { apply sort_In, (In_tallyOf _ _ _ Hnd). rewrite Hsum.
      destruct (ofCategory c l); [contradiction | reflexivity]. }
    destruct (Nat.le_gt_cases (List.length (sort cmp (tally l))) 3) as [Hle | Hgt].
    + left. now rewrite firstn_all2.
    + right. rewrite length_firstn. apply Nat.min_l, Nat.lt_le_incl, Hgt.
Qed.

Lemma StronglySorted_app_inv {A} (R : A -> A -> Prop) (a b : list A) :
  StronglySorted R (a ++ b) -> forall x y, In x a -> In y b -> R x y.
Proof.
  induction a as [| z a IH]; simpl; intros H x y Hx Hy; [destruct Hx|].
  inversion H as [| ? ? Hs Hz]; subst. destruct Hx as [-> | Hx].
  - rewrite Forall_forall in Hz. apply Hz, in_or_app. now right.
  - now apply IH.
Qed.

Lemma In_firstn_skipn {A} (n : nat) (l : list A) (x : A) :
  In x l -> In x (firstn n l) \/ In x (skipn n l).
Proof. intros H. rewrite <- (firstn_skipn n l) in H. now apply in_app_or. Qed.

(** X14. When the amounts are at least 0, a category that has records and
    is not among the top categories has a total that is not above any of
    the three totals shown. *)
Theorem topCategories_largest (l : list Expense) (c : Category) :
  Forall (fun e => nonNegative (amount e)) l ->
  ofCategory c l <> [] ->
  ~ In c (map fst (topCategories l)) ->
  List.length (topCategories l) = 3%nat
  /\ Forall (fun p => sumAtLeast p (c, monthTotal (ofCategory c l)))
            (topCategories l).
Proof.
  intros Hn Hc Hout.
  destruct (tally_spec l) as [Hnd Hsum]. unfold topCategories, slice0 in *.
  set (cmp := (fun x y : Category * number => snd y - snd x)%float) in *.
  set (S := sort cmp (tally l)) in *.
  assert (Hin : In (c, monthTotal (ofCategory c l)) S).
  { apply sort_In, (In_tallyOf _ _ _ Hnd). rewrite Hsum.
    destruct (ofCategory c l); [contradiction | reflexivity]. }
  assert (Hsk : In (c, monthTotal (ofCategory c l)) (skipn 3 S)).
  { destruct (In_firstn_skipn 3 S _ Hin) as [Hf | Hs]; [|exact Hs].
    exfalso. apply Hout. now apply (in_map fst) in Hf. }
  assert (Hsorted : StronglySorted sumAtLeast S).
  { apply Sorted_StronglySorted.
    - intros x y z Hxy Hyz. unfold sumAtLeast in *. now apply (leb_trans _ (snd y)).
    - pose proof (tally_nonNegative l Hn) as Hp. rewrite Forall_forall in Hp.
      apply sort_Sorted; intros x y Hx Hy; unfold sortsAfter, sumAtLeast, cmp;
        rewrite sub_positive_iff_lt; intros Hlt.
      + apply leb_of_not_ltb; [apply leb_refl_of_nonneg, Hp, Hx
                              | apply leb_refl_of_nonneg, Hp, Hy | exact Hlt].
      + now apply leb_of_ltb. }
  split.
  - rewrite length_firstn. apply Nat.min_l.
    destruct (Nat.le_gt_cases 3 (List.length S)) as [Hle | Hgt]; [exact Hle|].
    rewrite skipn_all2 in Hsk by (apply Nat.lt_le_incl, Hgt). destruct Hsk.
  - rewrite <- (firstn_skipn 3 S) in Hsorted. apply Forall_forall.
    intros p Hp. now apply (StronglySorted_app_inv _ _ _ Hsorted).
Qed.

(** ** The month that the load effect selects *)

Lemma sort_store_Sorted (h : Host) (l : list Expense) :
  Sorted (notOlder h) (sort (byDateDescending h) l).
Proof.
  apply sort_Sorted; intros x y _ _; rewrite sortsAfter_byDate; intros H.
  - exact H.
  - now apply ltb_asym.
Qed.

Lemma notOlder_refl (h : Host) (e : Expense) : dated h e -> notOlder h e e.
Proof.
  intros [t Ht]. unfold notOlder, timeOf. rewrite Ht. simpl.
  apply DateOfString_bound in Ht. rewrite ofZ_ltb by assumption.
  apply Z.ltb_irrefl.
Qed.

(** X15. Loading a stored list of records with readable dates selects the
    month of a latest record: the load effect sets the list to the stored
    one and the active month to the month of a record that none of the
    list is newer than. *)
Theorem load_selects_latest_month (h : Host) (randomUUID : option (nat -> string))
    (now : Z) (store : list Expense) :
  Forall (fun e => storable (amount e)) store ->
  Forall (dated h) store ->
  store <> [] ->
  exists latest,
    In latest store
    /\ Forall (notOlder h latest) store
    /\ loadEffect h randomUUID now (persistEffect store)
       = Returns {| setExpenses := Some store;
                    setActiveMonthKey := Some (monthKeyOf h latest);
                    storageAfterLoad := persistEffect store |}.
Proof.
  intros Hst Hd Hne.
  unfold loadEffect, persistEffect, JSON_stringify.
  rewrite (classify_stringified store Hst).
  set (S := sort (byDateDescending h) store).
  assert (HdS : Forall (dated h) S).
  { rewrite Forall_forall in *. intros e He. apply Hd. now apply sort_In in He. }
  pose proof (Sorted_StronglySorted_dated h S HdS (sort_store_Sorted h store)) as Hs.
  destruct S as [| latest rest] eqn:ES.
  - exfalso. apply Hne. apply length_zero_iff_nil.
    rewrite <- (sort_length (byDateDescending h)). fold S. now rewrite ES.
  - exists latest.
    assert (Hin : forall e, In e store <-> In e (latest :: rest)).
    { intros e. rewrite <- ES. unfold S. symmetry. apply sort_In. }
    split; [apply Hin; simpl; auto|]. split; [|reflexivity].
    inversion Hs as [| ? ? _ Hl]; subst. inversion HdS as [| ? ? Dl _]; subst.
    rewrite Forall_forall in *. intros e He. apply Hin in He.
    destruct He as [<- | He]; [now apply notOlder_refl | now apply Hl].
Qed.

(** ** Exact sums and differences of integers *)

Lemma shr_1_even (M : Z) :
  shr_1 {| shr_m := 2 * M; shr_r := false; shr_s := false |}
  = {| shr_m := M; shr_r := false; shr_s := false |}.
Proof. destruct M; reflexivity. Qed.

Lemma shr_iter_exact (n : nat) (M : Z) :
  Nat.iter n shr_1 {| shr_m := M * 2 ^ Z.of_nat n; shr_r := false; shr_s := false |}
  = {| shr_m := M; shr_r := false; shr_s := false |}.
Proof.
  revert M. induction n as [| n IH]; intros M.
  - simpl. now rewrite Z.mul_1_r.
  - rewrite Nat2Z.inj_succ, Z.pow_succ_r by lia. rewrite Nat.iter_succ.
    replace (M * (2 * 2 ^ Z.of_nat n)) with (2 * M * 2 ^ Z.of_nat n) by lia.
    rewrite IH. apply shr_1_even.
Qed.

(** Rounding [M * 2^j] at the exponent [-j], for an integer [M] below
    2^53, gives the number of mantissa [M * 2^k] and exponent [-k] with
    [k = 53 - digits M]: the integer itself. *)
Lemma binary_round_exact (s : bool) (m M : positive) (j : Z) :
  0 <= j -> Zpos m = Zpos M * 2 ^ j -> Zpos M < 2 ^ 53 ->
  exists mz, Zpos mz = Zpos M * 2 ^ (53 - Zpos (digits2_pos M))
             /\ 0 <= 53 - Zpos (digits2_pos M)
             /\ binary_round prec emax s m (- j)
                = S754_finite s mz (- (53 - Zpos (digits2_pos M)))
             /\ bounded prec emax mz (- (53 - Zpos (digits2_pos M))) = true.
Proof.
  intros Hj Hm HM. set (d := Zpos (digits2_pos M)). set (k := 53 - d).
  pose proof (digits2_pos_bounds M) as [Dlo Dhi]. fold d in Dlo, Dhi.
  assert (Hd : 1 <= d <= 53).
  { split; [unfold d; lia|].
    destruct (Z.leb_spec d 53); [assumption|].
    assert (2 ^ 53 <= 2 ^ (d - 1)) by (apply Z.pow_le_mono_r; lia). lia. }
  assert (P2 : forall n, 0 <= n -> 0 < 2 ^ n) by (intros; apply Z.pow_pos_nonneg; lia).
  assert (Hdm : Zpos (digits2_pos m) = d + j).
  { apply digits2_pos_unique. rewrite Hm. split.
    - replace (d + j - 1) with (d - 1 + j) by lia. rewrite Z.pow_add_r by lia.
      apply Z.mul_le_mono_nonneg_r; [specialize (P2 j Hj)|]; lia.
    - rewrite Z.pow_add_r by lia. apply Z.mul_lt_mono_pos_r; [apply P2|]; lia. }
  set (mz := fst (shl_align M 0 (- k))).
  assert (Hmz : Zpos mz = Zpos M * 2 ^ k).
  { unfold mz. rewrite shl_align_value by (unfold k; lia). f_equal. f_equal. lia. }
  assert (Hdz : Zpos (digits2_pos mz) = 53).
  { apply digits2_pos_unique. rewrite Hmz. split.
    - replace (53 - 1) with (d - 1 + k) by (unfold k; lia).
      rewrite Z.pow_add_r by (unfold k; lia).
      apply Z.mul_le_mono_nonneg_r; [specialize (P2 k)|]; unfold k in *; lia.
    - replace (2 ^ 53) with (2 ^ (d + k)) by (f_equal; unfold k; lia).
      rewrite Z.pow_add_r by (unfold k; lia).
      apply Z.mul_lt_mono_pos_r; [apply P2; unfold k|]; lia. }
  exists mz. split; [exact Hmz|]. split; [unfold k; lia|].
  assert (Hsh : shr_fexp prec emax (Zpos mz) (- k) loc_Exact
                = ({| shr_m := Zpos mz; shr_r := false; shr_s := false |}, - k)).
  { unfold shr_fexp, shr, fexp, SpecFloat.emin, prec, emax.
    simpl Zdigits2. rewrite Hdz.
    replace (Z.max (53 + - k - 53) (3 - 1024 - 53) - - k) with 0 by (unfold k; lia).
    reflexivity. }
  assert (Haux : binary_round_aux prec emax s (Zpos mz) (- k) loc_Exact
                 = S754_finite s mz (- k)).
  { unfold binary_round_aux. rewrite Hsh. simpl round_nearest_even. rewrite Hsh.
    simpl shr_m. unfold emax, prec.
    destruct (Z.leb_spec (- k) (1024 - 53)); [reflexivity | unfold k in *; lia]. }
  assert (Hf : fexp prec emax (Zpos (digits2_pos m) + - j) = - k).
  { rewrite Hdm. unfold fexp, SpecFloat.emin, prec, emax, k. lia. }
  split.
  - unfold binary_round. rewrite Hf. unfold shl_align.
    destruct (- k - - j) as [| p | p] eqn:E.
    + (* j = k *)
      replace (- j) with (- k) by lia.
      assert (m = mz) as -> by (apply Pos2Z.inj; rewrite Hmz, Hm; f_equal; f_equal; lia).
      exact Haux.
    + (* k < j: the mantissa is shifted to the right *)
      unfold binary_round_aux.
      assert (Hs1 : shr_fexp prec emax (Zpos m) (- j) loc_Exact
                    = ({| shr_m := Zpos mz; shr_r := false; shr_s := false |}, - k)).
      { unfold shr_fexp, shr. simpl Zdigits2. rewrite Hf, E.
        simpl shr_record_of_loc. rewrite iter_pos_nat.
        replace (Zpos m) with (Zpos mz * 2 ^ Z.of_nat (Pos.to_nat p)).
        - rewrite shr_iter_exact. f_equal. lia.
        - rewrite positive_nat_Z, Hmz, Hm, <- Z.mul_assoc, <- Z.pow_add_r by (unfold k; lia).
          f_equal. f_equal. lia. }
      rewrite Hs1. simpl round_nearest_even. rewrite Hsh.
      simpl shr_m. unfold emax, prec.
      destruct (Z.leb_spec (- k) (1024 - 53)); [reflexivity | unfold k in *; lia].
    + (* j < k: the mantissa is shifted to the left *)
      assert (Pos.iter xO m p = mz) as ->.
      { apply Pos2Z.inj. rewrite Pos_iter_xO, Hmz, Hm, <- Z.mul_assoc.
        rewrite <- Z.pow_add_r by lia. f_equal. f_equal. lia. }
      exact Haux.
  - unfold bounded, canonical_mantissa, fexp, SpecFloat.emin, prec, emax.
    rewrite Hdz. apply andb_true_intro. split.
    + apply Z.eqb_eq. unfold k; lia.
    + apply Z.leb_le. unfold k; lia.
Qed.

Lemma binary_normalize_scaled (a j : Z) :
  0 <= j -> Z.abs a < 2 ^ 53 ->
  binary_normalize prec emax (a * 2 ^ j) (- j) false
  = binary_normalize prec emax a 0 false
  /\ valid_binary (binary_normalize prec emax a 0 false) = true.
Proof.
  intros Hj Ha.
  assert (P : 0 < 2 ^ j) by (apply Z.pow_pos_nonneg; lia).
  destruct a as [| M | M].
  - split; reflexivity.
  - destruct (Zpos M * 2 ^ j) as [| m | m] eqn:E; try lia.
    simpl binary_normalize.
    destruct (binary_round_exact false m M j Hj (eq_sym E) Ha) as (mz & Hmz & _ & -> & Hb).
    destruct (binary_round_exact false M M 0 ltac:(lia) (eq_sym (Z.mul_1_r (Zpos M))) Ha)
      as (mz' & Hmz' & _ & R & _).
    change (- 0) with 0 in R. rewrite R.
    assert (mz = mz') as -> by (apply Pos2Z.inj; congruence).
    split; [reflexivity | exact Hb].
  - assert (E' : Zneg M * 2 ^ j = - (Zpos M * 2 ^ j)) by lia.
    destruct (Zpos M * 2 ^ j) as [| m | m] eqn:E; try lia.
    rewrite E'. simpl Z.opp. simpl binary_normalize.
    destruct (binary_round_exact true m M j Hj (eq_sym E) Ha) as (mz & Hmz & _ & -> & Hb).
    destruct (binary_round_exact true M M 0 ltac:(lia) (eq_sym (Z.mul_1_r (Zpos M))) Ha)
      as (mz' & Hmz' & _ & R & _).
    change (- 0) with 0 in R. rewrite R.
    assert (mz = mz') as -> by (apply Pos2Z.inj; congruence).
    split; [reflexivity | exact Hb].
Qed.

Lemma Prim2SF_ofZ_normalize (z : Z) :
  Z.abs z < 2 ^ 53 -> Prim2SF (ofZ z) = binary_normalize prec emax z 0 false.
Proof.
  intros Hz. unfold ofZ, binary64. apply Prim2SF_SF2Prim.
  now apply (binary_normalize_scaled z 0).
Qed.

Lemma binary_normalize_opp (z : Z) :
  z <> 0 -> Z.abs z < 2 ^ 53 ->
  binary_normalize prec emax (- z) 0 false
  = SFopp (binary_normalize prec emax z 0 false).
Proof.
  intros Hz Hb. destruct z as [| M | M]; [congruence | |]; simpl Z.opp;
    simpl binary_normalize.
  - destruct (binary_round_exact true M M 0 ltac:(lia)
                (eq_sym (Z.mul_1_r (Zpos M))) Hb) as (mz & Hmz & _ & R & _).
    destruct (binary_round_exact false M M 0 ltac:(lia)
                (eq_sym (Z.mul_1_r (Zpos M))) Hb) as (mz' & Hmz' & _ & R' & _).
    change (- 0) with 0 in R, R'. rewrite R, R'.
    assert (mz = mz') as -> by (apply Pos2Z.inj; congruence). reflexivity.
  - destruct (binary_round_exact true M M 0 ltac:(lia)
                (eq_sym (Z.mul_1_r (Zpos M))) Hb) as (mz & Hmz & _ & R & _).
    destruct (binary_round_exact false M M 0 ltac:(lia)
                (eq_sym (Z.mul_1_r (Zpos M))) Hb) as (mz' & Hmz' & _ & R' & _).
    change (- 0) with 0 in R, R'. rewrite R, R'.
    assert (mz = mz') as -> by (apply Pos2Z.inj; congruence). reflexivity.
Qed.

Lemma aligned_integer (z : Z) (mz : positive) (k ez : Z) :
  Zpos mz = Z.abs z * 2 ^ k -> 0 <= k -> ez <= - k ->
  cond_Zopp (z <? 0) (Zpos (fst (shl_align mz (- k) ez))) = z * 2 ^ (- ez).
Proof.
  intros Hmz Hk Hez. rewrite shl_align_value by lia.
  rewrite Hmz, <- Z.mul_assoc, <- Z.pow_add_r by lia.
  replace (k + (- k - ez)) with (- ez) by lia.
  unfold cond_Zopp. destruct (Z.ltb_spec z 0); [|rewrite Z.abs_eq by lia; reflexivity].
  rewrite Z.abs_neq by lia. lia.
Qed.

(** The difference of two integers below 2^53 is exact when it is below
    2^53. *)
Theorem ofZ_sub (a b : Z) :
  Z.abs a < 2 ^ 53 -> Z.abs b < 2 ^ 53 -> Z.abs (a - b) < 2 ^ 53 ->
  (ofZ a - ofZ b)%float = ofZ (a - b).
Proof.
  intros Ha Hb Hab. apply Prim2SF_inj.
  rewrite sub_spec, (Prim2SF_ofZ_normalize (a - b) Hab).
  destruct (Z.eq_dec b 0) as [-> | Hnb].
  - rewrite Z.sub_0_r, (Prim2SF_ofZ_normalize a Ha).
    change (Prim2SF (ofZ 0)) with (S754_zero false).
    destruct (Z.eq_dec a 0) as [-> | Hna]; [reflexivity|].
    destruct (Prim2SF_ofZ a Hna Ha) as (ma & ka & _ & _ & E & _).
    rewrite (Prim2SF_ofZ_normalize a Ha) in E. rewrite E. reflexivity.
  - destruct (Prim2SF_ofZ b Hnb Hb) as (mb & kb & Hmb & Hkb & Eb & Hbb).
    destruct (Z.eq_dec a 0) as [-> | Hna].
    + change (Prim2SF (ofZ 0)) with (S754_zero false). rewrite Eb.
      replace (0 - b) with (- b) by lia.
      rewrite (binary_normalize_opp b Hnb Hb).
      rewrite <- (Prim2SF_ofZ_normalize b Hb), Eb. reflexivity.
    + destruct (Prim2SF_ofZ a Hna Ha) as (ma & ka & Hma & Hka & Ea & Hba).
      rewrite Ea, Eb. unfold SF64sub, SFsub. cbv zeta.
      set (ez := Z.min (- ka) (- kb)).
      assert (Hez : ez <= - ka /\ ez <= - kb /\ ez <= 0) by (unfold ez; lia).
      rewrite (aligned_integer a ma ka ez Hma Hka) by lia.
      rewrite (aligned_integer b mb kb ez Hmb Hkb) by lia.
      rewrite <- Z.mul_sub_distr_r.
      replace ez with (- (- ez)) at 2 by lia.
      now apply (binary_normalize_scaled (a - b) (- ez)); [lia|].
Qed.

(** The sum of two integers below 2^53 is exact when it is below 2^53. *)
Theorem ofZ_add (a b : Z) :
  Z.abs a < 2 ^ 53 -> Z.abs b < 2 ^ 53 -> Z.abs (a + b) < 2 ^ 53 ->
  (ofZ a + ofZ b)%float = ofZ (a + b).
Proof.
  intros Ha Hb Hab. apply Prim2SF_inj.
  rewrite add_spec, (Prim2SF_ofZ_normalize (a + b) Hab).
  destruct (Z.eq_dec b 0) as [-> | Hnb].
  - rewrite Z.add_0_r, (Prim2SF_ofZ_normalize a Ha).
    change (Prim2SF (ofZ 0)) with (S754_zero false).
    destruct (Z.eq_dec a 0) as [-> | Hna]; [reflexivity|].
    destruct (Prim2SF_ofZ a Hna Ha) as (ma & ka & _ & _ & E & _).
    rewrite (Prim2SF_ofZ_normalize a Ha) in E. rewrite E. reflexivity.
  - destruct (Prim2SF_ofZ b Hnb Hb) as (mb & kb & Hmb & Hkb & Eb & Hbb).
    destruct (Z.eq_dec a 0) as [-> | Hna].
    + change (Prim2SF (ofZ 0)) with (S754_zero false). rewrite Eb.
      rewrite Z.add_0_l, <- (Prim2SF_ofZ_normalize b Hb), Eb. reflexivity.
    + destruct (Prim2SF_ofZ a Hna Ha) as (ma & ka & Hma & Hka & Ea & Hba).
      rewrite Ea, Eb. unfold SF64add, SFadd. cbv zeta.
      set (ez := Z.min (- ka) (- kb)).
      assert (Hez : ez <= - ka /\ ez <= - kb /\ ez <= 0) by (unfold ez; lia).
      rewrite (aligned_integer a ma ka ez Hma Hka) by lia.
      rewrite (aligned_integer b mb kb ez Hmb Hkb) by lia.
      rewrite <- Z.mul_add_distr_r.
      replace ez with (- (- ez)) at 2 by lia.
      now apply (binary_normalize_scaled (a + b) (- ez)); [lia|].
Qed.

(** ** The local date of a time *)

Lemma forallb_rangeZ (P : Z -> bool) (lo : Z) (n : nat) :
  forallb P (rangeZ lo n) = true ->
  forall z, lo <= z < lo + Z.of_nat n -> P z = true.
Proof.
  intros H z Hz. rewrite forallb_forall in H. apply H. unfold rangeZ.
  apply in_map_iff. exists (Z.to_nat (z - lo)). split; [lia|].
  apply in_seq. lia.
Qed.

Lemma sameNumber_eq (x y : number) : sameNumber x y = true -> x = y.
Proof.
  unfold sameNumber. intros H. apply Prim2SF_inj.
  destruct (Prim2SF x) as [a | a | | s m e], (Prim2SF y) as [b | b | | s' m' e'];
    try discriminate; try reflexivity.
  - now apply Bool.eqb_prop in H; subst.
  - now apply Bool.eqb_prop in H; subst.
  - apply andb_prop in H. destruct H as [H He]. apply andb_prop in H.
    destruct H as [Hs Hm]. apply Bool.eqb_prop in Hs. apply Pos.eqb_eq in Hm.
    apply Z.eqb_eq in He. now subst.
Qed.

(** The offset of a zone of whole minutes, in minutes, times 60000 is the
    offset in milliseconds. *)
Lemma offset_in_ms (k : Z) :
  -1440 <= k <= 1440 ->
  (ofZ (- (msPerMinute * k)) / ofZ msPerMinute * 60000)%float
  = ofZ (- (msPerMinute * k)).
Proof.
  intros Hk. apply sameNumber_eq.
  apply (forallb_rangeZ
           (fun k => sameNumber
                       (ofZ (- (msPerMinute * k)) / ofZ msPerMinute * 60000)%float
                       (ofZ (- (msPerMinute * k))))
           (-1440) 2881); [vm_compute; reflexivity | lia].
Qed.

Lemma toLocalDateInput_local (h : Host) (t : Z) :
  wholeMinuteZone h -> Z.abs t <= 8640000000000000 ->
  toLocalDateInput h (Some t) = toISOStringDate (TimeClip (LocalTime h t)).
Proof.
  intros [Hz [k Hk]] Ht. unfold toLocalDateInput, getTimezoneOffset, getTime.
  unfold LocalTime.
  replace (t - (t + LocalTZA h)) with (- (msPerMinute * k)) by lia.
  unfold msPerDay in Hz.
  rewrite (offset_in_ms k) by (unfold msPerMinute in Hk; lia).
  unfold msPerMinute in *.
  rewrite ofZ_sub by (change (2 ^ 53) with 9007199254740992; lia).
  unfold DateOfNumber.
  rewrite truncate_ofZ by (change (2 ^ 53) with 9007199254740992; lia).
  do 2 f_equal. lia.
Qed.

Lemma YearFromDay_sound (d : Z) :
  DayFromYear (YearFromDay d) <= d < DayFromYear (YearFromDay d + 1).
Proof.
  set (e := 1970 + d * 400 / 146097).
  assert (Hlo : DayFromYear (e - 1) <= d).
  { unfold e, DayFromYear. Z.div_mod_to_equations. lia. }
  assert (Hhi : d < DayFromYear (e + 1 + 1)).
  { unfold e, DayFromYear. Z.div_mod_to_equations. lia. }
  assert (Hy : exists y, DayFromYear y <= d < DayFromYear (y + 1)).
  { destruct (Z.le_gt_cases (DayFromYear (e + 1)) d).
    - exists (e + 1). lia.
    - destruct (Z.le_gt_cases (DayFromYear e) d).
      + exists e. lia.
      + exists (e - 1). replace (e - 1 + 1) with e by lia. lia. }
  destruct Hy as [y Hy]. now rewrite (YearFromDay_correct y d Hy).
Qed.

Ltac next_month :=
  change (0 + 1) with 1 in *; change (1 + 1) with 2 in *;
  change (2 + 1) with 3 in *; change (3 + 1) with 4 in *;
  change (4 + 1) with 5 in *; change (5 + 1) with 6 in *;
  change (6 + 1) with 7 in *; change (7 + 1) with 8 in *;
  change (8 + 1) with 9 in *; change (9 + 1) with 10 in *;
  change (10 + 1) with 11 in *; change (11 + 1) with 12 in *.

(** The fields of a time are a day of a month of a year, and name the day
    of the time. *)
Lemma fields_of_time (t : Z) :
  0 <= MonthFromTime t <= 11
  /\ 1 <= DateFromTime t <= daysInMonth (YearFromTime t) (MonthFromTime t + 1)
  /\ MakeDay (YearFromTime t) (MonthFromTime t) (DateFromTime t) = Day t.
Proof.
  pose proof (YearFromDay_sound (Day t)) as Hy.
  rewrite DayFromYear_succ in Hy. fold (YearFromTime t) in Hy.
  set (y := YearFromTime t) in *.
  set (L := if isLeapYear y then 1 else 0).
  assert (HL : DaysInYear y = 365 + L /\ 0 <= L <= 1 /\ daysInMonth y 2 = 28 + L).
  { unfold DaysInYear, daysInMonth, L. destruct (isLeapYear y); lia. }
  destruct HL as (HL1 & HL2 & HL3). rewrite HL1 in Hy.
  assert (Hw : 0 <= DayWithinYear t < 365 + L) by (unfold DayWithinYear; fold y; lia).
  assert (HI : InLeapYear t = L) by reflexivity.
  pose proof (MonthFromTime_range t) as Hm.
  assert (Hd : monthStart L (MonthFromTime t) <= DayWithinYear t
               < monthStart L (MonthFromTime t + 1)).
  { unfold MonthFromTime. rewrite HI.
    split_ltb; next_month; unfold monthStart; lia. }
  split; [exact Hm|]. split.
  - unfold DateFromTime. rewrite HI.
    set (m := MonthFromTime t) in *. clearbody m.
    month_cases m; next_month;
      try rewrite HL3; unfold monthStart, daysInMonth in *; lia.
  - unfold MakeDay, DateFromTime. rewrite HI.
    rewrite Z.div_small, Z.mod_small by lia. rewrite Z.add_0_r. fold L.
    unfold DayWithinYear. fold y. lia.
Qed.

(** ** Dates as text *)

Lemma fourDigits_year (y : Z) :
  0 <= y <= 9999 -> fourDigits (padStart 4 (digitsOfZ y)) = Some y.
Proof.
  intros Hy.
  pose (P := fun y => match fourDigits (padStart 4 (digitsOfZ y)) with
                      | Some v => v =? y
                      | None => false
                      end).
  assert (H : P y = true).
  { apply (forallb_rangeZ P 0 (Z.to_nat 10000)); [vm_compute; reflexivity | lia]. }
  unfold P in H. destruct (fourDigits (padStart 4 (digitsOfZ y))); [|discriminate].
  apply Z.eqb_eq in H. now subst.
Qed.

Lemma twoDigits_field (m : Z) :
  0 <= m <= 99 -> twoDigits (padStart 2 (digitsOfZ m)) = Some m.
Proof.
  intros Hm.
  pose (P := fun m => match twoDigits (padStart 2 (digitsOfZ m)) with
                      | Some v => v =? m
                      | None => false
                      end).
  assert (H : P m = true).
  { apply (forallb_rangeZ P 0 100); [vm_compute; reflexivity | lia]. }
  unfold P in H. destruct (twoDigits (padStart 2 (digitsOfZ m))); [|discriminate].
  apply Z.eqb_eq in H. now subst.
Qed.

Lemma parseDateOnly_fields (ys ms ds : string) (y m d : Z) :
  fourDigits ys = Some y -> twoDigits ms = Some m -> twoDigits ds = Some d ->
  parseDateOnly (ys ++ "-" ++ ms ++ "-" ++ ds)
  = if (1 <=? m) && (m <=? 12) && (1 <=? d) && (d <=? daysInMonth y m)
    then Some (MakeDate (MakeDay y (m - 1) d) 0) else None.
Proof.
  intros Hy Hm Hd.
  destruct ys as [| y1 [| y2 [| y3 [| y4 [| ? ?]]]]]; try discriminate.
  destruct ms as [| m1 [| m2 [| ? ?]]]; try discriminate.
  destruct ds as [| d1 [| d2 [| ? ?]]]; try discriminate.
  cbn [append]. unfold parseDateOnly. rewrite Hm, Hd.
  unfold fourDigits in Hy.
  destruct (isDigit y1 && isDigit y2 && isDigit y3 && isDigit y4); [|discriminate].
  injection Hy as ->. reflexivity.
Qed.

(** Reading the text of a date gives midnight UTC of that date. *)
Lemma parseDateOnly_isoDate (y m d : Z) :
  0 <= y <= 9999 -> 1 <= m <= 12 -> 1 <= d <= daysInMonth y m ->
  parseDateOnly (isoDate y m d) = Some (MakeDate (MakeDay y (m - 1) d) 0).
Proof.
  intros Hy Hm Hd. unfold isoDate.
  assert (Hd' : d <= 31) by (destruct (daysInMonth_cases y m) as [E | [E | [E | E]]]; lia).
  rewrite (parseDateOnly_fields _ _ _ y m d (fourDigits_year y Hy)
             (twoDigits_field m ltac:(lia)) (twoDigits_field d ltac:(lia))).
  destruct (Z.leb_spec 1 m); [|lia]. destruct (Z.leb_spec m 12); [|lia].
  destruct (Z.leb_spec 1 d); [|lia]. destruct (Z.leb_spec d (daysInMonth y m)); [|lia].
  reflexivity.
Qed.

Lemma TimeClip_day (y D : Z) :
  1 <= y <= 275759 -> DayFromYear y <= D < DayFromYear (y + 1) ->
  forall r, Z.abs r <= msPerDay -> TimeClip (MakeDate D 0 + r) = Some (MakeDate D 0 + r).
Proof.
  intros Hy HD r Hr. unfold TimeClip, MakeDate, msPerDay in *.
  pose proof (DayFromYear_range y ltac:(lia)).
  pose proof (DayFromYear_range (y + 1) ltac:(lia)).
  destruct (Z.leb_spec (Z.abs (D * 86400000 + 0 + r)) 8640000000000000);
    [reflexivity | lia].
Qed.

(** [new Date(s)] for the text of a date. *)
Lemma DateOfString_isoDate (h : Host) (y m d : Z) :
  1 <= y <= 9999 -> 1 <= m <= 12 -> 1 <= d <= daysInMonth y m ->
  DateOfString h (isoDate y m d) = Some (MakeDate (MakeDay y (m - 1) d) 0).
Proof.
  intros Hy Hm Hd. unfold DateOfString.
  rewrite parseDateOnly_isoDate by lia.
  pose proof (MakeDay_range y (m - 1) d ltac:(lia)) as HD.
  replace (m - 1 + 1) with m in HD by lia. specialize (HD Hd).
  pose proof (TimeClip_day y _ ltac:(lia) HD 0 ltac:(unfold msPerDay; lia)) as Hc.
  now rewrite Z.add_0_r in Hc.
Qed.

(** The date part of [toISOString] for a time in the years 1 to 9999. *)
Lemma toISOStringDate_fields (t : Z) :
  1 <= YearFromTime t <= 9999 ->
  TimeClip t = Some t
  /\ toISOStringDate (Some t)
     = Some (isoDate (YearFromTime t) (MonthFromTime t + 1) (DateFromTime t)).
Proof.
  intros Hy. split.
  - pose proof (YearFromDay_sound (Day t)) as HD. fold (YearFromTime t) in HD.
    pose proof (TimeClip_day (YearFromTime t) (Day t) ltac:(lia) HD
                  (TimeWithinDay t)) as Hc.
    unfold MakeDate, Day, TimeWithinDay, msPerDay in Hc.
    replace (t / 86400000 * 86400000 + 0 + t mod 86400000) with t in Hc
      by (Z.div_mod_to_equations; lia).
    apply Hc. Z.div_mod_to_equations. lia.
  - unfold toISOStringDate, isoDate.
    destruct (Z.leb_spec 0 (YearFromTime t)); [|lia].
    destruct (Z.leb_spec (YearFromTime t) 9999); [|lia]. reflexivity.
Qed.

(** ** The month of a date *)

Lemma fields_by_day (t t' : Z) :
  Day t = Day t' ->
  YearFromTime t = YearFromTime t' /\ MonthFromTime t = MonthFromTime t'.
Proof.
  intros E.
  assert (Ey : YearFromTime t = YearFromTime t') by (unfold YearFromTime; now rewrite E).
  split; [exact Ey|].
  unfold MonthFromTime, DayWithinYear, InLeapYear. now rewrite E, Ey.
Qed.

(** The key of a time whose local day is day [d] of month [m] (0 to 11)
    of year [y]. *)
Lemma getMonthKey_of_day (h : Host) (t y m d : Z) :
  Z.abs y < 2 ^ 53 -> 0 <= m <= 11 -> 1 <= d <= daysInMonth y (m + 1) ->
  Day (LocalTime h t) = MakeDay y m d ->
  getMonthKey h (Some t) = monthKey y (m + 1).
Proof.
  intros Hy Hm Hd E.
  destruct (fields_of_MakeDay y m d Hm Hd) as (Fy & Fm & _).
  destruct (fields_by_day (LocalTime h t) (MakeDate (MakeDay y m d) 0)) as [Ey Em].
  { now rewrite Day_MakeDate. }
  unfold getMonthKey, getFullYear, getMonth. rewrite Ey, Em, Fy, Fm.
  unfold monthKey. f_equal; [|f_equal].
  - unfold integerToString. now rewrite truncate_ofZ.
  - month_cases m; reflexivity.
Qed.

Lemma Day_of_midnight (D r : Z) :
  - msPerDay <= r < msPerDay ->
  Day (MakeDate D 0 + r) = if 0 <=? r then D else D - 1.
Proof.
  intros Hr. unfold Day, MakeDate, msPerDay in *.
  destruct (Z.leb_spec 0 r); Z.div_mod_to_equations; lia.
Qed.

Lemma MakeDay_previous_day (y m : Z) :
  1 <= m <= 12 ->
  MakeDay y (m - 1) 1 - 1
  = if m =? 1 then MakeDay (y - 1) 11 31
    else MakeDay y (m - 2) (daysInMonth y (m - 1)).
Proof.
  intros Hm. destruct (Z.eqb_spec m 1) as [-> | Hne].
  - unfold MakeDay. change ((1 - 1) / 12) with 0. change ((1 - 1) mod 12) with 0.
    change (11 / 12) with 0. change (11 mod 12) with 11.
    rewrite !Z.add_0_r. pose proof (DayFromYear_succ (y - 1)) as S.
    replace (y - 1 + 1) with y in S by lia. rewrite S.
    unfold DaysInYear, monthStart. destruct (isLeapYear (y - 1)); lia.
  - replace (m - 2) with (m - 1 - 1) by lia.
    rewrite <- (MakeDay_day_zero y (m - 1)) by lia. unfold MakeDay. lia.
Qed.

(** The key of midnight UTC of a day, taken in local time. *)
Lemma getMonthKey_of_midnight (h : Host) (y m d : Z) :
  - msPerDay <= LocalTZA h < msPerDay ->
  1 <= y <= 9999 -> 1 <= m <= 12 -> 1 <= d <= daysInMonth y m ->
  getMonthKey h (Some (MakeDate (MakeDay y (m - 1) d) 0))
  = if (0 <=? LocalTZA h) || (2 <=? d) then monthKey y m
    else previousMonthKey y m.
Proof.
  intros Hz Hy Hm Hd. unfold previousMonthKey.
  pose proof (Day_of_midnight (MakeDay y (m - 1) d) (LocalTZA h) Hz) as HD.
  fold (LocalTime h (MakeDate (MakeDay y (m - 1) d) 0)) in HD.
  assert (By : forall z, -1 <= z <= 9999 -> Z.abs z < 2 ^ 53)
    by (intros; change (2 ^ 53) with 9007199254740992; lia).
  destruct (Z.leb_spec 0 (LocalTZA h)) as [He | Hw]; simpl orb.
  - replace (monthKey y m) with (monthKey y (m - 1 + 1)) by (f_equal; lia).
    apply (getMonthKey_of_day h _ y (m - 1) d);
      [apply By; lia | lia | now replace (m - 1 + 1) with m by lia | exact HD].
  - destruct (Z.leb_spec 2 d) as [H2 | H1].
    + replace (monthKey y m) with (monthKey y (m - 1 + 1)) by (f_equal; lia).
      apply (getMonthKey_of_day h _ y (m - 1) (d - 1));
        [apply By; lia | lia | replace (m - 1 + 1) with m by lia; lia |].
      rewrite HD. unfold MakeDay. lia.
    + assert (d = 1) as -> by lia.
      rewrite (MakeDay_previous_day y m Hm) in HD.
      destruct (Z.eqb_spec m 1) as [-> | Hne].
      * apply (getMonthKey_of_day h _ (y - 1) 11 31);
          [apply By; lia | lia | | exact HD].
        change (11 + 1) with 12. unfold daysInMonth. lia.
      * replace (monthKey y (m - 1)) with (monthKey y (m - 2 + 1)) by (f_equal; lia).
        apply (getMonthKey_of_day h _ y (m - 2) (daysInMonth y (m - 1)));
          [apply By; lia | lia | | exact HD].
        replace (m - 2 + 1) with (m - 1) by lia.
        destruct (daysInMonth_cases y (m - 1)) as [E | [E | [E | E]]]; lia.
Qed.

(** X16. The month of a record. A date [YYYY-MM-DD] is read as midnight
    UTC, and its month is taken in local time: at or east of UTC, and for
    every day of the month but the first, the key is that of the month
    of the date; west of UTC the first day of a month falls into the
    month before. *)
Theorem month_of_iso_date (h : Host) (e : Expense) (y m d : Z) :
  - msPerDay <= LocalTZA h < msPerDay ->
  1 <= y <= 9999 -> 1 <= m <= 12 -> 1 <= d <= daysInMonth y m ->
  date e = isoDate y m d ->
  monthKeyOf h e
  = if (0 <=? LocalTZA h) || (2 <=? d) then monthKey y m
    else previousMonthKey y m.
Proof.
  intros Hz Hy Hm Hd E. unfold monthKeyOf.
  rewrite E, (DateOfString_isoDate h y m d Hy Hm Hd).
  now apply getMonthKey_of_midnight.
Qed.

(** The active month after an accepted draft dated [YYYY-MM-DD]: the month
    of the date at or east of UTC and on every day but the first, and the
    month before on the first day of a month west of UTC. *)
Lemma create_active_month_of_iso_date (h : Host) (newId : string) (st : State)
    (y m d : Z) :
  accepted (form st) = true ->
  - msPerDay <= LocalTZA h < msPerDay ->
  1 <= y <= 9999 -> 1 <= m <= 12 -> 1 <= d <= daysInMonth y m ->
  form_date (form st) = isoDate y m d ->
  activeMonthKey (handleSubmit h newId st)
  = if (0 <=? LocalTZA h) || (2 <=? d) then monthKey y m
    else previousMonthKey y m.
Proof.
  intros Ha Hz Hy Hm Hd E. rewrite (handleSubmit_accepted h newId st Ha).
  cbn [activeMonthKey]. unfold monthKeyOf. cbn [date newExpenseOf].
  rewrite E, (DateOfString_isoDate h y m d Hy Hm Hd).
  now apply getMonthKey_of_midnight.
Qed.

(** ** The first render and the seed *)

Lemma TimeClip_inv (x t : Z) :
  TimeClip x = Some t -> t = x /\ Z.abs t <= 8640000000000000.
Proof.
  unfold TimeClip. destruct (Z.leb_spec (Z.abs x) 8640000000000000); [|discriminate].
  intros [= <-]. auto.
Qed.

Lemma TimeClip_valid (t : Z) : Z.abs t <= 8640000000000000 -> TimeClip t = Some t.
Proof.
  intros H. unfold TimeClip.
  destruct (Z.leb_spec (Z.abs t) 8640000000000000); [reflexivity | lia].
Qed.

Section LocalDates.
Variable h : Host.
Hypothesis zone : wholeMinuteZone h.

Lemma local_date_text (t : Z) :
  Z.abs t <= 8640000000000000 -> 1 <= localYear h t <= 9999 ->
  toLocalDateInput h (Some t)
  = Some (isoDate (localYear h t) (localMonth h t) (localDay h t)).
Proof.
  intros Ht Hy.
  rewrite (toLocalDateInput_local h t zone Ht).
  destruct (toISOStringDate_fields (LocalTime h t) Hy) as [-> E]. exact E.
Qed.

Lemma local_date_reads_back (t : Z) :
  1 <= localYear h t <= 9999 ->
  DateOfString h (isoDate (localYear h t) (localMonth h t) (localDay h t))
  = Some (MakeDate (Day (LocalTime h t)) 0).
Proof.
  intros Hy. unfold localYear, localMonth, localDay in *.
  destruct (fields_of_time (LocalTime h t)) as (Hm & Hd & E).
  rewrite DateOfString_isoDate by (try lia; exact Hd).
  replace (MonthFromTime (LocalTime h t) + 1 - 1)
    with (MonthFromTime (LocalTime h t)) by lia.
  now rewrite E.
Qed.

(** X17. [toLocalDateInput] writes the local calendar date of a time as
    [YYYY-MM-DD], and [new Date] reads that text back as midnight UTC of
    that local day. *)
Theorem toLocalDateInput_round_trip (t : Z) :
  Z.abs t <= 8640000000000000 -> 1 <= localYear h t <= 9999 ->
  toLocalDateInput h (Some t)
  = Some (isoDate (localYear h t) (localMonth h t) (localDay h t))
  /\ DateOfString h (isoDate (localYear h t) (localMonth h t) (localDay h t))
     = Some (MakeDate (Day (LocalTime h t)) 0).
Proof.
  intros Ht Hy. split; [now apply local_date_text | now apply local_date_reads_back].
Qed.

Lemma getMonthKey_now (t : Z) :
  1 <= localYear h t <= 9999 ->
  getMonthKey h (Some t) = monthKey (localYear h t) (localMonth h t).
Proof.
  intros Hy. unfold localYear, localMonth in *.
  destruct (fields_of_time (LocalTime h t)) as (Hm & Hd & E).
  apply (getMonthKey_of_day h t _ _ (DateFromTime (LocalTime h t)));
    [change (2 ^ 53) with 9007199254740992; lia | exact Hm | exact Hd | now rewrite E].
Qed.

(** X18. The first render. The form starts with the local date of the
    clock and the active month is the local month of the clock. A record
    entered with that date falls into the active month at or east of
    UTC, and on every day but the first of a month; west of UTC, on the
    first of a month, it falls into the month before. *)
Theorem initialState_today (now : Z) :
  Z.abs now <= 8640000000000000 -> 1 <= localYear h now <= 9999 ->
  initialState h now
  = Some {| expenses := [];
            form := {| form_label := ""; form_amount := "";
                       form_category := Housing;
                       form_date := isoDate (localYear h now) (localMonth h now)
                                            (localDay h now) |};
            activeMonthKey := monthKey (localYear h now) (localMonth h now) |}
  /\ getMonthKey h (DateOfString h (isoDate (localYear h now) (localMonth h now)
                                            (localDay h now)))
     = if (0 <=? LocalTZA h) || (2 <=? localDay h now)
       then monthKey (localYear h now) (localMonth h now)
       else previousMonthKey (localYear h now) (localMonth h now).
Proof.
  intros Hnow Hy. split.
  - unfold initialState. rewrite (TimeClip_valid now Hnow).
    rewrite (local_date_text now Hnow Hy), (getMonthKey_now now Hy). reflexivity.
  - unfold localYear, localMonth, localDay in *.
    destruct (fields_of_time (LocalTime h now)) as (Hm & Hd & E).
    rewrite DateOfString_isoDate by (try lia; exact Hd).
    apply getMonthKey_of_midnight; try lia; try exact Hd.
    destruct zone as [Hzone _]. lia.
Qed.
End LocalDates.

Section Seed.
Variable h : Host.
Hypothesis zone : wholeMinuteZone h.
Variable randomUUID : option (nat -> string).
Variable now : Z.
Hypothesis clock : Z.abs now <= 8640000000000000.
Hypothesis year : 100 <= localYear h now <= 9999.

Lemma seed_date (day : number) (d : Z) :
  truncate day = Some d -> 1 <= d <= 28 ->
  toLocalDateInput h (DateOfFields h (getFullYear h (Some now))
                                   (getMonth h (Some now)) day)
  = Some (isoDate (localYear h now) (localMonth h now) d)
  /\ DateOfString h (isoDate (localYear h now) (localMonth h now) d)
     = Some (MakeDate (MakeDay (localYear h now) (localMonth h now - 1) d) 0).
Proof.
  intros Hday Hd. unfold getFullYear, getMonth, localMonth.
  fold (localYear h now).
  set (y := localYear h now) in *. set (m := MonthFromTime (LocalTime h now)).
  replace (m + 1 - 1) with m by lia.
  pose proof (MonthFromTime_range (LocalTime h now)) as Hm. fold m in Hm.
  assert (Hdm : 1 <= d <= daysInMonth y (m + 1)).
  { destruct (daysInMonth_cases y (m + 1)) as [E | [E | [E | E]]]; lia. }
  destruct (fields_of_MakeDay y m d Hm Hdm) as (Fy & Fm & Fd).
  assert (Hzone : Z.abs (LocalTZA h) <= msPerDay) by (destruct zone; lia).
  split.
  - unfold DateOfFields.
    rewrite !truncate_ofZ, Hday by (change (2 ^ 53) with 9007199254740992; lia).
    destruct (Z.leb_spec y 99); [lia|]. rewrite andb_false_r.
    pose proof (TimeClip_midnight h Hzone y m d ltac:(lia) Hm Hdm) as Hc.
    rewrite Hc. apply TimeClip_inv in Hc. destruct Hc as [_ Hb].
    set (T := MakeDate (MakeDay y m d) 0) in *.
    assert (El : LocalTime h (T - LocalTZA h) = T) by (unfold LocalTime; lia).
    unfold UTC in *.
    assert (Hyr : 1 <= localYear h (T - LocalTZA h) <= 9999).
    { unfold localYear. rewrite El, Fy. lia. }
    rewrite (local_date_text h zone (T - LocalTZA h) Hb Hyr).
    unfold localYear, localMonth, localDay. rewrite El, Fy, Fm, Fd.
    reflexivity.
  - rewrite DateOfString_isoDate by lia.
    now replace (m + 1 - 1) with m by lia.
Qed.

Lemma createSeedExpenses_seedOf :
  createSeedExpenses h randomUUID now
  = Some (seedOf randomUUID (localYear h now) (localMonth h now)).
Proof.
  unfold createSeedExpenses. rewrite (TimeClip_valid now clock).
  unfold sample. cbn [combine seq traverse].
  rewrite (proj1 (seed_date 2%float 2 eq_refl ltac:(lia))).
  rewrite (proj1 (seed_date 3%float 3 eq_refl ltac:(lia))).
  rewrite (proj1 (seed_date 5%float 5 eq_refl ltac:(lia))).
  rewrite (proj1 (seed_date 7%float 7 eq_refl ltac:(lia))).
  rewrite (proj1 (seed_date 10%float 10 eq_refl ltac:(lia))).
  reflexivity.
Qed.

Lemma seed_key (d : Z) :
  2 <= d <= 28 ->
  getMonthKey h (DateOfString h (isoDate (localYear h now) (localMonth h now) d))
  = monthKey (localYear h now) (localMonth h now).
Proof.
  intros Hd.
  pose proof (MonthFromTime_range (LocalTime h now)) as Hm.
  assert (Hdm : 1 <= d <= daysInMonth (localYear h now) (localMonth h now)).
  { destruct (daysInMonth_cases (localYear h now) (localMonth h now))
      as [E | [E | [E | E]]]; lia. }
  rewrite DateOfString_isoDate by (unfold localMonth in *; lia).
  rewrite getMonthKey_of_midnight
    by (unfold localMonth in *; try lia; destruct zone; lia).
  destruct (Z.leb_spec 2 d); [|lia]. now rewrite orb_true_r.
Qed.

(** X19. The first run, with nothing stored. The seed is the five sample
    records, dated the 2nd, 3rd, 5th, 7th and 10th of the local month of
    the clock; mounting the page sets the list to the seed, writes the
    seed to the mirror and leaves the month of the clock active. Every
    seed record falls into that month, so the page shows them all, with
    the total 205.45 and the top categories Food, Utilities and
    Transport. *)
Theorem first_run :
  let seed := seedOf randomUUID (localYear h now) (localMonth h now) in
  let key := monthKey (localYear h now) (localMonth h now) in
  createSeedExpenses h randomUUID now = Some seed
  /\ mount h randomUUID now None
     = Returns ({| expenses := seed;
                   form := {| form_label := ""; form_amount := "";
                              form_category := Housing;
                              form_date := isoDate (localYear h now)
                                                   (localMonth h now)
                                                   (localDay h now) |};
                   activeMonthKey := key |},
                persistEffect seed)
  /\ monthExpenses h seed key = seed
  /\ monthTotal seed = 205.45%float
  /\ topCategories seed
     = [(Food, 90.7%float); (Utilities, 64.75%float); (Transport, 28%float)].
Proof.
  intros seed key. split; [exact createSeedExpenses_seedOf|]. split; [|split].
  - unfold mount, initialState, loadEffect.
    rewrite (TimeClip_valid now clock).
    rewrite (local_date_text h zone now clock) by lia.
    rewrite (getMonthKey_now h now) by lia.
    rewrite createSeedExpenses_seedOf. reflexivity.
  - unfold monthExpenses. apply filter_absent. intros e He.
    apply String.eqb_eq. unfold monthKeyOf.
    unfold seed, seedOf, sample, sampleDays in He. cbn [combine seq map] in He.
    repeat (destruct He as [<- | He]; [apply seed_key; lia|]). destruct He.
  - split; reflexivity.
Qed.

(** X20. The seed is listed oldest first: each seed record is strictly
    older than the next, so the list that a first run stores is not in
    the order, the latest first, that a create leaves. *)
Theorem seed_oldest_first :
  exists seed,
    createSeedExpenses h randomUUID now = Some seed
    /\ Sorted (older h) seed
    /\ ~ Sorted (notOlder h) seed.
Proof.
  exists (seedOf randomUUID (localYear h now) (localMonth h now)).
  split; [exact createSeedExpenses_seedOf|].
  assert (Hlt : forall a b da db,
             date a = isoDate (localYear h now) (localMonth h now) da ->
             date b = isoDate (localYear h now) (localMonth h now) db ->
             1 <= da -> da < db -> db <= 28 -> older h a b).
  { intros a b da db Ea Eb H1 H2 H3. unfold older, timeOf. rewrite Ea, Eb.
    pose proof (seed_date (ofZ da) da
                  ltac:(apply truncate_ofZ; change (2 ^ 53) with 9007199254740992; lia)
                  ltac:(lia)) as [_ Da].
    pose proof (seed_date (ofZ db) db
                  ltac:(apply truncate_ofZ; change (2 ^ 53) with 9007199254740992; lia)
                  ltac:(lia)) as [_ Db].
    pose proof (DateOfString_bound h _ _ Da). pose proof (DateOfString_bound h _ _ Db).
    rewrite Da, Db. simpl getTime. rewrite ofZ_ltb by assumption.
    apply Z.ltb_lt. unfold MakeDate, MakeDay, msPerDay. lia. }
  unfold seedOf, sample, sampleDays. cbn [combine seq map]. split.
  - repeat constructor; eapply Hlt; try reflexivity; lia.
  - intros Hs. inversion Hs as [| ? ? _ Hhd]; subst.
    inversion Hhd as [| ? ? Hn]; subst.
    match type of Hn with
    | notOlder _ ?a ?b =>
        assert (Ho : older h a b) by (eapply Hlt; try reflexivity; lia)
    end.
    unfold notOlder in Hn. unfold older in Ho. rewrite Ho in Hn. discriminate.
Qed.
End Seed.

(** X21. Without [crypto.randomUUID] the ids of the seed records, label and
    date, are distinct. *)
Theorem seed_ids_distinct (h : Host) (now : Z) (seed : list Expense) :
  createSeedExpenses h None now = Some seed -> NoDup (map id seed).
Proof.
  unfold createSeedExpenses, sample. cbn [combine seq traverse].
  repeat match goal with
         | |- context [toLocalDateInput ?a ?b] =>
             destruct (toLocalDateInput a b); [|discriminate]
         end.
  intros [= <-]. cbn [map id].
  repeat constructor; simpl; intuition discriminate.
Qed.

(** ** Amounts below half a cent *)

Lemma ltb_placeOf (x y : float) :
  (x <? y)%float = true ->
  Prim2SF x <> S754_nan /\ Prim2SF y <> S754_nan
  /\ placeOf (Prim2SF x) < placeOf (Prim2SF y).
Proof.
  rewrite ltb_spec. unfold SFltb. intros H.
  assert (Nx : Prim2SF x <> S754_nan) by (intros E; rewrite E in H; discriminate).
  assert (Ny : Prim2SF y <> S754_nan).
  { intros E; rewrite E in H. destruct (Prim2SF x); discriminate. }
  rewrite (SFcompare_placeOf _ _ (Prim2SF_valid x) (Prim2SF_valid y) Nx Ny) in H.
  split; [exact Nx|]. split; [exact Ny|].
  destruct (Z.compare_spec (placeOf (Prim2SF x)) (placeOf (Prim2SF y)));
    try discriminate; lia.
Qed.

Lemma ltb_of_placeOf (x y : float) :
  Prim2SF x <> S754_nan -> Prim2SF y <> S754_nan ->
  placeOf (Prim2SF x) < placeOf (Prim2SF y) -> (x <? y)%float = true.
Proof.
  intros Nx Ny H. rewrite ltb_spec. unfold SFltb.
  rewrite (SFcompare_placeOf _ _ (Prim2SF_valid x) (Prim2SF_valid y) Nx Ny).
  destruct (Z.compare_spec (placeOf (Prim2SF x)) (placeOf (Prim2SF y)));
    try reflexivity; lia.
Qed.

Lemma ltb_trans (x y z : float) :
  (x <? y)%float = true -> (y <? z)%float = true -> (x <? z)%float = true.
Proof.
  intros Hxy Hyz. apply ltb_placeOf in Hxy, Hyz.
  apply ltb_of_placeOf; try tauto. lia.
Qed.

(** A positive number below 0.005 has no hundredth: the integer nearest to
    100 times the number is 0. *)
Lemma hundredths_below_half_cent (x : float) (m : positive) (e : Z) :
  Prim2SF x = S754_finite false m e ->
  (x <? 0.005)%float = true ->
  hundredths m e = 0.
Proof.
  intros Hx Hlt.
  pose proof (valid_finite x false m e Hx) as Hb.
  pose proof (bounded_inv m e Hb) as (Hd & He & Hn).
  pose proof (digits2_pos_bounds m) as [Dlo Dhi].
  apply ltb_placeOf in Hlt. destruct Hlt as (_ & _ & Hp).
  rewrite Hx in Hp.
  change (Prim2SF 0.005) with (S754_finite false 5764607523034235 (-60)) in Hp.
  unfold placeOf, cond_Zopp in Hp. change (-60 + 1074) with 1014 in Hp.
  destruct (hundredths_nearest m e) as [Hnear Hpos].
  set (n := hundredths m e) in *. unfold nearestHundredth in Hnear.
  cbv zeta in Hnear.
  assert (Hm : Zpos m < 2 ^ 53).
  { eapply Z.lt_le_trans; [exact Dhi|]. apply Z.pow_le_mono_r; lia. }
  change (2 ^ 53) with 9007199254740992 in Hm.
  set (K := 2 ^ 1014) in *.
  assert (HK : 0 < K) by (apply Z.pow_pos_nonneg; lia).
  destruct (Z.lt_trichotomy e (-60)) as [Hlo | [-> | Hhi]].
  - (* below the binade of 0.005 *)
    rewrite (Z.max_r e 0), (Z.max_l (- e) 0) in Hnear by lia.
    change (2 ^ 0) with 1 in Hnear.
    assert (HP : 2 ^ 61 <= 2 ^ (- e)) by (apply Z.pow_le_mono_r; lia).
    change (2 ^ 61) with 2305843009213693952 in HP.
    set (P := 2 ^ (- e)) in *. nia.
  - (* in the binade of 0.005 *)
    change (-60 + 1074) with 1014 in Hp. fold K in Hp.
    assert (Zpos m < 5764607523034235) by nia.
    change (Z.max (-60) 0) with 0 in Hnear. change (Z.max (- -60) 0) with 60 in Hnear.
    change (2 ^ 0) with 1 in Hnear. change (2 ^ 60) with 1152921504606846976 in Hnear.
    lia.
  - (* above it: impossible *)
    exfalso. rewrite Hn in Dlo by lia.
    change (2 ^ (53 - 1)) with 4503599627370496 in Dlo.
    assert (HE : 2 * K <= 2 ^ (e + 1074)).
    { replace (2 * K) with (2 ^ 1015) by (unfold K; reflexivity).
      apply Z.pow_le_mono_r; lia. }
    set (Q := 2 ^ (e + 1074)) in *. nia.
Qed.

(** X22. An amount above 0 and below 0.005 passes the check of
    [handleSubmit] and is stored as 0: the record is added, with the
    amount that [toFixed(2)] writes as 0.00. *)
Theorem create_stores_zero_for_tiny_amount (h : Host) (newId : string) (st : State) :
  truthy_string (trim (form_label (form st))) = true ->
  (0 <? StringToNumber (form_amount (form st)))%float = true ->
  (StringToNumber (form_amount (form st)) <? 0.005)%float = true ->
  accepted (form st) = true
  /\ In (newExpenseOf newId (form st)) (expenses (handleSubmit h newId st))
  /\ amount (newExpenseOf newId (form st)) = 0%float.
Proof.
  intros Hl Hpos Hlt. set (x := StringToNumber (form_amount (form st))) in *.
  assert (Ha : accepted (form st) = true).
  { apply accepted_iff. split; [exact Hl | now apply truthy_of_positive]. }
  split; [exact Ha|]. split.
  - rewrite (handleSubmit_accepted h newId st Ha). cbn [expenses].
    apply sort_In. simpl. auto.
  - assert (Hbig : (x <? 1e21)%float = true)
      by (apply (ltb_trans x 0.005 1e21); [exact Hlt | reflexivity]).
    destruct (toFixed2_reads_back x Hpos Hbig) as (m & e & Hx & _ & Hr).
    unfold newExpenseOf. cbn [amount]. fold x. rewrite Hr.
    rewrite (hundredths_below_half_cent x m e Hx Hlt). reflexivity.
Qed.

(** ** A month without records *)

(** X23. A month that no record falls into shows no records, the total 0,
    the weekly pace 0 and no top categories. *)
Theorem empty_month_views (h : Host) (es : list Expense) (y m : Z) :
  Z.abs (LocalTZA h) <= msPerDay ->
  1 <= y <= 275759 -> 1 <= m <= 12 ->
  (forall e, In e es -> monthKeyOf h e <> monthKey y m) ->
  monthExpenses h es (monthKey y m) = []
  /\ monthTotal (monthExpenses h es (monthKey y m)) = 0%float
  /\ weeklyAverage h (monthKey y m) (monthTotal (monthExpenses h es (monthKey y m)))
     = 0%float
  /\ topCategories (monthExpenses h es (monthKey y m)) = [].
Proof.
  intros Hz Hy Hm Hno.
  assert (E : monthExpenses h es (monthKey y m) = []).
  { unfold monthExpenses. induction es as [| e es IH]; [reflexivity|]. simpl.
    destruct (String.eqb_spec (monthKeyOf h e) (monthKey y m)) as [Heq | _].
    - exfalso. apply (Hno e); simpl; auto.
    - apply IH. intros e' He'. apply Hno. simpl. auto. }
  rewrite E. repeat split.
  rewrite (weeklyAverage_valid_month h Hz y m _ Hy Hm).
  destruct (daysInMonth_cases y m) as [D | [D | [D | D]]]; rewrite D; reflexivity.
Qed.

(** ** The properties at sample inputs *)

Lemma empty_month_views_witness :
  Z.abs (LocalTZA utcHost) <= msPerDay
  /\ monthExpenses utcHost sampleStore (monthKey 2024 3) = []
  /\ weeklyAverage utcHost (monthKey 2024 3)
       (monthTotal (monthExpenses utcHost sampleStore (monthKey 2024 3))) = 0%float.
Proof.
  assert (Hz : Z.abs (LocalTZA utcHost) <= msPerDay) by (vm_compute; discriminate).
  assert (Hno : forall e, In e sampleStore -> monthKeyOf utcHost e <> monthKey 2024 3).
  { intros e He. simpl in He.
    repeat (destruct He as [<- | He]; [vm_compute; discriminate|]). destruct He. }
  destruct (empty_month_views utcHost sampleStore 2024 3 Hz ltac:(lia) ltac:(lia) Hno)
    as (E & _ & W & _).
  split; [exact Hz|]. split; [exact E | exact W].
Defined.

Lemma create_inserts_in_place_witness :
  accepted (form orderedState) = true
  /\ Forall (dated utcHost) (expenses orderedState)
  /\ dated utcHost (newExpenseOf "id-9" (form orderedState))
  /\ Sorted (notOlder utcHost) (expenses orderedState)
  /\ exists newer rest,
       expenses orderedState = (newer ++ rest)%list
       /\ expenses (handleSubmit utcHost "id-9" orderedState)
          = (newer ++ newExpenseOf "id-9" (form orderedState) :: rest)%list.
Proof.
  assert (Ha : accepted (form orderedState) = true) by reflexivity.
  assert (Hd : Forall (dated utcHost) (expenses orderedState))
    by (repeat constructor; eexists; reflexivity).
  assert (Hn : dated utcHost (newExpenseOf "id-9" (form orderedState)))
    by (eexists; reflexivity).
  assert (Hs : Sorted (notOlder utcHost) (expenses orderedState))
    by (repeat constructor).
  destruct (create_inserts_in_place utcHost "id-9" orderedState Ha Hd Hn Hs)
    as (newer & rest & E1 & E2 & _).
  split; [exact Ha|]. split; [exact Hd|]. split; [exact Hn|].
  split; [exact Hs|]. exists newer, rest. auto.
Defined.

Lemma create_then_delete_witness :
  accepted (form orderedState) = true
  /\ Forall (dated utcHost) (expenses orderedState)
  /\ dated utcHost (newExpenseOf "id-9" (form orderedState))
  /\ ~ In "id-9" (map id (expenses orderedState))
  /\ expenses (handleDelete "id-9" (handleSubmit utcHost "id-9" orderedState))
     = expenses orderedState.
Proof.
  assert (Ha : accepted (form orderedState) = true) by reflexivity.
  assert (Hd : Forall (dated utcHost) (expenses orderedState))
    by (repeat constructor; eexists; reflexivity).
  assert (Hn : dated utcHost (newExpenseOf "id-9" (form orderedState)))
    by (eexists; reflexivity).
  assert (Hf : ~ In "id-9" (map id (expenses orderedState)))
    by (simpl; intuition discriminate).
  destruct (create_then_delete utcHost "id-9" orderedState Ha Hd Hn Hf) as [_ H].
  split; [exact Ha|]. split; [exact Hd|]. split; [exact Hn|].
  split; [exact Hf|]. apply H. repeat constructor.
Defined.

Lemma delete_keeps_store_sorted_witness :
  Forall (dated utcHost) (expenses orderedState)
  /\ Sorted (notOlder utcHost) (expenses orderedState)
  /\ Sorted (notOlder utcHost) (expenses (handleDelete "b" orderedState)).
Proof.
  assert (Hd : Forall (dated utcHost) (expenses orderedState))
    by (repeat constructor; eexists; reflexivity).
  assert (Hs : Sorted (notOlder utcHost) (expenses orderedState))
    by (repeat constructor).
  split; [exact Hd|]. split; [exact Hs|].
  exact (delete_keeps_store_sorted utcHost "b" orderedState Hd Hs).
Defined.

Lemma monthExpenses_sorted_witness :
  Forall (dated utcHost) orderedStore
  /\ Sorted (notOlder utcHost) orderedStore
  /\ Sorted (notOlder utcHost) (monthExpenses utcHost orderedStore "2024-1").
Proof.
  assert (Hd : Forall (dated utcHost) orderedStore)
    by (repeat constructor; eexists; reflexivity).
  assert (Hs : Sorted (notOlder utcHost) orderedStore) by (repeat constructor).
  split; [exact Hd|]. split; [exact Hs|].
  exact (monthExpenses_sorted utcHost orderedStore "2024-1" Hd Hs).
Defined.

Lemma months_partition_witness :
  months utcHost sampleStore = Some [("2024-1", "January 2024")]
  /\ Permutation
       (List.concat (map (fun p => monthExpenses utcHost sampleStore (fst p))
                         [("2024-1", "January 2024")]))
       sampleStore.
Proof.
  assert (H : months utcHost sampleStore = Some [("2024-1", "January 2024")])
    by (vm_compute; reflexivity).
  split; [exact H|]. exact (months_partition utcHost sampleStore _ H).
Defined.

Lemma months_keys_witness :
  months utcHost sampleStore = Some [("2024-1", "January 2024")]
  /\ NoDup (map fst [("2024-1", "January 2024")]).
Proof.
  assert (H : months utcHost sampleStore = Some [("2024-1", "January 2024")])
    by (vm_compute; reflexivity).
  split; [exact H|]. exact (proj1 (months_keys utcHost sampleStore _ H)).
Defined.

Lemma create_lists_active_month_witness :
  accepted (form sampleState) = true
  /\ months utcHost (expenses (handleSubmit utcHost "id-9" sampleState))
     = Some [("2024-3", "March 2024"); ("2024-1", "January 2024")]
  /\ In (activeMonthKey (handleSubmit utcHost "id-9" sampleState))
        (map fst [("2024-3", "March 2024"); ("2024-1", "January 2024")]).
Proof.
  assert (Ha : accepted (form sampleState) = true) by reflexivity.
  assert (H : months utcHost (expenses (handleSubmit utcHost "id-9" sampleState))
              = Some [("2024-3", "March 2024"); ("2024-1", "January 2024")])
    by (vm_compute; reflexivity).
  split; [exact Ha|]. split; [exact H|].
  exact (create_lists_active_month utcHost "id-9" sampleState _ Ha H).
Defined.

Lemma months_throws_on_unreadable_date_witness :
  In undated (undated :: sampleStore)
  /\ DateOfString utcHost (date undated) = None
  /\ months utcHost (undated :: sampleStore) = None.
Proof.
  assert (Hin : In undated (undated :: sampleStore)) by (simpl; auto).
  assert (Hd : DateOfString utcHost (date undated) = None) by reflexivity.
  split; [exact Hin|]. split; [exact Hd|].
  exact (months_throws_on_unreadable_date utcHost _ undated Hin Hd).
Defined.

Lemma create_with_unreadable_date_witness :
  let st := {| expenses := sampleStore; form := draft "5" "";
               activeMonthKey := "2024-1" |} in
  accepted (form st) = true
  /\ DateOfString utcHost (form_date (form st)) = None
  /\ activeMonthKey (handleSubmit utcHost "id-9" st) = "NaN-NaN"
  /\ months utcHost (expenses (handleSubmit utcHost "id-9" st)) = None.
Proof.
  intros st.
  assert (Ha : accepted (form st) = true) by reflexivity.
  assert (Hd : DateOfString utcHost (form_date (form st)) = None) by reflexivity.
  destruct (create_with_unreadable_date utcHost "id-9" st Ha Hd) as (_ & Hk & Hm).
  split; [exact Ha|]. split; [exact Hd|]. split; [exact Hk | exact Hm].
Defined.

Lemma topCategories_largest_witness :
  Forall (fun e => nonNegative (amount e)) fourCategories
  /\ ofCategory Transport fourCategories <> []
  /\ ~ In Transport (map fst (topCategories fourCategories))
  /\ Forall (fun p => sumAtLeast p (Transport, 5%float)) (topCategories fourCategories).
Proof.
  assert (Hn : Forall (fun e => nonNegative (amount e)) fourCategories)
    by (repeat constructor).
  assert (Hc : ofCategory Transport fourCategories <> []) by (vm_compute; discriminate).
  assert (Ho : ~ In Transport (map fst (topCategories fourCategories)))
    by (vm_compute; intuition discriminate).
  destruct (topCategories_largest fourCategories Transport Hn Hc Ho) as [_ H].
  split; [exact Hn|]. split; [exact Hc|]. split; [exact Ho | exact H].
Defined.

Lemma load_selects_latest_month_witness :
  Forall (fun e => storable (amount e)) sampleStore
  /\ Forall (dated utcHost) sampleStore
  /\ sampleStore <> []
  /\ exists latest,
       In latest sampleStore
       /\ loadEffect utcHost None sampleClock (persistEffect sampleStore)
          = Returns {| setExpenses := Some sampleStore;
                       setActiveMonthKey := Some (monthKeyOf utcHost latest);
                       storageAfterLoad := persistEffect sampleStore |}.
Proof.
  assert (Hst : Forall (fun e => storable (amount e)) sampleStore)
    by (repeat constructor; apply storable_example; reflexivity).
  assert (Hd : Forall (dated utcHost) sampleStore)
    by (repeat constructor; eexists; reflexivity).
  assert (Hne : sampleStore <> []) by discriminate.
  destruct (load_selects_latest_month utcHost None sampleClock sampleStore Hst Hd Hne)
    as (latest & Hin & _ & Hl).
  split; [exact Hst|]. split; [exact Hd|]. split; [exact Hne|].
  exists latest. auto.
Defined.

Lemma month_of_iso_date_witness :
  - msPerDay <= LocalTZA westHost < msPerDay
  /\ date firstOfFebruary = isoDate 2024 2 1
  /\ monthKeyOf westHost firstOfFebruary = "2024-1"
  /\ monthKeyOf utcHost firstOfFebruary = "2024-2".
Proof.
  assert (Hw : - msPerDay <= LocalTZA westHost < msPerDay)
    by (vm_compute; split; [discriminate | reflexivity]).
  assert (Hu : - msPerDay <= LocalTZA utcHost < msPerDay)
    by (vm_compute; split; [discriminate | reflexivity]).
  assert (Hd : 1 <= 1 <= daysInMonth 2024 2)
    by (change (daysInMonth 2024 2) with 29; lia).
  split; [exact Hw|]. split; [reflexivity|]. split.
  - exact (month_of_iso_date westHost firstOfFebruary 2024 2 1 Hw
             ltac:(lia) ltac:(lia) Hd eq_refl).
  - exact (month_of_iso_date utcHost firstOfFebruary 2024 2 1 Hu
             ltac:(lia) ltac:(lia) Hd eq_refl).
Defined.

Lemma westHost_zone : wholeMinuteZone westHost.
Proof. split; [vm_compute; reflexivity | exists (-300); reflexivity]. Qed.

Lemma sampleClock_valid :
  Z.abs sampleClock <= 8640000000000000
  /\ 100 <= localYear westHost sampleClock <= 9999.
Proof. vm_compute. repeat split; discriminate. Qed.

Lemma toLocalDateInput_round_trip_witness :
  wholeMinuteZone westHost
  /\ toLocalDateInput westHost (Some sampleClock) = Some "2024-02-28"
  /\ DateOfString westHost "2024-02-28" = Some 1709078400000.
Proof.
  destruct sampleClock_valid as [Hc Hy].
  destruct (toLocalDateInput_round_trip westHost westHost_zone sampleClock Hc
              ltac:(lia)) as [H1 H2].
  split; [exact westHost_zone|]. split; [exact H1 | exact H2].
Defined.

Lemma initialState_today_witness :
  wholeMinuteZone westHost
  /\ option_map activeMonthKey (initialState westHost sampleClock) = Some "2024-2"
  /\ option_map (fun st => form_date (form st)) (initialState westHost sampleClock)
     = Some "2024-02-28".
Proof.
  destruct sampleClock_valid as [Hc Hy].
  destruct (initialState_today westHost westHost_zone sampleClock Hc ltac:(lia))
    as [H _].
  split; [exact westHost_zone|]. rewrite H. split; reflexivity.
Defined.

Lemma first_run_witness :
  wholeMinuteZone westHost
  /\ option_map (map date) (createSeedExpenses westHost None sampleClock)
     = Some ["2024-02-02"; "2024-02-03"; "2024-02-05"; "2024-02-07"; "2024-02-10"]
  /\ monthTotal (seedOf None 2024 2) = 205.45%float.
Proof.
  destruct sampleClock_valid as [Hc Hy].
  destruct (first_run westHost westHost_zone None sampleClock Hc Hy)
    as (H & _ & _ & Ht & _).
  split; [exact westHost_zone|]. split; [rewrite H; reflexivity | exact Ht].
Defined.

Lemma seed_oldest_first_witness :
  wholeMinuteZone westHost
  /\ exists seed,
       createSeedExpenses westHost None sampleClock = Some seed
       /\ Sorted (older westHost) seed
       /\ ~ Sorted (notOlder westHost) seed.
Proof.
  destruct sampleClock_valid as [Hc Hy].
  split; [exact westHost_zone|].
  exact (seed_oldest_first westHost westHost_zone None sampleClock Hc Hy).
Defined.

Lemma seed_ids_distinct_witness :
  createSeedExpenses utcHost None sampleClock = Some (seedOf None 2024 2)
  /\ NoDup (map id (seedOf None 2024 2)).
Proof.
  assert (H : createSeedExpenses utcHost None sampleClock = Some (seedOf None 2024 2))
    by (vm_compute; reflexivity).
  split; [exact H|]. exact (seed_ids_distinct utcHost sampleClock _ H).
Defined.

Lemma create_stores_zero_for_tiny_amount_witness :
  let st := {| expenses := sampleStore; form := draft "0.004" "2024-01-20";
               activeMonthKey := "2024-1" |} in
  truthy_string (trim (form_label (form st))) = true
  /\ (0 <? StringToNumber (form_amount (form st)))%float = true
  /\ (StringToNumber (form_amount (form st)) <? 0.005)%float = true
  /\ accepted (form st) = true
  /\ amount (newExpenseOf "id-9" (form st)) = 0%float.
Proof.
  intros st.
  assert (Hl : truthy_string (trim (form_label (form st))) = true) by reflexivity.
  assert (Hp : (0 <? StringToNumber (form_amount (form st)))%float = true)
    by reflexivity.
  assert (Hlt : (StringToNumber (form_amount (form st)) <? 0.005)%float = true)
    by reflexivity.
  destruct (create_stores_zero_for_tiny_amount utcHost "id-9" st Hl Hp Hlt)
    as (Ha & _ & Hz).
  split; [exact Hl|]. split; [exact Hp|]. split; [exact Hlt|].
  split; [exact Ha | exact Hz].
Defined.

(** ** The date and the count that the page shows *)

Lemma date_by_day (t t' : Z) : Day t = Day t' -> DateFromTime t = DateFromTime t'.
Proof.
  intros E. destruct (fields_by_day t t' E) as [Ey Em].
  unfold DateFromTime, DayWithinYear, InLeapYear. now rewrite E, Ey, Em.
Qed.

(** The text shown for a time whose local day is day [d] of month [m]
    (0 to 11) of year [y]. *)
Lemma dateFormatter_of_day (h : Host) (t y m d : Z) :
  0 <= m <= 11 -> 1 <= d <= daysInMonth y (m + 1) ->
  Day (LocalTime h t) = MakeDay y m d ->
  dateFormatter_format h (Some t) = Some (shortMonthName m ++ " " ++ digitsOfZ d).
Proof.
  intros Hm Hd E.
  destruct (fields_of_MakeDay y m d Hm Hd) as (_ & Fm & Fd).
  assert (E' : Day (LocalTime h t) = Day (MakeDate (MakeDay y m d) 0))
    by now rewrite Day_MakeDate.
  destruct (fields_by_day _ _ E') as [_ Em]. pose proof (date_by_day _ _ E') as Ed.
  unfold dateFormatter_format. now rewrite Em, Ed, Fm, Fd.
Qed.

(** X24. The date shown beside a record. A date [YYYY-MM-DD] is read as
    midnight UTC and shown in local time: at or east of UTC the page
    shows the day of the date, and west of UTC the day before it. *)
Theorem shown_date_of_iso_date (h : Host) (e : Expense) (y m d : Z) :
  - msPerDay <= LocalTZA h < msPerDay ->
  1 <= y <= 9999 -> 1 <= m <= 12 -> 1 <= d <= daysInMonth y m ->
  date e = isoDate y m d ->
  shownDate h e
  = Some (if 0 <=? LocalTZA h then shortMonthName (m - 1) ++ " " ++ digitsOfZ d
          else if 2 <=? d then shortMonthName (m - 1) ++ " " ++ digitsOfZ (d - 1)
          else if m =? 1 then "Dec 31"
          else shortMonthName (m - 2) ++ " " ++ digitsOfZ (daysInMonth y (m - 1))).
Proof.
  intros Hz Hy Hm Hd E. unfold shownDate.
  rewrite E, (DateOfString_isoDate h y m d Hy Hm Hd).
  pose proof (Day_of_midnight (MakeDay y (m - 1) d) (LocalTZA h) Hz) as HD.
  fold (LocalTime h (MakeDate (MakeDay y (m - 1) d) 0)) in HD.
  destruct (Z.leb_spec 0 (LocalTZA h)) as [He | Hw].
  - apply (dateFormatter_of_day h _ y (m - 1) d);
      [lia | now replace (m - 1 + 1) with m by lia | exact HD].
  - destruct (Z.leb_spec 2 d) as [H2 | H1].
    + apply (dateFormatter_of_day h _ y (m - 1) (d - 1));
        [lia | replace (m - 1 + 1) with m by lia; lia |].
      rewrite HD. unfold MakeDay. lia.
    + assert (d = 1) as -> by lia.
      rewrite (MakeDay_previous_day y m Hm) in HD.
      destruct (Z.eqb_spec m 1) as [-> | Hne].
      * apply (dateFormatter_of_day h _ (y - 1) 11 31); [lia | | exact HD].
        change (11 + 1) with 12. unfold daysInMonth. lia.
      * apply (dateFormatter_of_day h _ y (m - 2) (daysInMonth y (m - 1)));
          [lia | | exact HD].
        replace (m - 2 + 1) with (m - 1) by lia.
        destruct (daysInMonth_cases y (m - 1)) as [D | [D | [D | D]]]; lia.
Qed.

Lemma shown_date_of_iso_date_witness :
  - msPerDay <= LocalTZA westHost < msPerDay
  /\ date firstOfFebruary = isoDate 2024 2 1
  /\ shownDate westHost firstOfFebruary = Some "Jan 31"
  /\ shownDate utcHost firstOfFebruary = Some "Feb 1".
Proof.
  assert (Hw : - msPerDay <= LocalTZA westHost < msPerDay)
    by (vm_compute; split; [discriminate | reflexivity]).
  assert (Hu : - msPerDay <= LocalTZA utcHost < msPerDay)
    by (vm_compute; split; [discriminate | reflexivity]).
  assert (Hd : 1 <= 1 <= daysInMonth 2024 2)
    by (change (daysInMonth 2024 2) with 29; lia).
  split; [exact Hw|]. split; [reflexivity|]. split.
  - exact (shown_date_of_iso_date westHost firstOfFebruary 2024 2 1 Hw
             ltac:(lia) ltac:(lia) Hd eq_refl).
  - exact (shown_date_of_iso_date utcHost firstOfFebruary 2024 2 1 Hu
             ltac:(lia) ltac:(lia) Hd eq_refl).
Defined.

(** X25. The Entries card shows the number of records of the month in
    decimal digits, at least two of them: the text reads back as the
    length of the list. *)
Theorem entriesText_count (l : list Expense) :
  forallChars isDigit (entriesText l) = true
  /\ digitsValue (entriesText l) = N.of_nat (List.length l)
  /\ (2 <= String.length (entriesText l))%nat
  /\ StringToNumber (entriesText l) = ofZ (Z.of_nat (List.length l)).
Proof.
  unfold entriesText, padStart.
  set (ds := digitsOfN (N.of_nat (List.length l))).
  assert (Hd : forallChars isDigit (zeros (2 - String.length ds) ++ ds) = true).
  { rewrite forallChars_app, zeros_digits. apply digitsOfN_digits. }
  assert (Hv : digitsValue (zeros (2 - String.length ds) ++ ds)
               = N.of_nat (List.length l)).
  { unfold digitsValue. rewrite digitsValueFrom_zeros. apply digitsValue_digitsOfN. }
  assert (Hl : (2 <= String.length (zeros (2 - String.length ds) ++ ds))%nat).
  { rewrite length_append, length_zeros. lia. }
  split; [exact Hd|]. split; [exact Hv|]. split; [exact Hl|].
  rewrite StringToNumber_digits; [| exact Hd |].
  - rewrite Hv. f_equal. lia.
  - intros E. rewrite E in Hl. simpl in Hl. lia.
Qed.
(** ** Decimals that are Numbers *)

Lemma bounded_canonical (M : positive) (E : Z) :
  bounded prec emax M E = true ->
  fexp prec emax (Zpos (digits2_pos M) + E) = E /\ E <= emax - prec.
Proof.
  unfold bounded, canonical_mantissa. intros H.
  apply andb_prop in H. destruct H as [H1 H2].
  apply Z.eqb_eq in H1. apply Z.leb_le in H2. split; assumption.
Qed.

Lemma digits_scaled (M q : positive) (j : Z) :
  0 <= j -> Zpos q = Zpos M * 2 ^ j ->
  Zpos (digits2_pos q) = Zpos (digits2_pos M) + j.
Proof.
  intros Hj Hq. pose proof (digits2_pos_bounds M) as [Dlo Dhi].
  assert (P : 0 < 2 ^ j) by (apply Z.pow_pos_nonneg; lia).
  apply digits2_pos_unique. rewrite Hq. split.
  - replace (Zpos (digits2_pos M) + j - 1) with (Zpos (digits2_pos M) - 1 + j) by lia.
    rewrite Z.pow_add_r by lia. apply Z.mul_le_mono_nonneg_r; lia.
  - rewrite Z.pow_add_r by lia. apply Z.mul_lt_mono_pos_r; lia.
Qed.

(** Rounding the mantissa [M * 2^j] at the exponent [E - j] gives the
    number [M * 2^E] when that is a binary64 number. *)
Lemma binary_round_aux_exact (s : bool) (M q : positive) (E j : Z) :
  bounded prec emax M E = true -> 0 <= j -> Zpos q = Zpos M * 2 ^ j ->
  binary_round_aux prec emax s (Zpos q) (E - j) loc_Exact = S754_finite s M E.
Proof.
  intros Hb Hj Hq. destruct (bounded_canonical M E Hb) as [Hc He].
  pose proof (digits_scaled M q j Hj Hq) as Hd.
  assert (H1 : shr_fexp prec emax (Zpos q) (E - j) loc_Exact
               = ({| shr_m := Zpos M; shr_r := false; shr_s := false |}, E)).
  { unfold shr_fexp. simpl Zdigits2. rewrite Hd.
    replace (Zpos (digits2_pos M) + j + (E - j)) with (Zpos (digits2_pos M) + E) by lia.
    rewrite Hc. replace (E - (E - j)) with j by lia.
    unfold shr. destruct j as [| p | p]; try lia.
    - simpl shr_record_of_loc. f_equal; [|lia]. f_equal. rewrite Hq. simpl. lia.
    - simpl shr_record_of_loc. rewrite iter_pos_nat. f_equal; [|lia].
      rewrite Hq, <- (positive_nat_Z p). apply shr_iter_exact. }
  assert (H2 : shr_fexp prec emax (Zpos M) E loc_Exact
               = ({| shr_m := Zpos M; shr_r := false; shr_s := false |}, E)).
  { unfold shr_fexp. simpl Zdigits2. rewrite Hc, Z.sub_diag. reflexivity. }
  unfold binary_round_aux. rewrite H1. simpl round_nearest_even. rewrite H2.
  simpl shr_m. apply Z.leb_le in He. rewrite He. reflexivity.
Qed.

Lemma binary_round_0_exact (s : bool) (M p : positive) (E : Z) :
  bounded prec emax M E = true ->
  (0 <= E -> Zpos p = Zpos M * 2 ^ E) ->
  (E < 0 -> Zpos p * 2 ^ (- E) = Zpos M) ->
  binary_round prec emax s p 0 = S754_finite s M E.
Proof.
  intros Hb Hpos Hneg. destruct (bounded_canonical M E Hb) as [Hc He].
  unfold binary_round.
  assert (Hd : Zpos (digits2_pos p) + 0 = Zpos (digits2_pos M) + E).
  { destruct (Z.leb_spec 0 E) as [H | H].
    - rewrite (digits_scaled M p E H (Hpos H)). lia.
    - rewrite (digits_scaled p M (- E)); [lia | lia |].
      symmetry. apply Hneg. exact H. }
  rewrite Hd, Hc. unfold shl_align.
  destruct (E - 0) as [| k | k] eqn:EE.
  - replace 0 with (E - 0) at 1 by lia.
    apply binary_round_aux_exact; [exact Hb | lia |].
    rewrite (Hpos ltac:(lia)). replace E with 0 by lia. simpl. lia.
  - replace 0 with (E - E) at 1 by lia.
    apply binary_round_aux_exact; [exact Hb | lia |]. apply Hpos. lia.
  - assert (E = Zneg k) by lia. subst E.
    replace (Zneg k) with (Zneg k - 0) at 1 by lia.
    apply binary_round_aux_exact; [exact Hb | lia |].
    rewrite Pos_iter_xO, <- (Hneg ltac:(lia)). simpl. lia.
Qed.

Lemma new_location_exact (n : Z) : new_location n 0 = loc_Exact.
Proof.
  unfold new_location, new_location_even, new_location_odd.
  destruct (Z.even n); reflexivity.
Qed.

Lemma fexp_monotone (a b : Z) : a <= b -> fexp prec emax a <= fexp prec emax b.
Proof. unfold fexp, SpecFloat.emin. lia. Qed.

(** Dividing [p] by [10^j] and rounding gives the number [M * 2^E] when
    the quotient is that number. *)
Lemma div_round_exact (s : bool) (M p : positive) (E j : Z) :
  bounded prec emax M E = true -> 0 < j ->
  (0 <= E -> Zpos p = Zpos M * 2 ^ E * 10 ^ j) ->
  (E < 0 -> Zpos p * 2 ^ (- E) = Zpos M * 10 ^ j) ->
  (let '(q, e, l) := SFdiv_core_binary prec emax (Zpos p) 0 (10 ^ j) 0 in
   binary_round_aux prec emax s q e l) = S754_finite s M E.
Proof.
  intros Hb Hj Hpos Hneg. destruct (bounded_canonical M E Hb) as [Hc He].
  assert (T : 0 < 10 ^ j) by (apply Z.pow_pos_nonneg; lia).
  destruct (10 ^ j) as [| t | t] eqn:Et; try lia.
  pose proof (digits2_pos_bounds M) as [Mlo Mhi].
  pose proof (digits2_pos_bounds p) as [Plo Phi].
  pose proof (digits2_pos_bounds t) as [Tlo Thi].
  set (dM := Zpos (digits2_pos M)) in *.
  set (d1 := Zpos (digits2_pos p)) in *.
  set (d2 := Zpos (digits2_pos t)) in *.
  assert (P2 : forall n, 0 <= n -> 0 < 2 ^ n) by (intros; apply Z.pow_pos_nonneg; lia).
  assert (Hdd : d1 - d2 <= dM + E).
  { destruct (Z.leb_spec 0 E) as [H | H].
    - assert (B : 2 ^ (d1 - 1) < 2 ^ (dM + E + d2)).
      { eapply Z.le_lt_trans; [exact Plo|]. rewrite (Hpos H).
        rewrite !Z.pow_add_r by (unfold dM, d2; lia).
        pose proof (P2 E H).
        apply Z.mul_lt_mono_nonneg; try nia. }
      apply Z.pow_lt_mono_r_iff in B; unfold dM, d2 in *; lia.
    - assert (B : 2 ^ (d1 - 1) * 2 ^ (- E) < 2 ^ (dM + d2)).
      { eapply Z.le_lt_trans;
          [apply Z.mul_le_mono_nonneg_r; [specialize (P2 (- E)); lia | exact Plo]|].
        rewrite (Hneg H). rewrite Z.pow_add_r by (unfold dM, d2; lia).
        apply Z.mul_lt_mono_nonneg; lia. }
      rewrite <- Z.pow_add_r in B by (unfold d1; lia).
      apply Z.pow_lt_mono_r_iff in B; unfold dM, d2 in *; lia. }
  unfold SFdiv_core_binary. simpl Zdigits2. fold d1 d2.
  set (e' := Z.min (fexp prec emax (d1 + 0 - (d2 + 0))) (0 - 0)).
  assert (He' : e' <= E /\ e' <= 0).
  { unfold e'. split; [|lia].
    destruct (Z.leb_spec 0 E) as [H | H]; [lia|].
    pose proof (fexp_monotone (d1 + 0 - (d2 + 0)) (dM + E) ltac:(lia)) as F.
    rewrite Hc in F. lia. }
  destruct He' as [He1 He2].
  assert (Hm' : match 0 - 0 - e' with
                | Zpos _ => Z.shiftl (Zpos p) (0 - 0 - e')
                | 0 => Zpos p
                | Zneg _ => 0
                end = Zpos M * 2 ^ (E - e') * Zpos t).
  { assert (V : Zpos p * 2 ^ (- e') = Zpos M * 2 ^ (E - e') * Zpos t).
    { destruct (Z.leb_spec 0 E) as [H | H].
      - rewrite (Hpos H). replace (E - e') with (E + - e') by lia.
        rewrite Z.pow_add_r by lia. ring.
      - replace (- e') with (- E + (E - e')) by lia.
        rewrite Z.pow_add_r by lia. rewrite Z.mul_assoc, (Hneg H). ring. }
    destruct (0 - 0 - e') as [| k | k] eqn:K.
    - rewrite <- V. replace (- e') with 0 by lia. simpl. lia.
    - rewrite Z.shiftl_mul_pow2 by lia. rewrite <- V. f_equal. f_equal. lia.
    - lia. }
  rewrite Hm'.
  assert (Q : 0 < Zpos M * 2 ^ (E - e')).
  { apply Z.mul_pos_pos; [lia | apply P2; lia]. }
  destruct (Zpos M * 2 ^ (E - e')) as [| q | q] eqn:Eq; try lia.
  assert (Hdiv : Z.div_eucl (Zpos q * Zpos t) (Zpos t) = (Zpos q, 0)).
  { pose proof (Z.div_eucl_eq (Zpos q * Zpos t) (Zpos t) ltac:(lia)) as D.
    pose proof (Z.mod_pos_bound (Zpos q * Zpos t) (Zpos t) ltac:(lia)) as B.
    unfold Z.modulo in B.
    destruct (Z.div_eucl (Zpos q * Zpos t) (Zpos t)) as [a b].
    assert (a = Zpos q) by nia. subst a. f_equal. lia. }
  rewrite Hdiv. rewrite new_location_exact.
  replace e' with (E - (E - e')) by lia.
  apply binary_round_aux_exact; [exact Hb | lia |]. lia.
Qed.

Lemma ofDecimal_roundDecimal (neg : bool) (m : N) (e10 : Z) :
  ofDecimal neg m e10 = binary64 (roundDecimal neg m e10).
Proof.
  unfold ofDecimal, roundDecimal. destruct m as [| p]; [reflexivity|].
  destruct (400 <? e10); [reflexivity|].
  destruct (e10 + Z.log2 (Zpos p) <? -401); [reflexivity|].
  destruct (0 <=? e10); [reflexivity|].
  destruct (SFdiv_core_binary prec emax (Zpos p) 0 (10 ^ (- e10)) 0) as [[q e] l].
  reflexivity.
Qed.

(** A decimal that is a binary64 number reads as that number. *)
Lemma roundDecimal_exact (neg : bool) (s M : positive) (e10 E : Z) :
  bounded prec emax M E = true -> sameValue s e10 M E ->
  e10 <= 400 -> -401 <= e10 + Z.log2 (Zpos s) ->
  roundDecimal neg (Npos s) e10 = S754_finite neg M E.
Proof.
  intros Hb Hv G1 G2. unfold roundDecimal, sameValue in *.
  destruct (Z.ltb_spec 400 e10) as [G | _]; [lia|].
  destruct (Z.ltb_spec (e10 + Z.log2 (Zpos s)) (-401)) as [G | _]; [lia|].
  destruct (Z.leb_spec 0 e10) as [H | H].
  - rewrite (Z.max_l e10 0), (Z.max_r (- e10) 0) in Hv by lia.
    rewrite Z.pow_0_r, Z.mul_1_r in Hv.
    assert (P : 0 < Zpos s * 10 ^ e10)
      by (apply Z.mul_pos_pos; [lia | apply Z.pow_pos_nonneg; lia]).
    destruct (Zpos s * 10 ^ e10) as [| p | p] eqn:Ep; try lia.
    assert (R : binary_round prec emax neg p 0 = S754_finite neg M E).
    { apply binary_round_0_exact; [exact Hb | |]; intros HE.
      - rewrite (Z.max_r (- E) 0), (Z.max_l E 0) in Hv by lia.
        rewrite Z.pow_0_r, Z.mul_1_r in Hv. exact Hv.
      - rewrite (Z.max_l (- E) 0), (Z.max_r E 0) in Hv by lia.
        rewrite Z.pow_0_r, Z.mul_1_r in Hv. exact Hv. }
    destruct neg; exact R.
  - rewrite (Z.max_r e10 0), (Z.max_l (- e10) 0) in Hv by lia.
    rewrite Z.pow_0_r, Z.mul_1_r in Hv.
    apply div_round_exact; [exact Hb | lia | |]; intros HE.
    + rewrite (Z.max_r (- E) 0), (Z.max_l E 0) in Hv by lia.
      rewrite Z.pow_0_r, Z.mul_1_r in Hv. exact Hv.
    + rewrite (Z.max_l (- E) 0), (Z.max_r E 0) in Hv by lia.
      rewrite Z.pow_0_r, Z.mul_1_r in Hv. exact Hv.
Qed.

Lemma binary_round_aux_opp (q e : Z) (l : location) :
  binary_round_aux prec emax true q e l
  = SFopp (binary_round_aux prec emax false q e l).
Proof.
  unfold binary_round_aux.
  destruct (shr_fexp prec emax q e l) as [m1 e1].
  destruct (shr_fexp prec emax _ e1 loc_Exact) as [m2 e2].
  destruct (shr_m m2); [reflexivity | | reflexivity].
  destruct (e2 <=? emax - prec); reflexivity.
Qed.

(** The negated decimal reads as the negated number. *)
Lemma roundDecimal_opp (m : N) (e10 : Z) :
  roundDecimal true m e10 = SFopp (roundDecimal false m e10).
Proof.
  unfold roundDecimal. destruct m as [| p]; [reflexivity|].
  destruct (400 <? e10); [reflexivity|].
  destruct (e10 + Z.log2 (Zpos p) <? -401); [reflexivity|].
  destruct (0 <=? e10) eqn:H.
  - apply Z.leb_le in H.
    assert (P : 0 < Zpos p * 10 ^ e10)
      by (apply Z.mul_pos_pos; [lia | apply Z.pow_pos_nonneg; lia]).
    destruct (Zpos p * 10 ^ e10) as [| t | t]; try lia.
    simpl cond_Zopp. simpl binary_normalize. unfold binary_round.
    destruct (shl_align t 0 _) as [mz ez]. apply binary_round_aux_opp.
  - destruct (SFdiv_core_binary prec emax (Zpos p) 0 (10 ^ (- e10)) 0) as [[q e] l].
    apply binary_round_aux_opp.
Qed.

(** ** The digits of a number *)

Lemma readsAs_spec (m : positive) (e : Z) (c : Z * Z) :
  readsAs m e c = true ->
  0 < fst c
  /\ roundDecimal false (Z.to_N (fst c)) (snd c) = S754_finite false m e.
Proof.
  unfold readsAs. intros H. split.
  - destruct (fst c) as [| p | p]; [discriminate H | lia | discriminate H].
  - destruct (roundDecimal false (Z.to_N (fst c)) (snd c)) as [| | | s m' e'];
      try discriminate.
    destruct s; [discriminate|]. apply andb_prop in H. destruct H as [H1 H2].
    apply Pos.eqb_eq in H1. apply Z.eqb_eq in H2. congruence.
Qed.

Lemma dropZeros_value (fuel : nat) (s e10 : Z) :
  0 < s ->
  0 < fst (dropZeros fuel s e10) /\ e10 <= snd (dropZeros fuel s e10)
  /\ s = fst (dropZeros fuel s e10) * 10 ^ (snd (dropZeros fuel s e10) - e10).
Proof.
  revert s e10. induction fuel as [| fuel IH]; intros s e10 Hs; simpl.
  - rewrite Z.sub_diag. simpl. lia.
  - destruct (Z.eqb_spec (s mod 10) 0) as [H | H].
    + assert (Hs' : s = 10 * (s / 10))
        by (pose proof (Z.div_mod s 10 ltac:(lia)); lia).
      destruct (IH (s / 10) (e10 + 1) ltac:(lia)) as (P & L & V).
      split; [exact P|]. split; [lia|].
      replace (snd (dropZeros fuel (s / 10) (e10 + 1)) - e10)
        with (Z.succ (snd (dropZeros fuel (s / 10) (e10 + 1)) - (e10 + 1))) by lia.
      rewrite Z.pow_succ_r by lia. lia.
    + simpl. rewrite Z.sub_diag. simpl. lia.
Qed.

Lemma exactDecimal_pos (m : positive) (e : Z) : 0 < fst (exactDecimal m e).
Proof.
  unfold exactDecimal. destruct e as [| k | k]; cbn [fst];
    apply Z.mul_pos_pos; try lia; apply Z.pow_pos_nonneg; lia.
Qed.

Lemma exactDecimal_sameValue (m p : positive) (e z : Z) :
  0 <= z -> fst (exactDecimal m e) = Zpos p * 10 ^ z ->
  sameValue p (snd (exactDecimal m e) + z) m e.
Proof.
  intros Hz Hv. unfold sameValue, exactDecimal in *. destruct e as [| k | k].
  - cbn [fst snd] in *. rewrite Z.add_0_l.
    rewrite (Z.max_l z 0), (Z.max_r (- z) 0) by lia. simpl Z.max.
    rewrite !Z.pow_0_r, !Z.mul_1_r in *. lia.
  - cbn [fst snd] in *. rewrite Z.add_0_l.
    rewrite (Z.max_l z 0), (Z.max_r (- z) 0) by lia.
    rewrite (Z.max_r (- Zpos k) 0), (Z.max_l (Zpos k) 0) by lia.
    rewrite !Z.pow_0_r, !Z.mul_1_r. lia.
  - cbn [fst snd] in *.
    rewrite (Z.max_l (- Zneg k) 0), (Z.max_r (Zneg k) 0) by lia.
    rewrite Z.pow_0_r, Z.mul_1_r. change (- Zneg k) with (Zpos k).
    assert (P5 : 0 < 5 ^ Zpos k) by (apply Z.pow_pos_nonneg; lia).
    assert (P2 : 0 < 2 ^ Zpos k) by (apply Z.pow_pos_nonneg; lia).
    assert (T : 10 ^ Zpos k = 2 ^ Zpos k * 5 ^ Zpos k)
      by (change 10 with (2 * 5); apply Z.pow_mul_l).
    destruct (Z.leb_spec 0 (Zneg k + z)) as [H | H].
    + rewrite (Z.max_l (Zneg k + z) 0), (Z.max_r (- (Zneg k + z)) 0) by lia.
      rewrite Z.pow_0_r, Z.mul_1_r.
      replace z with (Zneg k + z + Zpos k) in Hv by lia.
      rewrite Z.pow_add_r, T in Hv by lia.
      apply (Z.mul_reg_r _ _ (5 ^ Zpos k)); [lia|]. rewrite Hv. ring.
    + rewrite (Z.max_r (Zneg k + z) 0), (Z.max_l (- (Zneg k + z)) 0) by lia.
      rewrite Z.pow_0_r, Z.mul_1_r.
      assert (Pz : 0 < 10 ^ z) by (apply Z.pow_pos_nonneg; lia).
      apply (Z.mul_reg_r _ _ (10 ^ z)); [lia|].
      rewrite <- (Z.mul_assoc (Zpos m)), <- Z.pow_add_r by lia.
      replace (- (Zneg k + z) + z) with (Zpos k) by lia.
      rewrite T. transitivity (2 ^ Zpos k * (Zpos p * 10 ^ z)); [ring|].
      rewrite <- Hv. ring.
Qed.

Lemma mantissa_bound (m : positive) (e : Z) :
  bounded prec emax m e = true -> Zpos m < 2 ^ 53 /\ -1074 <= e <= 971.
Proof.
  intros Hb. destruct (bounded_inv m e Hb) as (Hd & He & _).
  destruct (bounded_canonical m e Hb) as [_ He'].
  pose proof (digits2_pos_bounds m) as [_ Mhi].
  split; [|unfold emax, prec in He'; lia].
  eapply Z.lt_le_trans; [exact Mhi|]. apply Z.pow_le_mono_r; lia.
Qed.

Lemma pow10_le_pow2 (z : Z) : 0 <= z -> 10 ^ z <= 2 ^ (4 * z).
Proof.
  intros Hz. rewrite Z.pow_mul_r by lia. change (2 ^ 4) with 16.
  apply Z.pow_le_mono_l. lia.
Qed.

Lemma exactDecimal_guards (m p : positive) (e z : Z) :
  bounded prec emax m e = true ->
  0 <= z -> fst (exactDecimal m e) = Zpos p * 10 ^ z ->
  snd (exactDecimal m e) + z <= 400
  /\ -401 <= snd (exactDecimal m e) + z + Z.log2 (Zpos p).
Proof.
  intros Hb Hz Hv. destruct (mantissa_bound m e Hb) as [Hm He].
  assert (Pz : 0 < 10 ^ z) by (apply Z.pow_pos_nonneg; lia).
  assert (L : 0 <= Z.log2 (Zpos p)) by apply Z.log2_nonneg.
  assert (Big : 2 ^ 1024 < 10 ^ 400) by reflexivity.
  unfold exactDecimal in *. destruct e as [| k | k]; cbn [fst snd] in *.
  - split; [|lia]. rewrite Z.pow_0_r in Hv.
    destruct (Z.leb_spec z 400); [lia|].
    assert (10 ^ 400 <= 10 ^ z) by (apply Z.pow_le_mono_r; lia).
    assert (2 ^ 53 < 2 ^ 1024) by reflexivity. nia.
  - split; [|lia].
    destruct (Z.leb_spec z 400); [lia|].
    assert (10 ^ 400 <= 10 ^ z) by (apply Z.pow_le_mono_r; lia).
    assert (2 ^ Zpos k <= 2 ^ 971) by (apply Z.pow_le_mono_r; lia).
    assert (0 < 2 ^ Zpos k) by (apply Z.pow_pos_nonneg; lia).
    assert (2 ^ 53 * 2 ^ 971 = 2 ^ 1024) by reflexivity. nia.
  - assert (P5 : 0 < 5 ^ Zpos k) by (apply Z.pow_pos_nonneg; lia).
    split.
    + destruct (Z.leb_spec (Zneg k + z) 400); [lia|].
      assert (10 ^ (400 + Zpos k) <= 10 ^ z) by (apply Z.pow_le_mono_r; lia).
      rewrite Z.pow_add_r in * by lia.
      assert (5 ^ Zpos k <= 10 ^ Zpos k) by (apply Z.pow_le_mono_l; lia).
      assert (2 ^ 53 < 10 ^ 400) by reflexivity. nia.
    + destruct (Z.leb_spec (Zpos k) 401); [lia|].
      assert (Hdiv : (2 ^ z | Zpos m)).
      { apply (Z.gauss _ (5 ^ Zpos k)).
        - rewrite Z.mul_comm, Hv. change 10 with (2 * 5).
          rewrite Z.pow_mul_l. exists (Zpos p * 5 ^ z). ring.
        - apply Z.coprime_pow_l; [lia|]. apply Z.coprime_pow_r; [lia|].
          reflexivity. }
      assert (Hz53 : z < 53).
      { apply Z.divide_pos_le in Hdiv; [|lia].
        apply (Z.pow_lt_mono_r_iff 2); lia. }
      destruct (Z.leb_spec (Zpos k - z - 401) 0) as [Hsmall | Hlarge]; [lia|].
      assert (Hp : 2 ^ (Zpos k - z - 401) <= Zpos p).
      { destruct (Z.leb_spec (2 ^ (Zpos k - z - 401)) (Zpos p)); [assumption|].
        exfalso.
        assert (A : Zpos p * 10 ^ z < 2 ^ (Zpos k - z - 401) * 2 ^ (4 * z)).
        { pose proof (pow10_le_pow2 z Hz).
          assert (0 < 2 ^ (Zpos k - z - 401)) by (apply Z.pow_pos_nonneg; lia).
          nia. }
        rewrite <- Z.pow_add_r in A by lia.
        assert (B : 2 ^ (Zpos k - z - 401 + 4 * z) <= 2 ^ Zpos k)
          by (apply Z.pow_le_mono_r; lia).
        assert (C : 2 ^ Zpos k <= 5 ^ Zpos k) by (apply Z.pow_le_mono_l; lia).
        nia. }
      apply Z.log2_le_pow2 in Hp; lia.
Qed.

(** The exact decimal of a number reads as the number. *)
Lemma exactDecimal_reads (m : positive) (e : Z) (fuel : nat) :
  bounded prec emax m e = true ->
  readsAs m e (dropZeros fuel (fst (exactDecimal m e)) (snd (exactDecimal m e)))
  = true.
Proof.
  intros Hb.
  destruct (dropZeros_value fuel (fst (exactDecimal m e)) (snd (exactDecimal m e))
              (exactDecimal_pos m e)) as (P & L & V).
  set (c := dropZeros fuel (fst (exactDecimal m e)) (snd (exactDecimal m e))) in *.
  destruct (fst c) as [| p | p] eqn:Ec; try lia.
  set (z := snd c - snd (exactDecimal m e)) in *.
  assert (Es : snd c = snd (exactDecimal m e) + z) by (unfold z; lia).
  destruct (exactDecimal_guards m p e z Hb ltac:(lia) V) as [G1 G2].
  pose proof (exactDecimal_sameValue m p e z ltac:(lia) V) as SV.
  unfold readsAs. rewrite Ec, Es. simpl Z.to_N.
  rewrite (roundDecimal_exact false p m _ e Hb SV G1 G2).
  now rewrite Pos.eqb_refl, Z.eqb_refl.
Qed.

Lemma shortestFrom_reads (fuel : nat) (m : positive) (e : Z) (d k : Z) :
  bounded prec emax m e = true ->
  readsAs m e (shortestFrom fuel m e (fst (exactDecimal m e)) d
                            (snd (exactDecimal m e)) k) = true.
Proof.
  intros Hb. revert k. induction fuel as [| fuel IH]; intros k.
  - apply exactDecimal_reads. exact Hb.
  - cbn [shortestFrom]. cbv zeta.
    match goal with |- readsAs m e (if readsAs m e ?a then _ else _) = true =>
      destruct (readsAs m e a) eqn:Ea; [exact Ea|] end.
    match goal with |- readsAs m e (if readsAs m e ?a then _ else _) = true =>
      destruct (readsAs m e a) eqn:Eb; [exact Eb|] end.
    apply IH.
Qed.
(** ** Reading a number *)

Lemma append_assoc (a b c : string) : ((a ++ b) ++ c)%string = (a ++ (b ++ c))%string.
Proof. induction a; simpl; congruence. Qed.

Lemma digit_not_minus (c : ascii) (t : string) :
  isDigit c = true ->
  match String c t with
  | String "-" u => (true, u)
  | _ => (false, String c t)
  end = (false, String c t).
Proof.
  intros H. apply isDigit_cases in H.
  repeat (destruct H as [-> | H]); try subst c; reflexivity.
Qed.

Lemma spanDigits_then (a r : string) :
  forallChars isDigit a = true ->
  match r with String c _ => isDigit c = false | EmptyString => True end ->
  spanDigits (a ++ r) = (a, r).
Proof. apply spanDigits_app. Qed.

Lemma endsNumber_not_digit (rest : string) :
  endsNumber rest = true ->
  match rest with String c _ => isDigit c = false | EmptyString => True end.
Proof.
  destruct rest as [| c r]; [trivial|]. simpl. intros H.
  apply negb_true_iff in H. repeat (apply orb_false_iff in H; destruct H as [H ?]).
  exact H.
Qed.

Lemma exponentText_reads (ex : option Z) (rest : string) :
  endsNumber rest = true ->
  match (exponentText ex ++ rest)%string with
  | String c' t =>
      if (Ascii.eqb c' "e" || Ascii.eqb c' "E")%bool then
        let '(minus, t') :=
          match t with
          | String "-" t' => (true, t')
          | String "+" t' => (false, t')
          | _ => (false, t)
          end in
        match spanDigits t' with
        | (EmptyString, _) => None
        | (d, r'') =>
            let v := Z.of_N (digitsValue d) in
            Some (if minus then - v else v, r'')
        end
      else Some (0, (exponentText ex ++ rest)%string)
  | EmptyString => Some (0, (exponentText ex ++ rest)%string)
  end = Some (match ex with Some c => c | None => 0 end, rest).
Proof.
  intros Hr. destruct ex as [c|]; cbn [exponentText append].
  - change (Ascii.eqb "e" "e" || Ascii.eqb "e" "E")%bool with true. cbv iota.
    assert (Hd : forallChars isDigit (digitsOfZ (Z.abs c)) = true).
    { rewrite digitsOfZ_nonneg by lia. apply digitsOfN_digits. }
    assert (Hv : Z.of_N (digitsValue (digitsOfZ (Z.abs c))) = Z.abs c).
    { rewrite digitsOfZ_nonneg by lia. rewrite digitsValue_digitsOfN. lia. }
    assert (Hne : digitsOfZ (Z.abs c) <> "").
    { rewrite digitsOfZ_nonneg by lia. apply digitsOfN_not_empty. }
    destruct (Z.ltb_spec c 0) as [H | H]; cbn [append];
      rewrite (spanDigits_app _ rest Hd (endsNumber_not_digit rest Hr));
      destruct (digitsOfZ (Z.abs c)) as [| d0 dr] eqn:Ed; try congruence;
      rewrite Hv; do 2 f_equal; lia.
  - destruct rest as [| c r]; [reflexivity|]. simpl in Hr.
    apply negb_true_iff in Hr.
    repeat (apply orb_false_iff in Hr; destruct Hr as [Hr ?]).
    cbn [append]. now replace (Ascii.eqb c "e" || Ascii.eqb c "E")%bool with false
      by (symmetry; apply orb_false_iff; split; assumption).
Qed.

Lemma integerDigits_inv (ip : string) :
  integerDigits ip = true ->
  forallChars isDigit ip = true
  /\ exists c ip', ip = String c ip' /\ isDigit c = true
                   /\ (Ascii.eqb c "0" && truthy_string ip')%bool = false.
Proof.
  unfold integerDigits. intros H. apply andb_prop in H. destruct H as [Hd H].
  split; [exact Hd|]. destruct ip as [| c ip']; [discriminate|].
  exists c, ip'. split; [reflexivity|].
  simpl in Hd. apply andb_prop in Hd. destruct Hd as [Hc _]. split; [exact Hc|].
  destruct ip' as [| c2 r]; [apply andb_false_r|].
  destruct (Ascii.eqb_spec c "0") as [-> | ]; [discriminate H | reflexivity].
Qed.

(** A numeric literal written as its parts reads as the decimal of its
    digits. *)
Lemma scanNumber_text (neg : bool) (ip fp : string) (ex : option Z) (rest : string) :
  integerDigits ip = true -> forallChars isDigit fp = true ->
  endsNumber rest = true ->
  scanNumber ((if neg then "-" else "") ++ ip ++ fractionText fp
                ++ exponentText ex ++ rest)
  = Value (ofDecimal neg (digitsValue (ip ++ fp))
                     (match ex with Some c => c | None => 0 end
                      - Z.of_nat (String.length fp)))
          rest.
Proof.
  intros Hip Hfp Hr.
  destruct (integerDigits_inv ip Hip) as (Hd & c & ip' & -> & Hc & Hz).
  set (tail := (fractionText fp ++ exponentText ex ++ rest)%string).
  assert (Hsign : match ((if neg then "-" else "") ++ String c ip' ++ tail)%string with
                  | String "-" t => (true, t)
                  | _ => (false, ((if neg then "-" else "") ++ String c ip' ++ tail)%string)
                  end = (neg, (String c ip' ++ tail)%string)).
  { destruct neg; [reflexivity|]. cbn [append]. now apply digit_not_minus. }
  unfold scanNumber. rewrite Hsign. clear Hsign.
  assert (Hexp : match (exponentText ex ++ rest)%string with
                 | String c0 _ => isDigit c0 = false
                 | EmptyString => True
                 end).
  { destruct ex as [z|]; [reflexivity|]. cbn [exponentText append].
    now apply endsNumber_not_digit. }
  assert (Htail : match tail with
                  | String c0 _ => isDigit c0 = false
                  | EmptyString => True
                  end).
  { unfold tail. destruct fp as [| f fp']; [exact Hexp | reflexivity]. }
  rewrite (spanDigits_app (String c ip') tail Hd Htail). rewrite Hz.
  assert (Hfrac : match tail with
                  | String "." t =>
                      match spanDigits t with
                      | (EmptyString, _) => None
                      | (fp0, r') => Some (fp0, r')
                      end
                  | _ => Some (EmptyString, tail)
                  end = Some (fp, (exponentText ex ++ rest)%string)).
  { unfold tail. destruct fp as [| f fp'].
    - cbn [fractionText append].
      destruct ex as [z|]; [reflexivity|]. cbn [exponentText append].
      destruct rest as [| c0 r]; [reflexivity|]. simpl in Hr.
      apply negb_true_iff in Hr.
      repeat (apply orb_false_iff in Hr; destruct Hr as [Hr ?]).
      destruct (Ascii.eqb_spec c0 "."); [discriminate|].
      destruct c0 as [[] [] [] [] [] [] [] []]; try reflexivity. congruence.
    - cbn [fractionText append].
      change (String f (fp' ++ exponentText ex ++ rest))
        with (String f fp' ++ (exponentText ex ++ rest))%string.
      rewrite (spanDigits_app (String f fp') _ Hfp Hexp). reflexivity. }
  rewrite Hfrac. pose proof (exponentText_reads ex rest Hr) as He.
  cbv beta iota zeta in He |- *. rewrite He. reflexivity.
Qed.

(** ** Writing a number *)

Lemma to_uint_no_leading_zero (p : positive) (d : Decimal.uint) :
  Pos.to_uint p <> Decimal.D0 d.
Proof.
  intros E.
  pose proof (Unsigned.to_of (Pos.to_uint p)) as T.
  rewrite Unsigned.of_to in T. simpl N.to_uint in T.
  rewrite E in T. unfold Decimal.unorm in T. simpl Decimal.nzhead in T.
  destruct (Decimal.nzhead d) eqn:En;
    try (apply (DecimalFacts.nzhead_nonzero d d); congruence).
  injection T as ->. now apply (Unsigned.to_uint_nonzero p).
Qed.

Lemma digitsOfN_first (p : positive) :
  exists c r, digitsOfN (Npos p) = String c r /\ Ascii.eqb c "0" = false.
Proof.
  unfold digitsOfN, NilZero.string_of_uint. simpl N.to_uint.
  pose proof (Unsigned.to_uint_nonnil p) as Hn.
  pose proof (to_uint_no_leading_zero p) as Hz.
  destruct (Pos.to_uint p) as [| d | d | d | d | d | d | d | d | d | d];
    try congruence; try (eexists _, _; split; reflexivity);
    exfalso; now apply (Hz d).
Qed.

Lemma digitsValueFrom_app (acc : N) (a b : string) :
  digitsValueFrom acc (a ++ b) = digitsValueFrom (digitsValueFrom acc a) b.
Proof. revert acc. induction a as [| c a IH]; intros acc; simpl; auto. Qed.

Lemma digitsValueFrom_zeros_r (acc : N) (n : nat) :
  digitsValueFrom acc (zeros n) = (acc * 10 ^ N.of_nat n)%N.
Proof.
  revert acc. induction n as [| n IH]; intros acc.
  - simpl. lia.
  - cbn [zeros digitsValueFrom]. rewrite IH.
    change (digitVal "0") with 0%N.
    replace (N.of_nat (S n)) with (N.succ (N.of_nat n)) by lia.
    rewrite N.pow_succ_r'. lia.
Qed.

(** Zeros after the digits are a power of ten in the exponent. *)
Lemma ofDecimal_shift (neg : bool) (p : positive) (z : nat) :
  Z.of_nat z <= 400 ->
  ofDecimal neg (Npos p * 10 ^ N.of_nat z) 0 = ofDecimal neg (Npos p) (Z.of_nat z).
Proof.
  intros Hz.
  assert (P : (0 < Npos p * 10 ^ N.of_nat z)%N).
  { apply N.mul_pos_pos; [lia|]. apply N.neq_0_lt_0, N.pow_nonzero. lia. }
  destruct (Npos p * 10 ^ N.of_nat z)%N as [| q] eqn:Eq; [lia|].
  assert (Hq : Zpos q = Zpos p * 10 ^ Z.of_nat z).
  { change (Zpos q) with (Z.of_N (Npos q)). rewrite <- Eq.
    rewrite N2Z.inj_mul, N2Z.inj_pow, nat_N_Z. reflexivity. }
  unfold ofDecimal.
  change (400 <? 0) with false. cbv iota.
  destruct (Z.ltb_spec 400 (Z.of_nat z)); [lia|].
  pose proof (Z.log2_nonneg (Zpos q)). pose proof (Z.log2_nonneg (Zpos p)).
  destruct (Z.ltb_spec (0 + Z.log2 (Zpos q)) (-401)); [lia|].
  destruct (Z.ltb_spec (Z.of_nat z + Z.log2 (Zpos p)) (-401)); [lia|].
  change (0 <=? 0) with true. cbv iota.
  destruct (Z.leb_spec 0 (Z.of_nat z)); [|lia].
  rewrite Z.pow_0_r, Z.mul_1_r, Hq. reflexivity.
Qed.

Lemma binary64_of_reads (s : bool) (m : positive) (e : Z) (x : number) (c : Z * Z) :
  Prim2SF x = S754_finite s m e -> readsAs m e c = true ->
  ofDecimal s (Z.to_N (fst c)) (snd c) = x.
Proof.
  intros Hx Hr. destruct (readsAs_spec m e c Hr) as [_ R].
  rewrite ofDecimal_roundDecimal. rewrite <- (SF2Prim_Prim2SF x), Hx.
  unfold binary64. f_equal. destruct s; [|exact R].
  rewrite roundDecimal_opp, R. reflexivity.
Qed.

Lemma substring_digits (s : string) (n k : nat) :
  forallChars isDigit s = true -> forallChars isDigit (substring n k s) = true.
Proof.
  revert n k. induction s as [| c s IH]; intros n k H.
  - destruct n, k; reflexivity.
  - simpl in H. apply andb_prop in H. destruct H as [Hc Hs].
    destruct n as [| n]; destruct k as [| k]; simpl; auto.
    rewrite Hc. simpl. apply IH. exact Hs.
Qed.

Lemma substring_first (c : ascii) (s : string) (k : nat) :
  substring 0 (S k) (String c s) = String c (substring 0 k s).
Proof. reflexivity. Qed.

(** The text of a finite number that is not zero, in the parts of a
    numeric literal that reads as the number. *)
Lemma NumberToString_parts (x : number) (s : bool) (m : positive) (e : Z) :
  Prim2SF x = S754_finite s m e ->
  exists ip fp ex,
    NumberToString x
    = ((if s then "-" else "") ++ ip ++ fractionText fp ++ exponentText ex)%string
    /\ integerDigits ip = true
    /\ forallChars isDigit fp = true
    /\ ofDecimal s (digitsValue (ip ++ fp))
                 (match ex with Some c => c | None => 0 end
                  - Z.of_nat (String.length fp)) = x.
Proof.
  intros Hx. pose proof (valid_finite x s m e Hx) as Hb.
  unfold NumberToString. rewrite Hx. unfold shortestDecimal.
  pose proof (shortestFrom_reads
                (Z.to_nat (Z.of_nat (String.length (digitsOfZ (fst (exactDecimal m e)))) - 1))
                m e (Z.of_nat (String.length (digitsOfZ (fst (exactDecimal m e))))) 1 Hb)
    as Hr.
  destruct (exactDecimal m e) as [s0 e0]. cbn [fst snd] in Hr.
  destruct (shortestFrom _ m e s0 _ e0 1) as [sv e10].
  pose proof (binary64_of_reads s m e x (sv, e10) Hx Hr) as V.
  destruct (readsAs_spec m e (sv, e10) Hr) as [Hpos _].
  cbn [fst snd] in V, Hpos. destruct sv as [| p | p]; try lia.
  change (digitsOfZ (Zpos p)) with (digitsOfN (Npos p)).
  simpl Z.to_N in V.
  pose proof (digitsOfN_digits (Npos p)) as Hds.
  pose proof (digitsValue_digitsOfN (Npos p)) as Hval.
  destruct (digitsOfN_first p) as (c0 & r0 & Eds & Hc0).
  set (ds := digitsOfN (Npos p)) in *.
  set (k := Z.of_nat (String.length ds)).
  assert (Hk : 1 <= k) by (unfold k; rewrite Eds; simpl String.length; lia).
  set (n := k + e10).
  assert (Hint : forall t, forallChars isDigit t = true ->
                           integerDigits (ds ++ t) = true).
  { intros t Ht. unfold integerDigits. rewrite forallChars_app, Hds, Ht.
    rewrite Eds. cbn [append]. simpl andb.
    destruct c0 as [[] [] [] [] [] [] [] []]; try reflexivity; discriminate. }
  destruct ((-6 <? n) && (n <=? 21)) eqn:Hrange.
  - apply andb_prop in Hrange. destruct Hrange as [Hlo Hhi].
    apply Z.ltb_lt in Hlo. apply Z.leb_le in Hhi.
    destruct (Z.leb_spec k n) as [Hkn | Hkn].
    + (* digits and zeros *)
      exists (ds ++ zeros (Z.to_nat (n - k)))%string, EmptyString, None.
      cbn [fractionText exponentText]. rewrite !append_empty.
      split; [reflexivity|]. split; [apply Hint, zeros_digits|].
      split; [reflexivity|].
      unfold digitsValue. rewrite digitsValueFrom_app.
      fold (digitsValue ds). rewrite Hval, digitsValueFrom_zeros_r.
      simpl String.length. rewrite ofDecimal_shift by lia.
      replace (Z.of_nat (Z.to_nat (n - k))) with e10 by (unfold n; lia). exact V.
    + destruct (Z.ltb_spec 0 n) as [Hn | Hn].
      * (* digits, a point, digits *)
        set (ip := substring 0 (Z.to_nat n) ds).
        set (fp := substring (Z.to_nat n) (Z.to_nat (k - n)) ds).
        assert (Hsplit : (ip ++ fp)%string = ds).
        { unfold ip, fp.
          replace (Z.to_nat (k - n)) with (String.length ds - Z.to_nat n)%nat
            by (unfold k; lia).
          apply substring_split. unfold k in *. lia. }
        assert (Hfl : String.length fp = Z.to_nat (k - n)).
        { unfold fp. apply length_substring. unfold k in *. lia. }
        exists ip, fp, None. cbn [exponentText]. rewrite append_empty.
        split.
        { destruct fp as [| f fp']; [simpl in Hfl; lia | reflexivity]. }
        split.
        { unfold integerDigits. unfold ip at 1. rewrite substring_digits by exact Hds.
          unfold ip. rewrite Eds.
          destruct (Z.to_nat n) as [| n'] eqn:En; [lia|].
          rewrite substring_first.
          destruct c0 as [[] [] [] [] [] [] [] []]; try reflexivity; discriminate. }
        split; [unfold fp; apply substring_digits; exact Hds|].
        rewrite Hsplit, Hval, Hfl.
        replace (0 - Z.of_nat (Z.to_nat (k - n))) with e10 by (unfold n in *; lia).
        exact V.
      * (* zero, a point, zeros, digits *)
        exists "0"%string, (zeros (Z.to_nat (- n)) ++ ds)%string, None.
        cbn [exponentText]. rewrite append_empty.
        assert (Hne : (zeros (Z.to_nat (- n)) ++ ds)%string <> "").
        { rewrite Eds. destruct (zeros (Z.to_nat (- n))); discriminate. }
        split.
        { destruct (zeros (Z.to_nat (- n)) ++ ds)%string eqn:E; [congruence|].
          reflexivity. }
        split; [reflexivity|].
        split; [rewrite forallChars_app, zeros_digits, Hds; reflexivity|].
        change ("0" ++ zeros (Z.to_nat (- n)) ++ ds)%string
          with (zeros (S (Z.to_nat (- n))) ++ ds)%string.
        unfold digitsValue. rewrite digitsValueFrom_zeros.
        fold (digitsValue ds). rewrite Hval, length_append, length_zeros.
        replace (0 - Z.of_nat (Z.to_nat (- n) + String.length ds)) with e10
          by (unfold n, k in *; lia).
        exact V.
  - (* exponential notation *)
    exists (String c0 EmptyString), r0, (Some (n - 1)).
    assert (Hr0 : forallChars isDigit r0 = true).
    { rewrite Eds in Hds. simpl in Hds. now apply andb_prop in Hds. }
    split.
    { rewrite Eds. cbn [exponentText].
      destruct r0 as [| c1 r1]; [reflexivity|].
      cbn [fractionText append]. reflexivity. }
    split.
    { unfold integerDigits. rewrite Eds in Hds. simpl in Hds.
      apply andb_prop in Hds. destruct Hds as [Hc _]. simpl. rewrite Hc.
      destruct c0 as [[] [] [] [] [] [] [] []]; reflexivity. }
    split; [exact Hr0|].
    change (String c0 "" ++ r0)%string with (String c0 r0). rewrite <- Eds, Hval.
    replace (n - 1 - Z.of_nat (String.length r0)) with e10; [exact V|].
    unfold n, k. rewrite Eds. simpl String.length. lia.
Qed.

(** A finite number, written and read, is the number ([-0], written [0],
    apart). *)
Lemma scanNumber_NumberToString (x : number) (rest : string) :
  isFinite x = true -> (is_zero x = true -> x = zero) ->
  endsNumber rest = true ->
  scanNumber (NumberToString x ++ rest) = Value x rest.
Proof.
  intros Hf Hz Hr.
  destruct (Prim2SF x) as [s | s | | s m e] eqn:Ex.
  - assert (Z0 : is_zero x = true).
    { unfold is_zero. rewrite eqb_spec, Ex. destruct s; reflexivity. }
    rewrite (Hz Z0). change (NumberToString zero) with "0".
    change ("0" ++ rest)%string
      with ((if false then "-" else "") ++ "0" ++ fractionText "" ++ exponentText None
              ++ rest)%string.
    rewrite scanNumber_text by (reflexivity || exact Hr). reflexivity.
  - exfalso. unfold isFinite, is_infinity in Hf.
    rewrite eqb_spec, abs_spec, Ex in Hf. simpl in Hf.
    rewrite orb_true_r in Hf. discriminate.
  - exfalso. unfold isFinite, is_nan in Hf. rewrite eqb_spec, Ex in Hf.
    discriminate.
  - destruct (NumberToString_parts x s m e Ex) as (ip & fp & ex & -> & Hip & Hfp & V).
    rewrite !append_assoc. rewrite scanNumber_text by assumption.
    now rewrite V.
Qed.
(** ** Reading a JSON text *)

Lemma scanString_quoteChar (c : ascii) (t : string) :
  scanString (quoteChar c ++ t) = consChar c (scanString t).
Proof. destruct c as [[] [] [] [] [] [] [] []]; reflexivity. Qed.

(** A quoted string reads as the string. *)
Lemma scanString_quoted (s rest : string) :
  scanString (quoteChars s ++ String "034" rest) = Value s rest.
Proof.
  induction s as [| c s IH].
  - reflexivity.
  - cbn [quoteChars]. rewrite append_assoc, scanString_quoteChar, IH. reflexivity.
Qed.

Lemma parseValue_string (fuel : nat) (s rest : string) :
  parseValue (S fuel) (QuoteJSONString s ++ rest) = Value (JString s) rest.
Proof.
  unfold QuoteJSONString. cbn [append parseValue].
  rewrite append_assoc. cbn [append]. now rewrite scanString_quoted.
Qed.

Lemma parseValue_null (fuel : nat) (rest : string) :
  parseValue (S fuel) ("null" ++ rest) = Value JNull rest.
Proof. reflexivity. Qed.

Lemma parseValue_scanNumber (fuel : nat) (c : ascii) (t : string) :
  isDigit c = true \/ c = "-"%char ->
  parseValue (S fuel) (String c t)
  = match scanNumber (String c t) with
    | Value x r => Value (JNumber x) r
    | SyntaxError => SyntaxError
    | Unrepresented => Unrepresented
    end.
Proof.
  intros [H | ->]; [|reflexivity].
  apply isDigit_cases in H.
  repeat (destruct H as [-> | H]); try subst c; reflexivity.
Qed.

Lemma parseValue_number (fuel : nat) (x : number) (rest : string) :
  isFinite x = true -> (is_zero x = true -> x = zero) ->
  endsNumber rest = true ->
  parseValue (S fuel) (NumberToString x ++ rest) = Value (JNumber x) rest.
Proof.
  intros Hf Hz Hr.
  assert (Hc : exists c t, (NumberToString x ++ rest)%string = String c t
                           /\ (isDigit c = true \/ c = "-"%char)).
  { destruct (Prim2SF x) as [s | s | | s m e] eqn:Ex.
    - unfold NumberToString. rewrite Ex. eexists _, _. split; [reflexivity|].
      left. reflexivity.
    - exfalso. unfold isFinite, is_infinity in Hf.
      rewrite eqb_spec, abs_spec, Ex in Hf. simpl in Hf.
      rewrite orb_true_r in Hf. discriminate.
    - exfalso. unfold isFinite, is_nan in Hf. rewrite eqb_spec, Ex in Hf.
      discriminate.
    - destruct (NumberToString_parts x s m e Ex) as (ip & fp & ex & -> & Hip & _).
      destruct (integerDigits_inv ip Hip) as (_ & c & ip' & -> & Hd & _).
      destruct s; cbn [append]; eexists _, _; (split; [reflexivity|]); auto. }
  destruct Hc as (c & t & E & Hc). rewrite E, (parseValue_scanNumber fuel c t Hc).
  rewrite <- E, scanNumber_NumberToString by assumption. reflexivity.
Qed.

Lemma isFinite_jsonOfNumber (x : number) :
  match jsonOfNumber x with
  | JNumber y => isFinite y = true /\ (is_zero y = true -> y = zero)
  | JNull => True
  | _ => False
  end.
Proof.
  unfold jsonOfNumber. destruct (isFinite x) eqn:Hf; [|trivial].
  destruct (is_zero x) eqn:Hz.
  - split; [reflexivity | trivial].
  - split; [exact Hf | congruence].
Qed.

(** The amount of a record, written and read. *)
Lemma parseValue_jsonOfNumber (fuel : nat) (x : number) (rest : string) :
  endsNumber rest = true ->
  parseValue (S fuel) (JSON_text (jsonOfNumber x) ++ rest)
  = Value (jsonOfNumber x) rest.
Proof.
  intros Hr. pose proof (isFinite_jsonOfNumber x) as H.
  destruct (jsonOfNumber x) as [| | y | | |]; try contradiction.
  - reflexivity.
  - destruct H as [Hf Hz]. cbn [JSON_text]. rewrite Hf.
    now apply parseValue_number.
Qed.

Lemma skipWhiteSpace_quote (t : string) :
  skipWhiteSpace (String "034" t) = String "034" t.
Proof. reflexivity. Qed.

Lemma skipWhiteSpace_colon (t : string) :
  skipWhiteSpace (String ":" t) = String ":" t.
Proof. reflexivity. Qed.

Lemma skipWhiteSpace_comma (t : string) :
  skipWhiteSpace (String "," t) = String "," t.
Proof. reflexivity. Qed.

Lemma skipWhiteSpace_brace (t : string) :
  skipWhiteSpace (String "}" t) = String "}" t.
Proof. reflexivity. Qed.

Lemma skipWhiteSpace_open (t : string) :
  skipWhiteSpace (String "{" t) = String "{" t.
Proof. reflexivity. Qed.

Lemma skipWhiteSpace_bracket (t : string) :
  skipWhiteSpace (String "]" t) = String "]" t.
Proof. reflexivity. Qed.

(** A member that is followed by another one. *)
Lemma parseMembers_next (fuel : nat) (acc : list (string * json)) (k vt : string)
    (v : json) (next : string) :
  skipWhiteSpace (vt ++ String "," next) = (vt ++ String "," next)%string ->
  skipWhiteSpace next = next ->
  parseValue fuel (vt ++ String "," next) = Value v (String "," next) ->
  parseMembers (S fuel) acc (QuoteJSONString k ++ String ":" (vt ++ String "," next))
  = parseMembers fuel (setField k v acc) next.
Proof.
  intros Hs Hn Hv. unfold QuoteJSONString. cbn [append parseMembers].
  rewrite append_assoc. cbn [append]. rewrite scanString_quoted.
  rewrite skipWhiteSpace_colon, Hs, Hv, skipWhiteSpace_comma, Hn.
  reflexivity.
Qed.

(** The last member of an object. *)
Lemma parseMembers_last (fuel : nat) (acc : list (string * json)) (k vt : string)
    (v : json) (rest : string) :
  skipWhiteSpace (vt ++ String "}" rest) = (vt ++ String "}" rest)%string ->
  parseValue fuel (vt ++ String "}" rest) = Value v (String "}" rest) ->
  parseMembers (S fuel) acc (QuoteJSONString k ++ String ":" (vt ++ String "}" rest))
  = Value (JObject (setField k v acc)) rest.
Proof.
  intros Hs Hv. unfold QuoteJSONString. cbn [append parseMembers].
  rewrite append_assoc. cbn [append]. rewrite scanString_quoted.
  rewrite skipWhiteSpace_colon, Hs, Hv, skipWhiteSpace_brace. reflexivity.
Qed.

Lemma skipWhiteSpace_string (s rest : string) :
  skipWhiteSpace (QuoteJSONString s ++ rest) = (QuoteJSONString s ++ rest)%string.
Proof. reflexivity. Qed.

Lemma skipWhiteSpace_number (x : number) (rest : string) :
  isFinite x = true ->
  skipWhiteSpace (NumberToString x ++ rest) = (NumberToString x ++ rest)%string.
Proof.
  intros Hf. destruct (Prim2SF x) as [s | s | | s m e] eqn:Ex.
  - unfold NumberToString. rewrite Ex. reflexivity.
  - exfalso. unfold isFinite, is_infinity in Hf.
    rewrite eqb_spec, abs_spec, Ex in Hf. simpl in Hf.
    rewrite orb_true_r in Hf. discriminate.
  - exfalso. unfold isFinite, is_nan in Hf. rewrite eqb_spec, Ex in Hf.
    discriminate.
  - destruct (NumberToString_parts x s m e Ex) as (ip & fp & ex & -> & Hip & _).
    destruct (integerDigits_inv ip Hip) as (_ & c & ip' & -> & Hd & _).
    apply isDigit_cases in Hd.
    destruct s; cbn [append]; [reflexivity|].
    repeat (destruct Hd as [-> | Hd]); try subst c; reflexivity.
Qed.

(** A scalar, written and read. *)
Lemma parseValue_scalar (fuel : nat) (v : json) (rest : string) :
  scalar v -> endsNumber rest = true ->
  parseValue (S fuel) (JSON_text v ++ rest) = Value v rest.
Proof.
  intros Hv Hr. destruct v as [| b | x | s | items | fields]; try contradiction.
  - reflexivity.
  - destruct Hv as [Hf Hz]. cbn [JSON_text]. rewrite Hf.
    now apply parseValue_number.
  - apply parseValue_string.
Qed.

Lemma skipWhiteSpace_scalar (v : json) (rest : string) :
  scalar v ->
  skipWhiteSpace (JSON_text v ++ rest) = (JSON_text v ++ rest)%string.
Proof.
  intros Hv. destruct v as [| b | x | s | items | fields]; try contradiction.
  - reflexivity.
  - destruct Hv as [Hf _]. cbn [JSON_text]. rewrite Hf.
    now apply skipWhiteSpace_number.
  - apply skipWhiteSpace_string.
Qed.

Lemma scalar_jsonOfNumber (x : number) : scalar (jsonOfNumber x).
Proof.
  pose proof (isFinite_jsonOfNumber x) as H.
  destruct (jsonOfNumber x); simpl; auto.
Qed.

Lemma setField_fresh (k : string) (v : json) (acc : list (string * json)) :
  ~ In k (map fst acc) -> setField k v acc = (acc ++ [(k, v)])%list.
Proof.
  induction acc as [| [k' v'] acc IH]; intros H; simpl; [reflexivity|].
  simpl in H. destruct (String.eqb_spec k' k) as [E | E]; [tauto|].
  f_equal. apply IH. tauto.
Qed.

Lemma join_cons (sep x : string) (l : list string) :
  l <> [] -> join sep (x :: l) = (x ++ sep ++ join sep l)%string.
Proof. destruct l; [congruence | reflexivity]. Qed.

Lemma join_members_open (kv : string * json) (l : list (string * json))
    (rest : string) :
  exists t,
    (join "," (map (fun kv => QuoteJSONString (fst kv) ++ ":" ++ JSON_text (snd kv))
                   (kv :: l)) ++ rest)%string
    = (QuoteJSONString (fst kv) ++ t)%string.
Proof.
  rewrite map_cons. destruct l as [| kv' l].
  - cbn [map join]. rewrite !append_assoc. eexists. reflexivity.
  - rewrite join_cons by discriminate. rewrite !append_assoc. eexists. reflexivity.
Qed.

(** The members of an object, written and read. *)
Lemma parseMembers_fields (fields : list (string * json)) (fuel : nat)
    (acc : list (string * json)) (rest : string) :
  fields <> [] -> Forall (fun kv => scalar (snd kv)) fields ->
  NoDup (map fst (acc ++ fields)) -> (List.length fields < fuel)%nat ->
  parseMembers fuel acc
    (join "," (map (fun kv => QuoteJSONString (fst kv) ++ ":" ++ JSON_text (snd kv))
                   fields) ++ String "}" rest)
  = Value (JObject (acc ++ fields)) rest.
Proof.
  revert fuel acc. induction fields as [| [k v] fields IH];
    intros fuel acc Hne Hsc Hnd Hf; [congruence|].
  inversion Hsc as [| ? ? Hv Hsc']; subst. cbn [snd] in Hv.
  assert (Hk : ~ In k (map fst acc)).
  { rewrite map_app in Hnd. cbn [map fst] in Hnd.
    apply NoDup_remove_2 in Hnd. intros Hin. apply Hnd.
    apply in_or_app. now left. }
  destruct fuel as [| fuel]; [simpl in Hf; lia|].
  destruct fuel as [| fuel]; [simpl in Hf; lia|].
  rewrite map_cons. cbn [fst snd].
  destruct fields as [| kv' fields].
  - cbn [map join]. rewrite !append_assoc.
    change (":" ++ ?x)%string with (String ":" x).
    rewrite (parseMembers_last (S fuel) acc k _ v);
      [| now apply skipWhiteSpace_scalar | now apply parseValue_scalar].
    now rewrite setField_fresh.
  - rewrite join_cons by discriminate. rewrite !append_assoc.
    change (":" ++ ?x)%string with (String ":" x).
    change ("," ++ ?x)%string with (String "," x).
    rewrite (parseMembers_next (S fuel) acc k _ v);
      [| now apply skipWhiteSpace_scalar
       | destruct (join_members_open kv' fields (String "}" rest)) as [t ->];
         reflexivity
       | now apply parseValue_scalar].
    rewrite setField_fresh by exact Hk.
    rewrite IH.
    + now rewrite <- app_assoc.
    + discriminate.
    + exact Hsc'.
    + rewrite <- app_assoc. exact Hnd.
    + simpl List.length in *. lia.
Qed.

Lemma parseValue_object (fuel : nat) (k t : string) :
  parseValue (S fuel) (String "{" (QuoteJSONString k ++ t))
  = parseMembers fuel [] (QuoteJSONString k ++ t).
Proof. reflexivity. Qed.

(** A flat object, written and read. *)
Lemma parseValue_flatObject (fuel : nat) (fields : list (string * json))
    (rest : string) :
  fields <> [] -> Forall (fun kv => scalar (snd kv)) fields ->
  NoDup (map fst fields) -> (List.length fields + 1 < fuel)%nat ->
  parseValue fuel (JSON_text (JObject fields) ++ rest)
  = Value (JObject fields) rest.
Proof.
  intros Hne Hsc Hnd Hf. destruct fuel as [| fuel]; [lia|].
  cbn [JSON_text]. rewrite !append_assoc.
  change ("{" ++ ?x)%string with (String "{" x).
  change ("}" ++ ?x)%string with (String "}" x).
  destruct fields as [| kv fields]; [congruence|].
  destruct (join_members_open kv fields (String "}" rest)) as [t Et].
  rewrite Et, parseValue_object, <- Et.
  rewrite parseMembers_fields; [reflexivity | discriminate | exact Hsc | exact Hnd |].
  simpl List.length in *. lia.
Qed.

Lemma flatObject_text_open (o : json) (rest : string) :
  flatObject o ->
  exists t, (JSON_text o ++ rest)%string = String "{" (String "034" t).
Proof.
  intros (fields & -> & Hne & _ & _). destruct fields as [| kv fields]; [congruence|].
  cbn [JSON_text]. rewrite !append_assoc.
  destruct (join_members_open kv fields ("}" ++ rest)) as [t ->].
  eexists. reflexivity.
Qed.

Lemma parseElements_last (fuel : nat) (acc : list json) (vt : string) (v : json)
    (rest : string) :
  parseValue fuel (vt ++ String "]" rest) = Value v (String "]" rest) ->
  parseElements (S fuel) acc (vt ++ String "]" rest)
  = Value (JArray (acc ++ [v])) rest.
Proof.
  intros Hv. cbn [parseElements]. rewrite Hv, skipWhiteSpace_bracket. reflexivity.
Qed.

Lemma parseElements_next (fuel : nat) (acc : list json) (vt : string) (v : json)
    (next : string) :
  parseValue fuel (vt ++ String "," next) = Value v (String "," next) ->
  skipWhiteSpace next = next ->
  parseElements (S fuel) acc (vt ++ String "," next)
  = parseElements fuel (acc ++ [v]) next.
Proof.
  intros Hv Hn. cbn [parseElements].
  rewrite Hv, skipWhiteSpace_comma, Hn. reflexivity.
Qed.

Lemma join_objects_open (o : json) (l : list json) (rest : string) :
  flatObject o ->
  exists t, (join "," (map JSON_text (o :: l)) ++ rest)%string = String "{" t.
Proof.
  intros Ho. rewrite map_cons. destruct l as [| o' l].
  - cbn [map join]. destruct (flatObject_text_open o rest Ho) as [t ->].
    eexists. reflexivity.
  - rewrite join_cons by discriminate. rewrite !append_assoc.
    match goal with
    | |- exists t, (JSON_text o ++ ?X)%string = _ =>
        destruct (flatObject_text_open o X Ho) as [t ->]
    end.
    eexists. reflexivity.
Qed.

Lemma length_join (sep : string) (l : list string) :
  (forall x, In x l -> (1 <= String.length x)%nat) ->
  (List.length l <= String.length (join sep l))%nat.
Proof.
  induction l as [| x l IH]; intros H; [simpl; lia|].
  pose proof (H x (or_introl eq_refl)) as Hx.
  destruct l as [| y l]; [simpl; lia|].
  rewrite join_cons by discriminate. rewrite !length_append.
  specialize (IH (fun z Hz => H z (or_intror Hz))). simpl List.length in *. lia.
Qed.

Lemma length_join_In (sep x : string) (l : list string) :
  In x l -> (String.length x <= String.length (join sep l))%nat.
Proof.
  induction l as [| y l IH]; intros H; [destruct H|].
  destruct l as [| z l].
  - destruct H as [-> | []]. simpl. lia.
  - rewrite join_cons by discriminate. rewrite !length_append.
    destruct H as [-> | H]; [lia|]. specialize (IH H). lia.
Qed.

Lemma length_fields_text (fields : list (string * json)) :
  (List.length fields <= String.length (JSON_text (JObject fields)))%nat.
Proof.
  cbn [JSON_text]. rewrite !length_append.
  pose proof (length_join ","
                (map (fun kv => QuoteJSONString (fst kv) ++ ":" ++ JSON_text (snd kv))%string
                     fields)) as H.
  rewrite length_map in H.
  etransitivity; [apply H | lia]. intros x Hx. apply in_map_iff in Hx. destruct Hx as (kv & <- & _).
  unfold QuoteJSONString. simpl. lia.
Qed.

(** The objects of an array, written and read; [n] bounds the length of the
    text of an object. *)
Lemma parseElements_objects (n : nat) (items : list json) (fuel : nat)
    (acc : list json) (rest : string) :
  items <> [] ->
  Forall (fun o => flatObject o /\ (String.length (JSON_text o) <= n)%nat) items ->
  (List.length items + n + 2 <= fuel)%nat ->
  parseElements fuel acc (join "," (map JSON_text items) ++ String "]" rest)
  = Value (JArray (acc ++ items)) rest.
Proof.
  revert fuel acc. induction items as [| o items IH]; intros fuel acc Hne Hall Hf;
    [congruence|].
  inversion Hall as [| ? ? [Ho Hn] Hall']; subst.
  destruct fuel as [| fuel]; [simpl in Hf; lia|]. simpl List.length in Hf.
  assert (Hv : forall r, parseValue fuel (JSON_text o ++ r) = Value o r).
  { intros r. destruct Ho as (fields & -> & Hfn & Hsc & Hnd).
    apply parseValue_flatObject; try assumption.
    pose proof (length_fields_text fields). lia. }
  rewrite map_cons. destruct items as [| o' items].
  - cbn [map join].
    rewrite (parseElements_last fuel acc _ o); [reflexivity | apply Hv].
  - rewrite join_cons by discriminate. rewrite !append_assoc.
    change ("," ++ ?x)%string with (String "," x).
    rewrite (parseElements_next fuel acc _ o).
    + rewrite IH; [| discriminate | exact Hall' | simpl List.length in *; lia].
      rewrite <- app_assoc. reflexivity.
    + apply Hv.
    + inversion Hall' as [| ? ? [Ho' _] _]; subst.
      destruct (join_objects_open o' items (String "]" rest) Ho') as [t ->].
      apply skipWhiteSpace_open.
Qed.

(** The text written for an array of flat objects reads as the array. *)
Theorem JSON_read_text (items : list json) :
  Forall flatObject items ->
  JSON_read (JSON_text (JArray items)) = Value (JArray items) "".
Proof.
  intros Hflat. destruct items as [| o items]; [reflexivity|].
  unfold JSON_read. cbn [JSON_text].
  set (J := join "," (map JSON_text (o :: items))).
  assert (Hall : Forall (fun a => flatObject a
                                  /\ (String.length (JSON_text a) <= String.length J)%nat)
                        (o :: items)).
  { rewrite Forall_forall in *. intros a Ha. split; [now apply Hflat|].
    apply length_join_In. now apply in_map. }
  assert (Hlen : (List.length (o :: items) <= String.length J)%nat).
  { unfold J. rewrite <- (length_map JSON_text). apply length_join.
    intros x Hx. apply in_map_iff in Hx. destruct Hx as (a & <- & Ha).
    rewrite Forall_forall in Hflat.
    destruct (flatObject_text_open a "" (Hflat a Ha)) as [t E].
    rewrite append_empty in E. rewrite E. simpl. lia. }
  inversion Hflat as [| ? ? Ho _]; subst.
  destruct (join_objects_open o items "]" Ho) as [t Et]. fold J in Et.
  cbn [append]. rewrite Et.
  assert (El : String.length (String "[" (String "{" t)) = S (String.length J + 1)).
  { rewrite <- Et. simpl. rewrite length_append. reflexivity. }
  rewrite El.
  replace (2 * S (String.length J + 1) + 1)%nat
    with (S (2 * S (String.length J + 1)))%nat by lia.
  change (skipWhiteSpace (String "[" (String "{" t))) with (String "[" (String "{" t)).
  change (parseValue (S ?f) (String "[" (String "{" t)))
    with (parseElements f [] (String "{" t)).
  rewrite <- Et. unfold J.
  rewrite (parseElements_objects (String.length J)); [reflexivity | discriminate | exact Hall |].
  fold J. lia.
Qed.
(** ** The mirror, as text *)

Lemma getItem_setItem (key value : string) (ls : LocalStorage) :
  getItem key (setItem key value ls) = Some value.
Proof. unfold setItem. cbn [getItem]. now rewrite String.eqb_refl. Qed.

Lemma getItem_setItem_other (key k value : string) (ls : LocalStorage) :
  k <> key -> getItem k (setItem key value ls) = getItem k ls.
Proof.
  intros H. unfold setItem. cbn [getItem].
  destruct (String.eqb_spec key k); [congruence | reflexivity].
Qed.

Lemma properties_scalar (e : Expense) :
  Forall (fun kv => scalar (snd kv)) (properties e).
Proof.
  unfold properties. repeat constructor. cbn [snd]. apply scalar_jsonOfNumber.
Qed.

Lemma properties_names (e : Expense) : NoDup (map fst (properties e)).
Proof.
  unfold properties. cbn [map fst].
  repeat constructor; simpl; intuition discriminate.
Qed.

(** An object of a record is a flat object. *)
Lemma objectOf_flat (e : Expense) (o : json) : objectOf e o -> flatObject o.
Proof.
  intros (fields & -> & Hp). exists fields. split; [reflexivity|]. split.
  - intros ->. apply Permutation_nil in Hp. discriminate.
  - split.
    + eapply Permutation_Forall; [apply Permutation_sym; exact Hp|].
      apply properties_scalar.
    + eapply Permutation_NoDup;
        [apply Permutation_map, Permutation_sym; exact Hp | apply properties_names].
Qed.

Lemma field_In (fields : list (string * json)) (k : string) (v : json) :
  NoDup (map fst fields) -> In (k, v) fields -> field k fields = Some v.
Proof.
  induction fields as [| [k' v'] fields IH]; intros Hnd Hin; [destruct Hin|].
  cbn [map fst] in Hnd. inversion Hnd as [| ? ? Hk Hnd']; subst. cbn [field].
  destruct Hin as [E | Hin].
  - injection E as -> ->. now rewrite String.eqb_refl.
  - destruct (String.eqb_spec k' k) as [-> | _]; [|now apply IH].
    exfalso. apply Hk. change k with (fst (k, v)). now apply in_map.
Qed.

(** An object of a record is read as the record, whatever the order of
    its properties. *)
Lemma expenseOfJson_objectOf (e : Expense) (o : json) :
  storable (amount e) -> objectOf e o -> expenseOfJson o = Some e.
Proof.
  intros Hs Ho. destruct (objectOf_flat e o Ho) as (fields' & E' & _ & _ & Hnd).
  destruct Ho as (fields & -> & Hp). injection E' as <-.
  assert (F : forall k v, In (k, v) (properties e) -> field k fields = Some v).
  { intros k v Hin. apply field_In; [exact Hnd|].
    eapply Permutation_in; [apply Permutation_sym; exact Hp | exact Hin]. }
  pose proof (Permutation_length Hp) as Hlen.
  unfold expenseOfJson.
  rewrite (F "id" (JString (id e))) by (simpl; auto).
  rewrite (F "label" (JString (label e))) by (simpl; auto).
  rewrite (F "category" (JString (categoryName (category e)))) by (simpl; auto).
  rewrite (F "amount" (jsonOfNumber (amount e))) by (simpl; auto 6).
  rewrite (F "date" (JString (date e))) by (simpl; auto 6).
  rewrite (jsonOfNumber_storable _ Hs), categoryOfName_categoryName, Hlen.
  destruct e; reflexivity.
Qed.

Lemma traverse_objects (store : list Expense) (objects : list json) :
  Forall (fun e => storable (amount e)) store ->
  Forall2 objectOf store objects ->
  traverse expenseOfJson objects = Some store.
Proof.
  intros Hs H. induction H as [| e o store objects Ho _ IH]; [reflexivity|].
  inversion Hs as [| ? ? He Hs']; subst. cbn [traverse].
  now rewrite (expenseOfJson_objectOf e o He Ho), (IH Hs').
Qed.

(** What the persist effect writes is, to the load effect, the JSON text
    of the array of the objects. *)
Lemma readMirror_persistTo (objects : list json) (ls : LocalStorage) :
  Forall flatObject objects ->
  readMirror (persistTo objects ls) = Some (Some (JSONText (JArray objects))).
Proof.
  intros H. unfold readMirror, persistTo. rewrite getItem_setItem.
  unfold textOf. rewrite (JSON_read_text objects H). reflexivity.
Qed.

Lemma jsonOfExpense_objectOf (e : Expense) : objectOf e (jsonOfExpense e).
Proof. exists (properties e). split; [reflexivity | apply Permutation_refl]. Qed.

(** C8. The persist effect writes the JSON text of the records under the
    storage key and leaves the other keys alone. Whatever the order of the
    properties of the objects of the records, that text reads as the array
    of the objects; and for a store whose amounts JSON writes as
    themselves (finite, not [-0]) the load effect, reading the key, sets
    the list to the store, field by field the records that were written,
    and leaves the mirror as it is. *)
Theorem load_after_persist (h : Host) (randomUUID : option (nat -> string))
    (now : Z) (ls : LocalStorage) (store : list Expense) (objects : list json) :
  Forall (fun e => storable (amount e)) store ->
  Forall2 objectOf store objects ->
  getItem storageKey (persistTo objects ls) = Some (JSON_text (JArray objects))
  /\ (forall k, k <> storageKey -> getItem k (persistTo objects ls) = getItem k ls)
  /\ JSON_read (JSON_text (JArray objects)) = Value (JArray objects) ""
  /\ traverse expenseOfJson objects = Some store
  /\ exists key,
       loadFrom h randomUUID now (persistTo objects ls)
       = Some (Returns {| setExpenses := Some store; setActiveMonthKey := key;
                          storageAfterLoad := Some (JSONText (JArray objects)) |}).
Proof.
  intros Hs Ho.
  assert (Hflat : Forall flatObject objects).
  { clear Hs. induction Ho as [| e o store objects H _ IH]; constructor.
    - exact (objectOf_flat e o H).
    - exact IH. }
  pose proof (traverse_objects store objects Hs Ho) as Ht.
  split; [apply getItem_setItem|].
  split; [intros k Hk; now apply getItem_setItem_other|].
  split; [now apply JSON_read_text|].
  split; [exact Ht|].
  eexists. unfold loadFrom. rewrite (readMirror_persistTo objects ls Hflat).
  unfold option_map, loadEffect, classify. rewrite Ht. reflexivity.
Qed.

Lemma sampleObjects_of_sampleStore : Forall2 objectOf sampleStore sampleObjects.
Proof.
  repeat constructor.
  - eexists. split; [reflexivity|]. vm_compute.
    do 2 apply perm_skip. apply perm_swap.
  - eexists. split; [reflexivity|]. vm_compute. apply Permutation_sym.
    exact (Permutation_cons_append
             [("label", JString "Dinner"); ("category", JString "Food");
              ("amount", JNumber 20%float); ("date", JString "2024-01-05")]
             ("id", JString "b")).
  - eexists. split; [reflexivity|]. vm_compute. apply Permutation_sym.
    exact (Permutation_cons_append
             [("label", JString "Bus"); ("category", JString "Transport");
              ("amount", JNumber 5%float); ("date", JString "2024-01-10")]
             ("id", JString "c")).
Qed.

Lemma load_after_persist_witness :
  Forall (fun e => storable (amount e)) sampleStore
  /\ Forall2 objectOf sampleStore sampleObjects
  /\ String.length (JSON_text (JArray sampleObjects)) = 235%nat
  /\ exists l,
       loadFrom utcHost None sampleClock (persistTo sampleObjects [("theme", "dark")])
       = Some (Returns l)
       /\ setExpenses l = Some sampleStore.
Proof.
  assert (H : Forall (fun e => storable (amount e)) sampleStore)
    by (repeat constructor; apply storable_example; reflexivity).
  split; [exact H|]. split; [exact sampleObjects_of_sampleStore|].
  split; [vm_compute; reflexivity|].
  destruct (load_after_persist utcHost None sampleClock [("theme", "dark")]
              sampleStore sampleObjects H sampleObjects_of_sampleStore)
    as (_ & _ & _ & _ & key & Hload).
  eexists. split; [exact Hload | reflexivity].
Defined.

(** In the order of the type, the text of the store is that of the
    value-level embedding. *)
Lemma readMirror_persistEffect (store : list Expense) (ls : LocalStorage) :
  readMirror (persistTo (map jsonOfExpense store) ls) = Some (persistEffect store).
Proof.
  apply readMirror_persistTo. apply Forall_forall. intros o Ho.
  apply in_map_iff in Ho. destruct Ho as (e & <- & _).
  exact (objectOf_flat e _ (jsonOfExpense_objectOf e)).
Qed.

(** The texts of some numbers. *)
Lemma NumberToString_samples :
  map NumberToString
      [4.5; 86.2; 28; 64.75; 22; 4.57; 0.1; 100; -5; 1e21; 1e-7; 123456789012345680000;
       0.000001; 5e-324; 1.7976931348623157e308]%float
  = ["4.5"; "86.2"; "28"; "64.75"; "22"; "4.57"; "0.1"; "100"; "-5"; "1e+21"; "1e-7";
     "123456789012345680000"; "0.000001"; "5e-324"; "1.7976931348623157e+308"].
Proof. vm_compute. reflexivity. Qed.
